(** * A shallow embedding of the NewsAPI -> Snowflake Fivetran connector

    The development follows [connector.py]: the Python values the connector
    handles, the exceptions its operations raise, the effects it performs
    (HTTP requests, the warehouse lookup, logging, yielded operations) and
    then the three functions [get_last_published_at], [sync_items] and
    [update], followed by the properties of a run. *)

From Stdlib Require Import ZArith List String Ascii Bool Lia.
From Stdlib Require Import Floats.SpecFloat.
From stdpp Require Import gmap strings pretty list fin_maps.

Local Open Scope Z_scope.

(** ** Python values

    The values that flow through the connector are the ones [json] decodes:
    [None], booleans, integers, floats, strings, lists and objects.  A string
    is a sequence of code points below 256 (one [ascii] each).  A decoded JSON
    object keeps its keys in document order and has no repeated key. *)

Unset Elimination Schemes.
Inductive pyval : Type :=
| PNone
| PBool (b : bool)
| PInt (z : Z)
| PFloat (f : spec_float)
| PStr (s : string)
| PList (l : list pyval)
| PDict (d : list (string * pyval)).
Set Elimination Schemes.

(** Dictionaries the connector builds itself ([data], [params], [headers],
    the run state) are finite maps from keys to values. *)
Abbreviation dict := (gmap string pyval).

(** [type(v).__name__] *)
Definition py_type_name (v : pyval) : string :=
  match v with
  | PNone => "NoneType"
  | PBool _ => "bool"
  | PInt _ => "int"
  | PFloat _ => "float"
  | PStr _ => "str"
  | PList _ => "list"
  | PDict _ => "dict"
  end.

(** ** Exceptions

    Every class is a subclass of [Exception] except those tagged
    [BaseExceptionOnly] ([KeyboardInterrupt], [SystemExit], ...), which an
    [except Exception] clause lets through. *)

Inductive exc_class : Type :=
| KeyError
| IndexError
| TypeError
| AttributeError
| ValueError
| RuntimeError
| OverflowError
| ExceptionSubclass (name : string)
| BaseExceptionOnly (name : string).

Definition class_name (c : exc_class) : string :=
  match c with
  | KeyError => "KeyError"
  | IndexError => "IndexError"
  | TypeError => "TypeError"
  | AttributeError => "AttributeError"
  | ValueError => "ValueError"
  | RuntimeError => "RuntimeError"
  | OverflowError => "OverflowError"
  | ExceptionSubclass n => n
  | BaseExceptionOnly n => n
  end.

(** An exception object: its class and [str(e)]. *)
Record exn : Type := mk_exn { exn_class : exc_class; exn_str : string }.

(** [isinstance(e, Exception)] *)
Definition is_Exception (e : exn) : bool :=
  match exn_class e with
  | BaseExceptionOnly _ => false
  | _ => true
  end.

(** The outcome of evaluating an expression: a value or a raised exception. *)
Inductive res (A : Type) : Type :=
| Ok (a : A)
| Raise (e : exn).
Arguments Ok {A} a.
Arguments Raise {A} e.

Definition res_bind {A B} (r : res A) (k : A -> res B) : res B :=
  match r with
  | Ok a => k a
  | Raise e => Raise e
  end.

Declare Scope res_scope.
Delimit Scope res_scope with res.
Notation "'let?' x := r 'in' k" := (res_bind r (fun x => k))
  (at level 10, x name, r at level 100, k at level 200) : res_scope.
Local Open Scope res_scope.

(** ** Strings *)

Definition hex_digit (n : N) : ascii :=
  ascii_of_N (if (n <? 10)%N then 48 + n else 87 + n).

(** [str.isprintable] on one code point below 256. *)
Definition py_isprintable (c : ascii) : bool :=
  let n := N_of_ascii c in
  ((32 <=? n) && (n <=? 126) || (161 <=? n) && negb (n =? 173))%N.

Definition str_contains_char (c : ascii) (s : string) : bool :=
  existsb (Ascii.eqb c) (list_ascii_of_string s).

(** [repr(s)] for a [str]: single quotes unless the text holds a single
    quote and no double quote; backslash, the quote and the control
    characters are escaped. *)
Definition py_repr_str (s : string) : string :=
  let double_quote : ascii := "034"%char in
  let q : ascii :=
    if str_contains_char "'" s && negb (str_contains_char double_quote s)
    then double_quote else "'"%char in
  let esc (c : ascii) : string :=
    if Ascii.eqb c "\"%char then "\\"
    else if Ascii.eqb c q then String "\"%char (String q "")
    else if Ascii.eqb c "010"%char then "\n"
    else if Ascii.eqb c "013"%char then "\r"
    else if Ascii.eqb c "009"%char then "\t"
    else if py_isprintable c then String c ""
    else String "\"%char (String "x"%char
           (String (hex_digit (N_of_ascii c / 16))
              (String (hex_digit (N_of_ascii c mod 16)) "")))
  in
  String q (String.concat "" (map esc (list_ascii_of_string s)) +:+ String q "").

(** [str.isspace] on one code point below 256. *)
Definition py_isspace (c : ascii) : bool :=
  let n := N_of_ascii c in
  ((9 <=? n) && (n <=? 13) || (28 <=? n) && (n <=? 32)
   || (n =? 133) || (n =? 160))%N.

Fixpoint lstrip (s : string) : string :=
  match s with
  | String c s' => if py_isspace c then lstrip s' else s
  | EmptyString => EmptyString
  end.

(** [rstrip s] drops the trailing whitespace: a character is kept when it is
    not whitespace or when something is kept after it. *)
Fixpoint rstrip (s : string) : string :=
  match s with
  | String c s' =>
      match rstrip s' with
      | EmptyString => if py_isspace c then EmptyString else String c EmptyString
      | r => String c r
      end
  | EmptyString => EmptyString
  end.

(** [s.strip()] *)
Definition strip (s : string) : string := rstrip (lstrip s).

(** [s.split(sep)] for a separator of one character: never an empty list. *)
Fixpoint split (sep : ascii) (s : string) : list string :=
  match s with
  | EmptyString => [EmptyString]
  | String c s' =>
      if Ascii.eqb c sep then EmptyString :: split sep s'
      else match split sep s' with
           | h :: t => String c h :: t
           | [] => [String c EmptyString]
           end
  end.

(** [needle in hay] on strings. *)
Fixpoint str_prefix (p s : string) : bool :=
  match p, s with
  | EmptyString, _ => true
  | String a p', String b s' => Ascii.eqb a b && str_prefix p' s'
  | String _ _, EmptyString => false
  end.

Fixpoint str_in (needle hay : string) : bool :=
  str_prefix needle hay ||
  match hay with
  | EmptyString => false
  | String _ hay' => str_in needle hay'
  end.

(** ** Truth value, equality and ordering of values *)

(** The numeric value of a [bool], [int] or [float]: a dyadic [n * 2^e], an
    infinity or a NaN. *)
Inductive extnum : Type :=
| NaN
| NegInf
| PosInf
| Dyadic (n e : Z).

Definition num_of (v : pyval) : option extnum :=
  match v with
  | PBool b => Some (Dyadic (Z.b2z b) 0)
  | PInt z => Some (Dyadic z 0)
  | PFloat S754_nan => Some NaN
  | PFloat (S754_infinity s) => Some (if s then NegInf else PosInf)
  | PFloat (S754_zero _) => Some (Dyadic 0 0)
  | PFloat (S754_finite s m e) => Some (Dyadic (if s then Z.neg m else Z.pos m) e)
  | _ => None
  end.

Definition num_compare (a b : extnum) : option comparison :=
  match a, b with
  | NaN, _ | _, NaN => None
  | NegInf, NegInf | PosInf, PosInf => Some Eq
  | NegInf, _ | _, PosInf => Some Lt
  | PosInf, _ | _, NegInf => Some Gt
  | Dyadic n1 e1, Dyadic n2 e2 =>
      let e := Z.min e1 e2 in
      Some (Z.compare (n1 * 2 ^ (e1 - e)) (n2 * 2 ^ (e2 - e)))
  end.

(** [bool(v)] *)
Definition py_truthy (v : pyval) : bool :=
  match v with
  | PNone => false
  | PStr s => negb (String.eqb s "")
  | PList l => match l with [] => false | _ => true end
  | PDict d => match d with [] => false | _ => true end
  | _ => match num_of v with
         | Some x => match num_compare x (Dyadic 0 0) with
                     | Some Eq => false
                     | _ => true
                     end
         | None => true
         end
  end.

(** Lookup in a decoded JSON object. *)
Fixpoint assoc (k : string) (d : list (string * pyval)) : option pyval :=
  match d with
  | [] => None
  | (k', v) :: d' => if String.eqb k k' then Some v else assoc k d'
  end.

(** [a == b] on two distinct objects. *)
Fixpoint py_eq (a b : pyval) : bool :=
  match a, b with
  | PNone, PNone => true
  | PStr s, PStr t => String.eqb s t
  | PList xs, PList ys =>
      (fix go (xs ys : list pyval) : bool :=
         match xs, ys with
         | [], [] => true
         | x :: xs', y :: ys' => py_eq x y && go xs' ys'
         | _, _ => false
         end) xs ys
  | PDict d, PDict d' =>
      Nat.eqb (length d) (length d') &&
      (fix all (d : list (string * pyval)) : bool :=
         match d with
         | [] => true
         | (k, v) :: r =>
             match assoc k d' with
             | Some w => py_eq v w
             | None => false
             end && all r
         end) d
  | _, _ =>
      match num_of a, num_of b with
      | Some x, Some y =>
          match num_compare x y with Some Eq => true | _ => false end
      | _, _ => false
      end
  end.

Definition not_supported (op : string) (a b : pyval) : exn :=
  mk_exn TypeError
    ("'" +:+ op +:+ "' not supported between instances of '"
     +:+ py_type_name a +:+ "' and '" +:+ py_type_name b +:+ "'").

(** [a < b]: strings by code point, numbers by value, lists
    lexicographically; every other pair of types is a [TypeError]. *)
Fixpoint py_lt (a b : pyval) : res bool :=
  match a, b with
  | PStr s, PStr t => Ok (String.ltb s t)
  | PList xs, PList ys =>
      (fix go (xs ys : list pyval) : res bool :=
         match xs, ys with
         | [], [] => Ok false
         | [], _ :: _ => Ok true
         | _ :: _, [] => Ok false
         | x :: xs', y :: ys' => if py_eq x y then go xs' ys' else py_lt x y
         end) xs ys
  | _, _ =>
      match num_of a, num_of b with
      | Some x, Some y =>
          Ok (match num_compare x y with Some Lt => true | _ => false end)
      | _, _ => Raise (not_supported "<" a b)
      end
  end.

(** [min(items)]: the running minimum is replaced by an item only when
    [item < minimum]. *)
Fixpoint min_from (cur : pyval) (items : list pyval) : res pyval :=
  match items with
  | [] => Ok cur
  | x :: rest =>
      let? b := py_lt x cur in
      min_from (if b then x else cur) rest
  end.

Definition py_min (items : list pyval) : res pyval :=
  match items with
  | [] => Raise (mk_exn ValueError "min() iterable argument is empty")
  | x :: rest => min_from x rest
  end.

(** ** Subscripts, methods and iteration *)

Definition not_subscriptable {A} (ty : string) : res A :=
  Raise (mk_exn TypeError ("'" +:+ ty +:+ "' object is not subscriptable")).

Definition no_attribute {A} (ty attr : string) : res A :=
  Raise (mk_exn AttributeError
           ("'" +:+ ty +:+ "' object has no attribute '" +:+ attr +:+ "'")).

(** [v[k]] for a string key [k]. *)
Definition getitem_str (v : pyval) (k : string) : res pyval :=
  match v with
  | PDict d =>
      match assoc k d with
      | Some x => Ok x
      | None => Raise (mk_exn KeyError (py_repr_str k))
      end
  | PList _ =>
      Raise (mk_exn TypeError "list indices must be integers or slices, not str")
  | PStr _ =>
      Raise (mk_exn TypeError "string indices must be integers, not 'str'")
  | _ => not_subscriptable (py_type_name v)
  end.

(** [v[i]] for a literal index [i >= 0]. *)
Definition getitem_int (v : pyval) (i : nat) : res pyval :=
  match v with
  | PList l =>
      match l !! i with
      | Some x => Ok x
      | None => Raise (mk_exn IndexError "list index out of range")
      end
  | PStr s =>
      match String.get i s with
      | Some c => Ok (PStr (String c EmptyString))
      | None => Raise (mk_exn IndexError "string index out of range")
      end
  | PDict _ => Raise (mk_exn KeyError (pretty i))
  | _ => not_subscriptable (py_type_name v)
  end.

(** [v.get(k)] *)
Definition py_get (v : pyval) (k : string) : res pyval :=
  match v with
  | PDict d => Ok (default PNone (assoc k d))
  | _ => no_attribute (py_type_name v) "get"
  end.

(** [v.strip()] *)
Definition py_strip (v : pyval) : res string :=
  match v with
  | PStr s => Ok (strip s)
  | _ => no_attribute (py_type_name v) "strip"
  end.

(** The items [for x in v] runs through. *)
Definition py_iter (v : pyval) : res (list pyval) :=
  match v with
  | PList l => Ok l
  | PStr s => Ok (map (fun c => PStr (String c EmptyString)) (list_ascii_of_string s))
  | PDict d => Ok (map (fun kv => PStr (fst kv)) d)
  | _ => Raise (mk_exn TypeError
                  ("'" +:+ py_type_name v +:+ "' object is not iterable"))
  end.

(** [d.get(k)] and [d[k]] on a dictionary built by the connector. *)
Definition dict_get (d : dict) (k : string) : pyval := default PNone (d !! k).

Definition dict_getitem {V} (d : gmap string V) (k : string) : res V :=
  match d !! k with
  | Some v => Ok v
  | None => Raise (mk_exn KeyError (py_repr_str k))
  end.

(** ** Dates and times

    A [datetime] is a proleptic Gregorian day number (day 1 is 0001-01-01),
    the second of that day and the microsecond of that second. *)

Record datetime : Type :=
  { dt_ordinal : Z; dt_second : Z; dt_microsecond : Z }.

Record timedelta : Type :=
  { td_days : Z; td_seconds : Z; td_microseconds : Z }.

Definition MAXORDINAL : Z := 3652059.

(** [t - d] *)
Definition datetime_sub (t : datetime) (d : timedelta) : res datetime :=
  let us := dt_microsecond t - td_microseconds d in
  let s := dt_second t - td_seconds d + us / 1000000 in
  let days := dt_ordinal t - td_days d + s / 86400 in
  if (0 <? days) && (days <=? MAXORDINAL)
  then Ok {| dt_ordinal := days;
             dt_second := s mod 86400;
             dt_microsecond := us mod 1000000 |}
  else Raise (mk_exn OverflowError "date value out of range").

Definition DAYS_IN_MONTH : list Z :=
  [-1; 31; 28; 31; 30; 31; 30; 31; 31; 30; 31; 30; 31].
Definition DAYS_BEFORE_MONTH : list Z :=
  [-1; 0; 31; 59; 90; 120; 151; 181; 212; 243; 273; 304; 334].
Definition month_entry (l : list Z) (month : Z) : Z := nth (Z.to_nat month) l 0.

Definition is_leap (year : Z) : bool :=
  (year mod 4 =? 0)%Z && (negb (year mod 100 =? 0)%Z || (year mod 400 =? 0)%Z).

Definition days_before_year (year : Z) : Z :=
  let y := year - 1 in y * 365 + y / 4 - y / 100 + y / 400.

Definition days_before_month (year month : Z) : Z :=
  month_entry DAYS_BEFORE_MONTH month
  + (if (2 <? month) && is_leap year then 1 else 0).

Definition ymd2ord (year month day : Z) : Z :=
  days_before_year year + days_before_month year month + day.

Definition DI400Y : Z := 146097.
Definition DI100Y : Z := 36524.
Definition DI4Y : Z := 1461.

(** Day number to (year, month, day). *)
Definition ord2ymd (n : Z) : Z * Z * Z :=
  let n := n - 1 in
  let n400 := n / DI400Y in
  let n := n mod DI400Y in
  let year := n400 * 400 + 1 in
  let n100 := n / DI100Y in
  let n := n mod DI100Y in
  let n4 := n / DI4Y in
  let n := n mod DI4Y in
  let n1 := n / 365 in
  let n := n mod 365 in
  let year := year + n100 * 100 + n4 * 4 + n1 in
  if (n1 =? 4)%Z || (n100 =? 4)%Z then (year - 1, 12, 31)
  else
    let leapyear := (n1 =? 3)%Z && (negb (n4 =? 24)%Z || (n100 =? 3)%Z) in
    let month := Z.shiftr (n + 50) 5 in
    let preceding :=
      month_entry DAYS_BEFORE_MONTH month
      + (if (2 <? month) && leapyear then 1 else 0) in
    if n <? preceding
    then
      let month := month - 1 in
      let preceding :=
        preceding - (month_entry DAYS_IN_MONTH month
                     + (if (month =? 2)%Z && leapyear then 1 else 0)) in
      (year, month, n - preceding + 1)
    else (year, month, n - preceding + 1).

(** The datetime of a calendar date and a time of day. *)
Definition mk_datetime (year month day hour minute second : Z) : datetime :=
  {| dt_ordinal := ymd2ord year month day;
     dt_second := hour * 3600 + minute * 60 + second;
     dt_microsecond := 0 |}.

(** A number in decimal, padded with zeros on the left to [w] characters. *)
Definition zfill (w : nat) (z : Z) : string :=
  let s := pretty z in
  String.concat "" (repeat "0" (w - String.length s)) +:+ s.

(** [t.strftime(fmt)] for the directives [%Y %m %d %H %M %S]: any other
    character of [fmt] stands for itself.  [datetime.strftime] hands the
    format to the C library: the two-digit fields are padded with zeros,
    the year is printed as the number it is, without padding, so that a
    year below 1000 has fewer than four digits. *)
Definition directive (t : datetime) (c : ascii) : option string :=
  let '(y, m, d) := ord2ymd (dt_ordinal t) in
  let s := dt_second t in
  if Ascii.eqb c "Y" then Some (pretty y)
  else if Ascii.eqb c "m" then Some (zfill 2 m)
  else if Ascii.eqb c "d" then Some (zfill 2 d)
  else if Ascii.eqb c "H" then Some (zfill 2 (s / 3600))
  else if Ascii.eqb c "M" then Some (zfill 2 (s mod 3600 / 60))
  else if Ascii.eqb c "S" then Some (zfill 2 (s mod 60))
  else None.

Fixpoint strftime_from (t : datetime) (fmt : string) : string :=
  match fmt with
  | String "%" (String c rest as tail) =>
      match directive t c with
      | Some field => field +:+ strftime_from t rest
      | None => String "%" (strftime_from t tail)
      end
  | String c rest => String c (strftime_from t rest)
  | EmptyString => EmptyString
  end.

Definition strftime (t : datetime) (fmt : string) : string := strftime_from t fmt.

(** ** Operations, events and the outside world *)

(** What the connector yields to the host ([op.upsert], [op.checkpoint]). *)
Inductive operation : Type :=
| Upsert (table : string) (data : dict)
| Checkpoint (state : dict).

Inductive log_level : Type := Fine | Warning.

(** What a run does that the outside can see, in order. *)
Inductive event : Type :=
| EvConnect (kwargs : gmap string string)
| EvExecute (q : string)
| EvGet (url : string) (headers params : dict)
| EvPost (url : string) (headers : dict) (json : pyval)
| EvLog (level : log_level) (msg : string)
| EvYield (o : operation).

(** A [requests] response: [json_body] is what [response.json()] decodes,
    or the message of the decoding error. *)
Record response : Type :=
  { status_code : Z;
    reason : string;
    url : string;
    json_body : pyval + string }.

(** What [cursor.execute] hands back: the cursor itself, which holds the
    result rows until they are fetched, or [None] for an empty command. *)
Inductive sf_object : Type :=
| SfCursor (rows : list (list pyval))
| SfNone.

(** A value read from the warehouse. *)
Inductive dbval : Type :=
| DbNone
| DbDatetime (t : datetime)
| DbOther (v : pyval).

(** The world a run executes in.  The [k]-th source request of the run and
    the enrichment request for the [j]-th article of the [k]-th topic are
    answered by [env_get k] and [env_post k j]: the answers may differ
    between two identical requests. *)
Record env : Type :=
  { env_now : datetime;
    env_cwd : string;
    env_format_exc : exn -> string;
    env_repr_float : spec_float -> string;
    env_connect : gmap string string -> res unit;
    env_execute : string -> res sf_object;
    env_get : nat -> string -> dict -> dict -> res response;
    env_post : nat -> nat -> string -> dict -> pyval -> res response }.

(** A generator body or an effectful call: the events it performs, then the
    value it returns or the exception it raises. *)
Definition gen (A : Type) : Type := list event * res A.

Definition ret {A} (a : A) : gen A := ([], Ok a).

Definition bind {A B} (m : gen A) (k : A -> gen B) : gen B :=
  match m with
  | (t, Ok a) => let '(t', r) := k a in (t ++ t', r)
  | (t, Raise e) => (t, Raise e)
  end.

Definition lift {A} (r : res A) : gen A := ([], r).
Definition raise {A} (e : exn) : gen A := ([], Raise e).
Definition emit (ev : event) : gen unit := ([ev], Ok tt).

Declare Scope gen_scope.
Delimit Scope gen_scope with gen.
Notation "x <- m ;; k" := (bind m (fun x => k))
  (at level 100, m at next level, right associativity) : gen_scope.
Notation "m ;;; k" := (bind m (fun _ => k))
  (at level 100, right associativity) : gen_scope.
Local Open Scope gen_scope.

(** [try: body except <catches>: handler] *)
Definition try_except {A} (body : gen A) (catches : exn -> bool)
    (handler : exn -> gen A) : gen A :=
  match body with
  | (t, Raise e) =>
      if catches e then let '(t', r) := handler e in (t ++ t', r)
      else (t, Raise e)
  | (t, Ok a) => (t, Ok a)
  end.

(** [for x in items: s = body(x, s)], the iterations numbered from [i]. *)
Fixpoint for_loop {A St} (i : nat) (items : list A) (s : St)
    (body : nat -> A -> St -> gen St) : gen St :=
  match items with
  | [] => ret s
  | x :: rest => s' <- body i x s ;; for_loop (S i) rest s' body
  end.

(** The operations among the events of a run, and the other projections of
    a trace. *)
Definition ops (t : list event) : list operation :=
  omap (fun ev => match ev with EvYield o => Some o | _ => None end) t.

Definition gets (t : list event) : list (string * dict * dict) :=
  omap (fun ev => match ev with EvGet u h p => Some (u, h, p) | _ => None end) t.

Definition warnings (t : list event) : list string :=
  omap (fun ev => match ev with EvLog Warning m => Some m | _ => None end) t.

Definition is_checkpoint (o : operation) : bool :=
  match o with Checkpoint _ => true | Upsert _ _ => false end.

(** ** Library calls *)

Definition yield (o : operation) : gen unit := emit (EvYield o).

Definition log_fine (msg : string) : gen unit := emit (EvLog Fine msg).
Definition log_warning (msg : string) : gen unit := emit (EvLog Warning msg).

Definition snowflake_connect (E : env) (kwargs : gmap string string) : gen unit :=
  emit (EvConnect kwargs) ;;; lift (env_connect E kwargs).

Definition cursor_execute (E : env) (q : string) : gen sf_object :=
  emit (EvExecute q) ;;; lift (env_execute E q).

(** [o[i]]: neither a cursor nor [None] has [__getitem__]. *)
Definition sf_getitem (o : sf_object) (i : nat) : res dbval :=
  match o with
  | SfCursor _ => not_subscriptable "SnowflakeCursor"
  | SfNone => not_subscriptable "NoneType"
  end.

Definition db_truthy (v : dbval) : bool :=
  match v with
  | DbNone => false
  | DbDatetime _ => true
  | DbOther v => py_truthy v
  end.

Definition db_strftime (v : dbval) (fmt : string) : res string :=
  match v with
  | DbDatetime t => Ok (strftime t fmt)
  | DbNone => no_attribute "NoneType" "strftime"
  | DbOther v => no_attribute (py_type_name v) "strftime"
  end.

Definition requests_get (E : env) (k : nat) (u : string) (headers params : dict)
    : gen response :=
  emit (EvGet u headers params) ;;; lift (env_get E k u headers params).

Definition requests_post (E : env) (k j : nat) (u : string) (headers : dict)
    (json : pyval) : gen response :=
  emit (EvPost u headers json) ;;; lift (env_post E k j u headers json).

(** [response.raise_for_status()] *)
Definition raise_for_status (r : response) : res unit :=
  let msg (kind : string) :=
    pretty (status_code r) +:+ " " +:+ kind +:+ " Error: " +:+ reason r
    +:+ " for url: " +:+ url r in
  if (400 <=? status_code r) && (status_code r <? 500)
  then Raise (mk_exn (ExceptionSubclass "HTTPError") (msg "Client"))
  else if (500 <=? status_code r) && (status_code r <? 600)
  then Raise (mk_exn (ExceptionSubclass "HTTPError") (msg "Server"))
  else Ok tt.

(** [response.json()] *)
Definition response_json (r : response) : res pyval :=
  match json_body r with
  | inl v => Ok v
  | inr msg => Raise (mk_exn (ExceptionSubclass "JSONDecodeError") msg)
  end.

(** [repr(v)]; the digits of a float are the runtime's. *)
Fixpoint py_repr (E : env) (v : pyval) : string :=
  match v with
  | PNone => "None"
  | PBool b => if b then "True" else "False"
  | PInt z => pretty z
  | PFloat f => env_repr_float E f
  | PStr s => py_repr_str s
  | PList l =>
      "[" +:+ String.concat ", " (map (py_repr E) l) +:+ "]"
  | PDict d =>
      "{" +:+ String.concat ", "
                (map (fun kv => py_repr_str (fst kv) +:+ ": " +:+ py_repr E (snd kv)) d)
      +:+ "}"
  end.

Definition nl : string := String "010" EmptyString.

(** A dictionary display [{k1: v1, k2: v2, ...}]: a key written twice keeps
    the value written last. *)
Definition dict_literal {V} (items : list (string * V)) : gmap string V :=
  foldl (fun d kv => <[fst kv := snd kv]> d) ∅ items.

(** ** The connector *)

Abbreviation config := (gmap string string).

Definition INIT_DELTA : timedelta :=
  {| td_days := 2; td_seconds := 0; td_microseconds := 0 |}.
Definition BASE_API_URL : string := "https://newsapi.org/v2/everything".
Definition TL_CONF : pyval := PDict [("include_segments", PBool false)].
Definition TL_URL : string := "https://app.tabulalingua.com/v0/standard/".
Definition TS_FORMAT : string := "%Y-%m-%dT%H:%M:%S".

Record table_def : Type :=
  { table : string;
    primary_key : list string;
    columns : list (string * string) }.

Definition schema (configuration : config) : list table_def :=
  [ {| table := "article";
       primary_key := ["source"; "published_at"];
       columns :=
         [ ("source", "STRING");
           ("published_at", "UTC_DATETIME");
           ("author", "STRING");
           ("title", "STRING");
           ("description", "STRING");
           ("content", "STRING");
           ("url", "STRING");
           ("blue", "FLOAT");
           ("red", "FLOAT");
           ("p0", "FLOAT");
           ("p1", "FLOAT");
           ("p2", "FLOAT");
           ("p3", "FLOAT");
           ("p4", "FLOAT");
           ("p5", "FLOAT");
           ("p6", "FLOAT");
           ("p7", "FLOAT") ] |} ].

(** The [try] of [get_last_published_at]: it covers the query and the
    subscript, and its bare [except] leaves [result] as it was, [None]. *)
Definition max_published_at (E : env) : gen dbval :=
  let result := DbNone in
  try_except
    (let table := if str_in "/Users/chris" (env_cwd E)
                  then "tester.article" else "article" in
     let q := "select max(published_at) from " +:+ table in
     cursor <- cursor_execute E q ;;
     lift (sf_getitem cursor 0))
    (fun _ => true)
    (fun _ => ret result).

(** [get_last_published_at]: the connection is opened before the [try]. *)
Definition get_last_published_at (E : env) (conf : config) : gen pyval :=
  user <- lift (dict_getitem conf "SNOWFLAKE_USER") ;;
  password <- lift (dict_getitem conf "SNOWFLAKE_PASSWORD") ;;
  account <- lift (dict_getitem conf "SNOWFLAKE_ACCOUNT") ;;
  warehouse <- lift (dict_getitem conf "SNOWFLAKE_WAREHOUSE") ;;
  database <- lift (dict_getitem conf "SNOWFLAKE_DATABASE") ;;
  schema_name <- lift (dict_getitem conf "SNOWFLAKE_SCHEMA") ;;
  snowflake_connect E
    (dict_literal [("user", user); ("password", password); ("account", account);
                   ("warehouse", warehouse); ("database", database);
                   ("schema", schema_name)]) ;;;
  result <- max_published_at E ;;
  if negb (db_truthy result) then ret PNone
  else s <- lift (db_strftime result TS_FORMAT) ;; ret (PStr s).

(** The [data] display of [sync_items]: its entries are evaluated in order,
    so the first failing subscript decides the exception. *)
Definition base_record (topic : string) (article : pyval) : res dict :=
  let? source := getitem_str article "source" in
  let? source_name := getitem_str source "name" in
  let? published_at := getitem_str article "publishedAt" in
  let? author := getitem_str article "author" in
  let? title := getitem_str article "title" in
  let? description := getitem_str article "description" in
  let? content := getitem_str article "content" in
  let? article_url := getitem_str article "url" in
  Ok (dict_literal
        [("topic", PStr topic);
         ("source", source_name);
         ("published_at", published_at);
         ("author", author);
         ("title", title);
         ("description", description);
         ("content", content);
         ("url", article_url)]).

(** The [try] body up to [tl_data]: nothing is written to [data] yet. *)
Definition tl_request (E : env) (k j : nat) (conf : config) (data : dict)
    : gen pyval :=
  tl_key <- lift (dict_getitem conf "TABULA_KEY") ;;
  content <- lift (py_strip (dict_get data "content")) ;;
  (if String.eqb content ""
   then raise (mk_exn ValueError
                 "Content is blank or doesn't exist in NewsAPI response")
   else ret tt) ;;;
  let body := PDict [("config", TL_CONF); ("text", PStr content)] in
  let headers := dict_literal [("Auth", PStr tl_key);
                               ("accept", PStr "application/json")] in
  tl_response <- requests_post E k j TL_URL headers body ;;
  lift (raise_for_status tl_response) ;;;
  lift (let? js := response_json tl_response in
        let? d := getitem_str js "data" in
        getitem_str d "document").

(** [tl_data["p_values"][i]] *)
Definition p_value (i : nat) (tl_data : pyval) : res pyval :=
  let? p_values := getitem_str tl_data "p_values" in
  getitem_int p_values i.

(** The ten assignments [data[key] = <expression of tl_data>], in order. *)
Definition enrichment_assignments : list (string * (pyval -> res pyval)) :=
  [ ("blue", fun tl_data => getitem_str tl_data "blue");
    ("red", fun tl_data => getitem_str tl_data "red");
    ("p0", p_value 0);
    ("p1", p_value 1);
    ("p2", p_value 2);
    ("p3", p_value 3);
    ("p4", p_value 4);
    ("p5", p_value 5);
    ("p6", p_value 6);
    ("p7", p_value 7) ].

(** Running assignments on the mutable [data]: one that raises leaves the
    earlier writes in place. *)
Fixpoint assign (targets : list (string * (pyval -> res pyval)))
    (tl_data : pyval) (data : dict) : dict * res unit :=
  match targets with
  | [] => (data, Ok tt)
  | (key, rhs) :: rest =>
      match rhs tl_data with
      | Ok v => assign rest tl_data (<[key := v]> data)
      | Raise err => (data, Raise err)
      end
  end.

Definition tl_warning (E : env) (err : exn) : string :=
  "TL Error: " +:+ class_name (exn_class err) +:+ " - " +:+ exn_str err +:+ nl
  +:+ "Stack Trace:" +:+ nl +:+ env_format_exc E err.

(** The [try ... except Exception] of [sync_items] for one article: the
    value is [data] as the [try] left it. *)
Definition enrich (E : env) (k j : nat) (conf : config) (data : dict) : gen dict :=
  let '(t, r) := tl_request E k j conf data in
  let '(data, r) :=
    match r with
    | Ok tl_data => assign enrichment_assignments tl_data data
    | Raise err => (data, Raise err)
    end in
  try_except (t, r) is_Exception (fun err => log_warning (tl_warning E err)) ;;;
  ret data.

(** The request of [sync_items] and the articles its loop runs through:
    [requests.get], [response.json().get("articles")] and the start of the
    [for]. *)
Definition fetch_articles (E : env) (k : nat) (headers params : dict)
    : gen (list pyval) :=
  response <- requests_get E k BASE_API_URL headers params ;;
  articles <- lift (let? js := response_json response in py_get js "articles") ;;
  lift (py_iter articles).

(** The body of the loop of [sync_items] for the [j]-th article. *)
Definition sync_article (E : env) (k : nat) (topic : string) (conf : config)
    (j : nat) (article : pyval) : gen unit :=
  data <- lift (base_record topic article) ;;
  data <- enrich E k j conf data ;;
  yield (Upsert "article" data).

(** [sync_items] for the [k]-th topic of the run. *)
Definition sync_items (E : env) (k : nat) (headers params state : dict)
    (topic : string) (conf : config) : gen unit :=
  articles <- fetch_articles E k headers params ;;
  for_loop 0 articles tt (fun j article _ => sync_article E k topic conf j article) ;;;
  yield (Checkpoint state).

Definition wrapped_error (E : env) (e : exn) : exn :=
  mk_exn RuntimeError
    ("Error Message: " +:+ exn_str e +:+ nl +:+ "Stack Trace:" +:+ nl
     +:+ env_format_exc E e).

(** The query window of [update]: [query_start] and [query_end]. *)
Definition query_window (E : env) (state : dict) (last_published_at : pyval)
    : res (pyval * string) :=
  let now := env_now E in
  let from_ts := dict_get state "to_ts" in
  let? safety_time := datetime_sub now INIT_DELTA in
  let safety := strftime safety_time TS_FORMAT in
  let start_options := [from_ts; last_published_at; PStr safety] in
  let? query_start := py_min (List.filter py_truthy start_options) in
  let query_end := strftime now TS_FORMAT in
  Ok (query_start, query_end).

(** The [params] display of [update]. *)
Definition api_params (query_start : pyval) (query_end page_size : string) : dict :=
  dict_literal
    [("from", query_start);
     ("to", PStr query_end);
     ("page", PStr "1");
     ("language", PStr "en");
     ("sortBy", PStr "publishedAt");
     ("pageSize", PStr page_size);
     ("page", PStr "1")].

Definition api_headers (api_key : string) : dict :=
  dict_literal
    [("Authorization", PStr ("Bearer " +:+ api_key));
     ("Accept", PStr "application/json")].

(** The body of the loop over the topics, for the [k]-th topic: [params]
    is the one dictionary all iterations write [q] into. *)
Definition topic_body (E : env) (headers state : dict) (conf : config)
    (k : nat) (topic : string) (params : dict) : gen dict :=
  let params := <["q" := PStr topic]> params in
  sync_items E k headers params state topic conf ;;; ret params.

(** The loop over the topics; its value is [params] as the loop leaves it. *)
Definition sync_topics (E : env) (headers params state : dict)
    (topics : list string) (conf : config) : gen dict :=
  for_loop 0 topics params (topic_body E headers state conf).

(** [update], the generator the host drives. *)
Definition update (E : env) (configuration : config) (state : dict) : gen unit :=
  let conf := configuration in
  last_published_at <- get_last_published_at E conf ;;
  window <- lift (query_window E state last_published_at) ;;
  let '(query_start, query_end) := window in
  page_size <- lift (dict_getitem conf "PAGE_SIZE") ;;
  let params := api_params query_start query_end page_size in
  api_key <- lift (dict_getitem conf "NEWS_API_KEY") ;;
  let headers := api_headers api_key in
  new_state <-
    try_except
      (topic_list <- lift (dict_getitem conf "TOPIC") ;;
       let topics := split "," topic_list in
       params <- sync_topics E headers params state topics conf ;;
       to_value <- lift (dict_getitem params "to") ;;
       let new_state := dict_literal [("to_ts", to_value)] in
       log_fine ("state updated, new state: {'to_ts': "
                 +:+ py_repr E to_value +:+ "}") ;;;
       ret new_state)
      is_Exception
      (fun e => raise (wrapped_error E e)) ;;
  yield (Checkpoint new_state).

(** ** [camel]

    [str.lower] and [str.title] are given for ASCII text, where the cased
    characters are the letters [A-Z] and [a-z]; the case tables Python
    follows for the code points from 128 on are not part of the model, and
    the statements about [camel] are about ASCII titles. *)

Definition is_ascii (c : ascii) : bool := (N_of_ascii c <? 128)%N.

Definition ascii_text (s : string) : bool :=
  forallb is_ascii (list_ascii_of_string s).

Definition is_upper (c : ascii) : bool :=
  let n := N_of_ascii c in ((65 <=? n) && (n <=? 90))%N.

Definition is_lower (c : ascii) : bool :=
  let n := N_of_ascii c in ((97 <=? n) && (n <=? 122))%N.

Definition is_cased (c : ascii) : bool := is_upper c || is_lower c.

Definition lower_char (c : ascii) : ascii :=
  if is_upper c then ascii_of_N (N_of_ascii c + 32) else c.

Definition upper_char (c : ascii) : ascii :=
  if is_lower c then ascii_of_N (N_of_ascii c - 32) else c.

(** [s.lower()] *)
Fixpoint py_lower (s : string) : string :=
  match s with
  | String c s' => String (lower_char c) (py_lower s')
  | EmptyString => EmptyString
  end.

(** [s.title()]: a character that follows a cased one is lowered, any other
    is put in title case. *)
Fixpoint title_from (previous_is_cased : bool) (s : string) : string :=
  match s with
  | String c s' =>
      String (if previous_is_cased then lower_char c else upper_char c)
        (title_from (is_cased c) s')
  | EmptyString => EmptyString
  end.

Definition py_title (s : string) : string := title_from false s.

(** [s[i]] for [i >= 0] and [s[i:]]. *)
Definition str_getitem (s : string) (i : nat) : res string :=
  match String.get i s with
  | Some c => Ok (String c EmptyString)
  | None => Raise (mk_exn IndexError "string index out of range")
  end.

Definition str_from (i : nat) (s : string) : string :=
  String.substring i (String.length s - i)%nat s.

(** [camel]: the parts between underscores are put in title case and
    joined, and the first character of the result is lowered. *)
Definition camel (title : string) : res string :=
  let parts := split "_" title in
  let reassembled := String.concat "" (map py_title parts) in
  let? first := str_getitem reassembled 0 in
  Ok (py_lower first +:+ str_from 1 reassembled).

(** The vocabulary of the statements about [camel]. *)
Definition only_underscores (s : string) : bool :=
  forallb (Ascii.eqb "_") (list_ascii_of_string s).

Definition lowercase_word (s : string) : bool :=
  forallb is_lower (list_ascii_of_string s).

Definition letters_only (s : string) : bool :=
  forallb is_cased (list_ascii_of_string s).

Definition count_char (c : ascii) (s : string) : nat :=
  length (List.filter (Ascii.eqb c) (list_ascii_of_string s)).

(** [s.capitalize()] of a word in lower case. *)
Definition capitalize (s : string) : string :=
  match s with
  | String c s' => String (upper_char c) s'
  | EmptyString => EmptyString
  end.

(** * Vocabulary of the statements *)

Definition enrichment_keys : list string := enrichment_assignments.*1.

(** The outcome of the [try] of [sync_items] on one article: the exception
    it ends with, if any, and [data] as it leaves it. *)
Definition try_enrich (E : env) (k j : nat) (conf : config) (data : dict)
    : dict * res unit :=
  match (tl_request E k j conf data).2 with
  | Ok tl_data => assign enrichment_assignments tl_data data
  | Raise err => (data, Raise err)
  end.

(** A record as the loop of [sync_items] hands it to [op.upsert]. *)
Definition record_of (E : env) (k : nat) (topic : string) (conf : config)
    (j : nat) (article : pyval) (d : dict) : Prop :=
  exists data, base_record topic article = Ok data /\
               d = (try_enrich E k j conf data).1.

Definition is_db_event (ev : event) : Prop :=
  match ev with EvConnect _ | EvExecute _ => True | _ => False end.

Definition sql_query (E : env) : string :=
  "select max(published_at) from "
  +:+ (if str_in "/Users/chris" (env_cwd E) then "tester.article" else "article").

Definition connect_kwargs (user password account warehouse database schema_name : string)
    : gmap string string :=
  dict_literal [("user", user); ("password", password); ("account", account);
                ("warehouse", warehouse); ("database", database);
                ("schema", schema_name)].

Definition fine_message (E : env) (to_value : pyval) : string :=
  "state updated, new state: {'to_ts': " +:+ py_repr E to_value +:+ "}".

(** ** Sample worlds *)

Definition sample_score : pyval := PFloat (S754_finite false 1 (-1)).

Definition sample_article (source published content : string) : pyval :=
  PDict [("source", PDict [("id", PNone); ("name", PStr source)]);
         ("author", PStr "A. Writer");
         ("title", PStr "A title");
         ("description", PStr "A description");
         ("url", PStr "https://example.org/a");
         ("urlToImage", PNone);
         ("publishedAt", PStr published);
         ("content", PStr content)].

Definition sample_articles : pyval :=
  PDict [("status", PStr "ok");
         ("totalResults", PInt 3);
         ("articles",
          PList [sample_article "bbc" "2024-01-09T01:00:00Z" "first text";
                 sample_article "cnn" "2024-01-09T02:00:00Z" "   ";
                 sample_article "npr" "2024-01-09T03:00:00Z" "third text"])].

Definition sample_document (p_values : list pyval) : pyval :=
  PDict [("data",
          PDict [("document",
                  PDict [("blue", sample_score); ("red", sample_score);
                         ("p_values", PList p_values)])])].

Definition ok_response (body : pyval) : response :=
  {| status_code := 200; reason := "OK"; url := "https://example.org/";
     json_body := inl body |}.

Definition sample_conf : config :=
  dict_literal
    [("SNOWFLAKE_USER", "user"); ("SNOWFLAKE_PASSWORD", "secret");
     ("SNOWFLAKE_ACCOUNT", "acct"); ("SNOWFLAKE_WAREHOUSE", "wh");
     ("SNOWFLAKE_DATABASE", "db"); ("SNOWFLAKE_SCHEMA", "public");
     ("PAGE_SIZE", "100"); ("NEWS_API_KEY", "news-key");
     ("TOPIC", "ai,chips"); ("TABULA_KEY", "tl-key")].

Definition sample_state : dict :=
  dict_literal [("to_ts", PStr "2024-01-09T08:00:00"); ("cursor", PInt 7)].

(** Everything answers: two topics of three articles, the second of which
    has blank content. *)
Definition sample_env : env :=
  {| env_now := mk_datetime 2024 1 10 12 0 0;
     env_cwd := "/srv/connector";
     env_format_exc := fun e => "Traceback (most recent call last): ...";
     env_repr_float := fun _ => "0.5";
     env_connect := fun _ => Ok tt;
     env_execute := fun _ => Ok (SfCursor [[PStr "2024-01-09 07:00:00"]]);
     env_get := fun _ _ _ _ => Ok (ok_response sample_articles);
     env_post := fun _ _ _ _ _ =>
       Ok (ok_response (sample_document (repeat sample_score 8))) |}.

Definition connection_refused : exn :=
  mk_exn (ExceptionSubclass "OperationalError") "250001: could not connect".

(** The warehouse cannot be reached. *)
Definition outage_env : env :=
  {| env_now := env_now sample_env;
     env_cwd := env_cwd sample_env;
     env_format_exc := env_format_exc sample_env;
     env_repr_float := env_repr_float sample_env;
     env_connect := fun _ => Raise connection_refused;
     env_execute := env_execute sample_env;
     env_get := env_get sample_env;
     env_post := env_post sample_env |}.

(** The enrichment service answers with three values instead of eight. *)
Definition short_vector_env : env :=
  {| env_now := env_now sample_env;
     env_cwd := env_cwd sample_env;
     env_format_exc := env_format_exc sample_env;
     env_repr_float := env_repr_float sample_env;
     env_connect := env_connect sample_env;
     env_execute := env_execute sample_env;
     env_get := env_get sample_env;
     env_post := fun _ _ _ _ _ =>
       Ok (ok_response (sample_document (repeat sample_score 3))) |}.

Definition timed_out : exn :=
  mk_exn (ExceptionSubclass "ConnectionError") "HTTPSConnectionPool: timed out".

(** The source answers for the first topic and cannot be reached for the
    second. *)
Definition second_topic_down_env : env :=
  {| env_now := env_now sample_env;
     env_cwd := env_cwd sample_env;
     env_format_exc := env_format_exc sample_env;
     env_repr_float := env_repr_float sample_env;
     env_connect := env_connect sample_env;
     env_execute := env_execute sample_env;
     env_get := fun k u h p =>
       match k with
       | O => env_get sample_env k u h p
       | _ => Raise timed_out
       end;
     env_post := env_post sample_env |}.

Definition base_keys : gset string :=
  {[ "topic"; "source"; "published_at"; "author"; "title"; "description";
     "content"; "url" ]}.

(** What [sync_items] and [update] yield: checkpoints of the input state
    and upserts into [article] of records built by the loop. *)
Definition emitted_op (E : env) (conf : config) (state : dict) (o : operation)
    : Prop :=
  o = Checkpoint state \/
  exists d k topic j article,
    o = Upsert "article" d /\ record_of E k topic conf j article d.

(** The checkpoints among the events of a run. *)
Definition checkpoints (t : list event) : list operation :=
  List.filter is_checkpoint (ops t).

(** The request [sync_items] makes for [topic]. *)
Definition topic_request (headers params : dict) (topic : string)
    : string * dict * dict :=
  (BASE_API_URL, headers, <["q" := PStr topic]> params).

(** The run of [sync_items] for the [b]-th topic of [update]. *)
Definition topic_run (E : env) (headers params state : dict) (conf : config)
    (b : nat) (topic : string) : gen unit :=
  sync_items E b headers (<["q" := PStr topic]> params) state topic conf.


(** What it takes for the [try] to reach the assignments with [tl_data]:
    the key is configured, the content is a string that is not blank, the
    request is answered, the status is not 4xx or 5xx, and the body decodes
    to an object holding [data.document]. *)
Definition request_succeeds (E : env) (k j : nat) (conf : config) (data : dict)
    (tl_data : pyval) : Prop :=
  exists tl_key content r js d,
    conf !! "TABULA_KEY" = Some tl_key /\
    dict_get data "content" = PStr content /\
    strip content <> "" /\
    env_post E k j TL_URL
      (dict_literal [("Auth", PStr tl_key); ("accept", PStr "application/json")])
      (PDict [("config", TL_CONF); ("text", PStr (strip content))]) = Ok r /\
    (status_code r < 400 \/ 600 <= status_code r) /\
    json_body r = inl js /\
    getitem_str js "data" = Ok d /\
    getitem_str d "document" = Ok tl_data.

Definition raises_exceptions_only (E : env) (k : nat) : Prop :=
  forall j headers body e,
    env_post E k j TL_URL headers body = Raise e -> is_Exception e = true.



(** The ten enrichment fields, in the order the record receives them. *)
Definition enrichment_fields : list string :=
  ["blue"; "red"; "p0"; "p1"; "p2"; "p3"; "p4"; "p5"; "p6"; "p7"].

(** What the [i]-th of them is read from: [tl_data["blue"]],
    [tl_data["red"]], and [tl_data["p_values"][i - 2]] from the third on. *)
Definition enrichment_read (i : nat) (tl_data : pyval) : res pyval :=
  match i with
  | 0 => getitem_str tl_data "blue"
  | 1 => getitem_str tl_data "red"
  | S (S i') =>
      let? p_values := getitem_str tl_data "p_values" in
      getitem_int p_values i'
  end%nat.

(** [d] is [data] with the first [n] enrichment fields, each holding what
    it is read from in [tl_data], and nothing else changed. *)
Definition first_fields_written (n : nat) (tl_data : pyval) (data d : dict)
    : Prop :=
  dom d = dom data ∪ list_to_set (take n enrichment_fields) /\
  (forall i key, (i < n)%nat -> enrichment_fields !! i = Some key ->
     exists v, enrichment_read i tl_data = Ok v /\ d !! key = Some v) /\
  (forall key, key ∉ take n enrichment_fields -> d !! key = data !! key).

(** The record the Enrichment Stage makes of [data]: [data] itself when the
    request does not succeed; otherwise [data] with the enrichment fields
    that come before the first read that raises, all ten when none does. *)
Definition enriched_record (E : env) (k j : nat) (conf : config)
    (data d : dict) : Prop :=
  ((forall tl_data, ~ request_succeeds E k j conf data tl_data) /\ d = data) \/
  (exists tl_data (n : nat),
     request_succeeds E k j conf data tl_data /\
     (n <= 10)%nat /\
     first_fields_written n tl_data data d /\
     ((n < 10)%nat -> exists err, enrichment_read n tl_data = Raise err)).





(** ** Vocabulary of the further statements *)

(** The enrichment requests and the [fine] messages among the events of a
    run. *)
Definition posts (t : list event) : list (string * dict * pyval) :=
  omap (fun ev => match ev with EvPost u h b => Some (u, h, b) | _ => None end) t.

Definition fine_logs (t : list event) : list string :=
  omap (fun ev => match ev with EvLog Fine m => Some m | _ => None end) t.

(** The keys [get_last_published_at] reads, in the order it reads them. *)
Definition snowflake_keys : list string :=
  ["SNOWFLAKE_USER"; "SNOWFLAKE_PASSWORD"; "SNOWFLAKE_ACCOUNT";
   "SNOWFLAKE_WAREHOUSE"; "SNOWFLAKE_DATABASE"; "SNOWFLAKE_SCHEMA"].

(** [KeyError(key)] as a subscript raises it. *)
Definition key_error (key : string) : exn := mk_exn KeyError (py_repr_str key).

(** The headers and the body of the request to the enrichment service. *)
Definition tl_headers (tl_key : string) : dict :=
  dict_literal [("Auth", PStr tl_key); ("accept", PStr "application/json")].

Definition tl_body (content : string) : pyval :=
  PDict [("config", TL_CONF); ("text", PStr content)].

(** What a run may do: talk to the warehouse, ask the source, ask the
    enrichment service about a text that is neither empty nor padded with
    whitespace, log the warning of a caught exception, log the new state,
    and yield. *)
Definition run_event (E : env) (conf : config) (ev : event) : Prop :=
  match ev with
  | EvConnect _ | EvExecute _ | EvYield _ => True
  | EvGet u _ _ => u = BASE_API_URL
  | EvPost u h b =>
      exists tl_key content,
        conf !! "TABULA_KEY" = Some tl_key /\
        u = TL_URL /\ h = tl_headers tl_key /\ b = tl_body content /\
        content <> "" /\ strip content = content
  | EvLog Warning m => exists err, is_Exception err = true /\ m = tl_warning E err
  | EvLog Fine m => m = fine_message E (PStr (strftime (env_now E) TS_FORMAT))
  end.

(** [d[column]] holds [article[key]]. *)
Definition copies (article : pyval) (key : string) (d : dict) (column : string)
    : Prop :=
  exists v, getitem_str article key = Ok v /\ d !! column = Some v.

(** The base fields of a record are the topic and what the article holds. *)
Definition base_fields_of (topic : string) (article : pyval) (d : dict) : Prop :=
  d !! "topic" = Some (PStr topic) /\
  (exists source, getitem_str article "source" = Ok source /\
                  copies source "name" d "source") /\
  copies article "publishedAt" d "published_at" /\
  copies article "author" d "author" /\
  copies article "title" d "title" /\
  copies article "description" d "description" /\
  copies article "content" d "content" /\
  copies article "url" d "url".

(** The source's second article has no [source]. *)
Definition malformed_env : env :=
  {| env_now := env_now sample_env;
     env_cwd := env_cwd sample_env;
     env_format_exc := env_format_exc sample_env;
     env_repr_float := env_repr_float sample_env;
     env_connect := env_connect sample_env;
     env_execute := env_execute sample_env;
     env_get := fun _ _ _ _ =>
       Ok (ok_response
             (PDict [("status", PStr "ok");
                     ("articles",
                      PList [sample_article "bbc" "2024-01-09T01:00:00Z" "first text";
                             PDict [("title", PStr "A title")]])]));
     env_post := env_post sample_env |}.

Definition interrupted : exn :=
  mk_exn (BaseExceptionOnly "KeyboardInterrupt") "".

(** The run is interrupted while it waits for the source's second answer. *)
Definition interrupted_env : env :=
  {| env_now := env_now sample_env;
     env_cwd := env_cwd sample_env;
     env_format_exc := env_format_exc sample_env;
     env_repr_float := env_repr_float sample_env;
     env_connect := env_connect sample_env;
     env_execute := env_execute sample_env;
     env_get := fun k u h p =>
       match k with
       | O => env_get sample_env k u h p
       | _ => Raise interrupted
       end;
     env_post := env_post sample_env |}.

(** The source refuses the key: status 401 and an error document. *)
Definition refused_env : env :=
  {| env_now := env_now sample_env;
     env_cwd := env_cwd sample_env;
     env_format_exc := env_format_exc sample_env;
     env_repr_float := env_repr_float sample_env;
     env_connect := env_connect sample_env;
     env_execute := env_execute sample_env;
     env_get := fun _ _ _ _ =>
       Ok {| status_code := 401; reason := "Unauthorized";
             url := "https://newsapi.org/v2/everything";
             json_body :=
               inl (PDict [("status", PStr "error");
                           ("code", PStr "apiKeyInvalid");
                           ("message", PStr "Your API key is invalid.")]) |};
     env_post := env_post sample_env |}.

Definition none_not_iterable : exn :=
  mk_exn TypeError "'NoneType' object is not iterable".

(** The world [E] with the source answering as [get] says. *)
Definition with_get (E : env)
    (get : nat -> string -> dict -> dict -> res response) : env :=
  {| env_now := env_now E;
     env_cwd := env_cwd E;
     env_format_exc := env_format_exc E;
     env_repr_float := env_repr_float E;
     env_connect := env_connect E;
     env_execute := env_execute E;
     env_get := get;
     env_post := env_post E |}.

(** Two outcomes of a request that differ at most in the status, the reason
    and the address of the response. *)
Definition same_answer (a b : res response) : Prop :=
  match a, b with
  | Ok r, Ok r' => json_body r = json_body r'
  | Raise e, Raise e' => e = e'
  | _, _ => False
  end.

(** An upsert whose record lacks the last enrichment field. *)
Definition lacks_enrichment (o : operation) : bool :=
  match o with
  | Upsert _ d => bool_decide ("p7" ∉ dom d)
  | Checkpoint _ => false
  end.

(** The run is interrupted while it waits for the enrichment service. *)
Definition interrupted_post_env : env :=
  {| env_now := env_now sample_env;
     env_cwd := env_cwd sample_env;
     env_format_exc := env_format_exc sample_env;
     env_repr_float := env_repr_float sample_env;
     env_connect := env_connect sample_env;
     env_execute := env_execute sample_env;
     env_get := env_get sample_env;
     env_post := fun _ _ _ _ _ => Raise interrupted |}.

(** ** Timestamps as times *)

(** A datetime the runtime can hold: a day from 0001-01-01 to 9999-12-31,
    a second of the day and a microsecond of the second. *)
Definition valid_datetime (t : datetime) : bool :=
  (1 <=? dt_ordinal t) && (dt_ordinal t <=? MAXORDINAL)
  && (0 <=? dt_second t) && (dt_second t <? 86400)
  && (0 <=? dt_microsecond t) && (dt_microsecond t <? 1000000).

(** The order of two datetimes, to the second. *)
Definition datetime_compare (t1 t2 : datetime) : comparison :=
  match Z.compare (dt_ordinal t1) (dt_ordinal t2) with
  | Eq => Z.compare (dt_second t1) (dt_second t2)
  | c => c
  end.

(** The order of two calendar dates. *)
Definition date_compare (a b : Z * Z * Z) : comparison :=
  let '(y, m, d) := a in
  let '(y', m', d') := b in
  match Z.compare y y' with
  | Eq => match Z.compare m m' with
          | Eq => Z.compare d d'
          | c => c
          end
  | c => c
  end.

Definition date_in_range (a : Z * Z * Z) : bool :=
  let '(y, m, d) := a in
  (1 <=? y) && (y <=? 400) && (1 <=? m) && (m <=? 12) && (1 <=? d) && (d <=? 31).

(** [f] holds of the [count] integers from [start] on. *)
Fixpoint all_from (f : Z -> bool) (start : Z) (count : nat) : bool :=
  match count with
  | O => true
  | S count' => f start && all_from f (start + 1) count'
  end.

(** The dates of the days from [n] on are in range and follow the date
    [previous] in order, one after the other. *)
Fixpoint dates_increase (previous : Z * Z * Z) (n : Z) (count : nat) : bool :=
  match count with
  | O => true
  | S count' =>
      let date := ord2ymd n in
      date_in_range date
      && match date_compare previous date with Lt => true | _ => false end
      && dates_increase date (n + 1) count'
  end.

(** A field of [w] characters as [print] writes it: of length [w], and
    before the field of the next number. *)
Definition field_ok (print : Z -> string) (w : nat) (top : Z) (z : Z) : bool :=
  Nat.eqb (String.length (print z)) w
  && ((top <=? z + 1) || String.ltb (print z) (print (z + 1))).

(** [t.year]. *)
Definition dt_year (t : datetime) : Z := (ord2ymd (dt_ordinal t)).1.1.

(** The same time of day, [n] days earlier. *)
Definition days_before (n : Z) (t : datetime) : datetime :=
  {| dt_ordinal := dt_ordinal t - n;
     dt_second := dt_second t;
     dt_microsecond := dt_microsecond t |}.

(** The earlier of two datetimes, the first when they are the same to the
    second. *)
Definition earlier (t1 t2 : datetime) : datetime :=
  match datetime_compare t2 t1 with
  | Lt => t2
  | _ => t1
  end.

(** A run at noon of 2024-01-20, ten days after the sample one. *)
Definition later_env : env :=
  {| env_now := mk_datetime 2024 1 20 12 0 0;
     env_cwd := env_cwd sample_env;
     env_format_exc := env_format_exc sample_env;
     env_repr_float := env_repr_float sample_env;
     env_connect := env_connect sample_env;
     env_execute := env_execute sample_env;
     env_get := env_get sample_env;
     env_post := env_post sample_env |}.

(** * Properties of a run *)

(** ** Traces and the generator monad *)

Lemma ops_app (t1 t2 : list event) : ops (t1 ++ t2) = ops t1 ++ ops t2.
Proof. apply omap_app. Qed.

Lemma gets_app (t1 t2 : list event) : gets (t1 ++ t2) = gets t1 ++ gets t2.
Proof. apply omap_app. Qed.

Lemma warnings_app (t1 t2 : list event) :
  warnings (t1 ++ t2) = warnings t1 ++ warnings t2.
Proof. apply omap_app. Qed.

Lemma bind_fst {A B} (m : gen A) (k : A -> gen B) :
  (bind m k).1 = m.1 ++ match m.2 with Ok a => (k a).1 | Raise _ => [] end.
Proof.
  destruct m as [t [a|e]]; simpl.
  - destruct (k a); reflexivity.
  - symmetry; apply app_nil_r.
Qed.

Lemma bind_snd {A B} (m : gen A) (k : A -> gen B) :
  (bind m k).2 = match m.2 with Ok a => (k a).2 | Raise e => Raise e end.
Proof.
  destruct m as [t [a|e]]; simpl; [destruct (k a)|]; reflexivity.
Qed.

Lemma bind_Ok_inv {A B} (m : gen A) (k : A -> gen B) t b :
  bind m k = (t, Ok b) ->
  exists t1 a t2, m = (t1, Ok a) /\ k a = (t2, Ok b) /\ t = t1 ++ t2.
Proof.
  destruct m as [t1 [a|e]]; simpl; [|discriminate].
  destruct (k a) as [t2 r] eqn:Hk. intros [= <- ->]. eauto 6.
Qed.

Lemma bind_Raise_inv {A B} (m : gen A) (k : A -> gen B) t e :
  bind m k = (t, Raise e) ->
  m = (t, Raise e) \/
  exists t1 a t2, m = (t1, Ok a) /\ k a = (t2, Raise e) /\ t = t1 ++ t2.
Proof.
  destruct m as [t1 [a|e1]]; simpl.
  - destruct (k a) as [t2 r] eqn:Hk. intros [= <- ->]. right. eauto 6.
  - intros [= <- <-]. by left.
Qed.

Lemma lift_fst {A} (r : res A) : (lift r).1 = [].
Proof. reflexivity. Qed.

Lemma lift_snd {A} (r : res A) : (lift r).2 = r.
Proof. reflexivity. Qed.

(** ** The Enrichment Stage *)

Lemma assign_spec targets tl_data (data : dict) :
  exists n : nat,
    (n <= length targets)%nat /\
    dom (assign targets tl_data data).1
      = dom data ∪ list_to_set (take n targets.*1) /\
    match (assign targets tl_data data).2 with
    | Ok _ => n = length targets
    | Raise _ => (n < length targets)%nat
    end.
Proof.
  revert data. induction targets as [|[key rhs] rest IH]; intros data; simpl.
  - exists 0%nat. repeat split; [lia | set_solver].
  - destruct (rhs tl_data) as [v|err]; simpl.
    + destruct (IH (<[key:=v]> data)) as (n & Hn & Hd & Hr).
      exists (S n). rewrite Hd, dom_insert_L. simpl.
      repeat split; [lia | set_solver |].
      destruct (assign rest tl_data (<[key:=v]> data)).2; lia.
    + exists 0%nat. repeat split; [lia | set_solver | lia].
Qed.

(** [assign] only adds entries: what [data] held stays unless a target
    overwrites it. *)
Lemma assign_lookup_other targets tl_data (data : dict) key :
  key ∉ targets.*1 ->
  (assign targets tl_data data).1 !! key = data !! key.
Proof.
  revert data. induction targets as [|[k rhs] rest IH]; intros data Hk; simpl.
  - reflexivity.
  - apply not_elem_of_cons in Hk as [Hne Hk]. simpl in Hne.
    destruct (rhs tl_data) as [v|err]; simpl; [|reflexivity].
    rewrite IH by exact Hk. by rewrite lookup_insert_ne.
Qed.
Definition is_post (ev : event) : Prop :=
  match ev with EvPost _ _ _ => True | _ => False end.

Lemma bind_trace_Forall {A B} (P : event -> Prop) (m : gen A) (k : A -> gen B) :
  Forall P m.1 -> (forall a, Forall P (k a).1) -> Forall P (bind m k).1.
Proof.
  intros Hm Hk. rewrite bind_fst. apply Forall_app. split; [exact Hm|].
  destruct m.2; [apply Hk | constructor].
Qed.

Lemma posts_silent (t : list event) :
  Forall is_post t -> ops t = [] /\ gets t = [] /\ warnings t = [].
Proof.
  induction 1 as [|ev t Hev _ (Ho & Hg & Hw)]; [done|].
  destruct ev; try done.
Qed.

Lemma tl_request_trace E k j conf data :
  Forall is_post (tl_request E k j conf data).1.
Proof.
  unfold tl_request, requests_post.
  repeat (apply bind_trace_Forall; [|intros]);
    try (apply Forall_nil; done);
    try (destruct (String.eqb _ _); apply Forall_nil; done).
  repeat constructor.
Qed.

Lemma enrich_eq E k j conf data :
  enrich E k j conf data =
  let t := (tl_request E k j conf data).1 in
  let data' := (try_enrich E k j conf data).1 in
  match (try_enrich E k j conf data).2 with
  | Ok _ => (t, Ok data')
  | Raise err =>
      if is_Exception err
      then (t ++ [EvLog Warning (tl_warning E err)], Ok data')
      else (t, Raise err)
  end.
Proof.
  unfold enrich, try_enrich.
  destruct (tl_request E k j conf data) as [t [tl_data|err]]; cbn [fst snd].
  - generalize (assign enrichment_assignments tl_data data).
    intros [d [[]|err]]; cbn.
    + by rewrite !app_nil_r.
    + destruct (is_Exception err); cbn; [by rewrite app_nil_r|done].
  - cbn. destruct (is_Exception err); cbn; [by rewrite app_nil_r|done].
Qed.

Lemma try_enrich_spec E k j conf (data : dict) :
  exists n : nat,
    (n <= length enrichment_keys)%nat /\
    dom (try_enrich E k j conf data).1
      = dom data ∪ list_to_set (take n enrichment_keys) /\
    match (try_enrich E k j conf data).2 with
    | Ok _ => n = length enrichment_keys
    | Raise _ => (n < length enrichment_keys)%nat
    end.
Proof.
  unfold try_enrich.
  destruct (tl_request E k j conf data).2 as [tl_data|err].
  - unfold enrichment_keys. rewrite length_fmap. apply assign_spec.
  - exists 0%nat. simpl. repeat split; [lia | set_solver | lia].
Qed.

(** ** One topic *)

Lemma fetch_articles_fst E k headers params :
  (fetch_articles E k headers params).1 = [EvGet BASE_API_URL headers params].
Proof.
  unfold fetch_articles, requests_get. rewrite !bind_fst. simpl.
  destruct (env_get E k BASE_API_URL headers params) as [r|e]; simpl; [|done].
  by destruct (let? js := response_json r in py_get js "articles").
Qed.

Lemma enrich_silent E k j conf data :
  ops (enrich E k j conf data).1 = [] /\ gets (enrich E k j conf data).1 = [].
Proof.
  rewrite enrich_eq.
  destruct (posts_silent _ (tl_request_trace E k j conf data)) as (Ho & Hg & _).
  destruct (try_enrich E k j conf data).2 as [|err]; cbn [fst]; [done|].
  destruct (is_Exception err); cbn [fst]; [|done].
  by rewrite ops_app, gets_app, Ho, Hg.
Qed.

Lemma sync_article_spec E k topic conf j article :
  gets (sync_article E k topic conf j article).1 = [] /\
  match (sync_article E k topic conf j article).2 with
  | Ok _ => exists d, record_of E k topic conf j article d /\
                      ops (sync_article E k topic conf j article).1
                        = [Upsert "article" d]
  | Raise _ => ops (sync_article E k topic conf j article).1 = []
  end.
Proof.
  unfold sync_article, record_of.
  destruct (base_record topic article) as [data|e]; [|done].
  rewrite !bind_fst, !bind_snd, lift_fst, lift_snd. cbn [app].
  rewrite !bind_fst, !bind_snd.
  destruct (enrich_silent E k j conf data) as [Ho Hg].
  rewrite ops_app, gets_app, Ho, Hg.
  pose proof (enrich_eq E k j conf data) as He.
  destruct (enrich E k j conf data) as [t [d|e]]; cbn [fst snd app] in *.
  - split; [done|]. exists d. split; [|done]. exists data. split; [done|].
    destruct (try_enrich E k j conf data).2 as [|err]; [congruence|].
    destruct (is_Exception err); congruence.
  - done.
Qed.

Lemma article_loop_spec E k topic conf articles i :
  gets (for_loop i articles tt
          (fun j a _ => sync_article E k topic conf j a)).1 = [] /\
  exists records : list dict,
    ops (for_loop i articles tt
           (fun j a _ => sync_article E k topic conf j a)).1
      = map (Upsert "article") records /\
    (forall j d, records !! j = Some d ->
       exists article, articles !! j = Some article /\
                       record_of E k topic conf (i + j) article d) /\
    match (for_loop i articles tt
             (fun j a _ => sync_article E k topic conf j a)).2 with
    | Ok _ => length records = length articles
    | Raise _ => (length records < length articles)%nat
    end.
Proof.
  revert i. induction articles as [|a rest IH]; intros i.
  - split; [done|]. exists []. split; [done|]. split; [|done]. intros j d Hj. done.
  - cbn [for_loop]. rewrite bind_fst, bind_snd.
    destruct (sync_article_spec E k topic conf i a) as [Hg Ho].
    rewrite gets_app, ops_app, Hg.
    destruct (sync_article E k topic conf i a).2 as [[]|e].
    + destruct (IH (S i)) as (Hg' & records & Hops & Hrec & Hlen).
      destruct Ho as (d & Hd & Ho). split; [done|].
      exists (d :: records). rewrite Ho, Hops. split; [done|]. split.
      * intros [|j] d' Hj; simpl in Hj.
        -- injection Hj as <-. exists a. split; [done|]. by rewrite Nat.add_0_r.
        -- destruct (Hrec j d' Hj) as (art & Ha & Hr). exists art.
           split; [done|]. by replace (i + S j)%nat with (S i + j)%nat by lia.
      * destruct (for_loop (S i) rest tt _).2; simpl; lia.
    + split; [done|]. exists []. rewrite Ho. split; [done|].
      split; [|simpl; lia]. intros j d Hj. done.
Qed.

(** What [sync_items] does, by the outcome of its request. *)
Lemma sync_items_spec E k headers params state topic conf :
  gets (sync_items E k headers params state topic conf).1
    = [(BASE_API_URL, headers, params)] /\
  match (fetch_articles E k headers params).2 with
  | Raise e =>
      (sync_items E k headers params state topic conf).2 = Raise e /\
      ops (sync_items E k headers params state topic conf).1 = []
  | Ok articles =>
      exists records : list dict,
        (forall j d, records !! j = Some d ->
           exists article, articles !! j = Some article /\
                           record_of E k topic conf j article d) /\
        match (sync_items E k headers params state topic conf).2 with
        | Ok _ =>
            length records = length articles /\
            ops (sync_items E k headers params state topic conf).1
              = map (Upsert "article") records ++ [Checkpoint state]
        | Raise _ =>
            (length records < length articles)%nat /\
            ops (sync_items E k headers params state topic conf).1
              = map (Upsert "article") records
        end
  end.
Proof.
  unfold sync_items. rewrite !bind_fst, !bind_snd, fetch_articles_fst.
  destruct (fetch_articles E k headers params).2 as [articles|e].
  - rewrite !bind_fst, !bind_snd.
    destruct (article_loop_spec E k topic conf articles 0)
      as (Hg & records & Hops & Hrec & Hlen).
    rewrite !gets_app, !ops_app, Hg, Hops.
    destruct (for_loop 0 articles tt _).2 as [[]|e].
    + split; [done|]. exists records. split; [exact Hrec|]. by split.
    + split; [done|]. exists records. split; [exact Hrec|]. split; [done|].
      cbn. by rewrite app_nil_r.
  - done.
Qed.

(** ** The loop over the topics *)

Lemma topic_loop_spec E headers state conf (p0 : dict) topics :
  forall (i : nat) (p : dict),
    (forall topic, <["q" := PStr topic]> p = <["q" := PStr topic]> p0) ->
    exists traces : list (list event),
      (for_loop i topics p (topic_body E headers state conf)).1 = concat traces /\
      (length traces <= length topics)%nat /\
      (forall b tr, traces !! b = Some tr ->
         exists topic, topics !! b = Some topic /\
           tr = (sync_items E (i + b) headers (<["q" := PStr topic]> p0)
                   state topic conf).1 /\
           ((S b < length traces)%nat ->
            (sync_items E (i + b) headers (<["q" := PStr topic]> p0)
               state topic conf).2 = Ok tt)) /\
      match (for_loop i topics p (topic_body E headers state conf)).2 with
      | Ok p' =>
          length traces = length topics /\
          (forall b topic, topics !! b = Some topic ->
             (sync_items E (i + b) headers (<["q" := PStr topic]> p0)
                state topic conf).2 = Ok tt) /\
          p' !! "to" = p !! "to"
      | Raise e =>
          exists b topic,
            length traces = S b /\ topics !! b = Some topic /\
            (sync_items E (i + b) headers (<["q" := PStr topic]> p0)
               state topic conf).2 = Raise e
      end.
Proof.
  induction topics as [|topic rest IH]; intros i p Hp.
  - exists []. cbn. repeat split; try done.
  - cbn [for_loop]. unfold topic_body at 1 3. rewrite !bind_fst, !bind_snd.
    rewrite ?bind_fst, ?bind_snd, Hp.
    set (run := sync_items E i headers (<["q":=PStr topic]> p0) state topic conf).
    destruct (run.2) as [[]|e] eqn:Hrun.
    + cbn [ret fst snd]. rewrite app_nil_r.
      destruct (IH (S i) (<["q":=PStr topic]> p0)) as (traces & Ht & Hlen & Htr & Hout).
      { intros t. by rewrite insert_insert_eq. }
      exists (run.1 :: traces). split; [by rewrite Ht|]. split; [simpl; lia|]. split.
      * intros [|b] tr Hb; simpl in Hb.
        -- injection Hb as <-. exists topic. rewrite Nat.add_0_r. by repeat split.
        -- destruct (Htr b tr Hb) as (tp & Htp & Heq & Hok). exists tp.
           replace (i + S b)%nat with (S i + b)%nat by lia.
           repeat split; [done..|]. simpl. intros ?. apply Hok. lia.
      * destruct (for_loop (S i) rest _ _).2 as [p'|e].
        -- destruct Hout as (Hl & Hall & Hto). split; [simpl; lia|]. split.
           ++ intros [|b] tp Hb; simpl in Hb.
              ** injection Hb as <-. by rewrite Nat.add_0_r.
              ** replace (i + S b)%nat with (S i + b)%nat by lia. by apply Hall.
           ++ rewrite Hto, <- (Hp topic). by rewrite lookup_insert_ne.
        -- destruct Hout as (b & tp & Hl & Htp & Hr). exists (S b), tp.
           replace (i + S b)%nat with (S i + b)%nat by lia.
           repeat split; [simpl; lia | done | done].
    + cbn [fst snd]. exists [run.1]. cbn. rewrite !app_nil_r. split; [done|].
      split; [lia|]. split.
      * intros [|b] tr Hb; [|done]. injection Hb as <-. exists topic.
        rewrite Nat.add_0_r. split; [done|]. split; [done|]. simpl. lia.
      * exists 0%nat, topic. rewrite Nat.add_0_r. by repeat split.
Qed.

(** ** The watermark lookup *)

Lemma db_events_silent (t : list event) :
  Forall is_db_event t -> ops t = [] /\ gets t = [].
Proof.
  induction 1 as [|ev t Hev _ (Ho & Hg)]; [done|]. destruct ev; try done.
Qed.

(** Whatever the warehouse answers, the [try] ends with [result] still
    [None]. *)
Lemma max_published_at_eq E :
  max_published_at E = ([EvExecute (sql_query E)], Ok DbNone).
Proof.
  unfold max_published_at, cursor_execute, sql_query.
  generalize ("select max(published_at) from "
    +:+ (if str_in "/Users/chris" (env_cwd E) then "tester.article" else "article")).
  intros q. cbn. destruct (env_execute E q) as [[rows|]|e]; reflexivity.
Qed.

Lemma dict_getitem_Some {V} (d : gmap string V) k v :
  d !! k = Some v -> dict_getitem d k = Ok v.
Proof. unfold dict_getitem. by intros ->. Qed.

Lemma dict_getitem_None {V} (d : gmap string V) k :
  d !! k = None -> dict_getitem d k = Raise (mk_exn KeyError (py_repr_str k)).
Proof. unfold dict_getitem. by intros ->. Qed.

Lemma bind_lift_Ok {A B} (a : A) (k : A -> gen B) : bind (lift (Ok a)) k = k a.
Proof. unfold bind, lift. by destruct (k a). Qed.

Lemma bind_lift_Raise {A B} (e : exn) (k : A -> gen B) :
  bind (lift (Raise e)) k = ([], Raise e).
Proof. reflexivity. Qed.

Lemma get_last_published_at_connected E (conf : config)
    user password account warehouse database schema_name :
  conf !! "SNOWFLAKE_USER" = Some user ->
  conf !! "SNOWFLAKE_PASSWORD" = Some password ->
  conf !! "SNOWFLAKE_ACCOUNT" = Some account ->
  conf !! "SNOWFLAKE_WAREHOUSE" = Some warehouse ->
  conf !! "SNOWFLAKE_DATABASE" = Some database ->
  conf !! "SNOWFLAKE_SCHEMA" = Some schema_name ->
  get_last_published_at E conf =
    let kwargs := connect_kwargs user password account warehouse database schema_name in
    match env_connect E kwargs with
    | Ok _ => ([EvConnect kwargs; EvExecute (sql_query E)], Ok PNone)
    | Raise e => ([EvConnect kwargs], Raise e)
    end.
Proof.
  intros H1 H2 H3 H4 H5 H6. unfold get_last_published_at.
  rewrite (dict_getitem_Some _ _ _ H1), (dict_getitem_Some _ _ _ H2),
    (dict_getitem_Some _ _ _ H3), (dict_getitem_Some _ _ _ H4),
    (dict_getitem_Some _ _ _ H5), (dict_getitem_Some _ _ _ H6).
  rewrite !bind_lift_Ok, max_published_at_eq.
  fold (connect_kwargs user password account warehouse database schema_name).
  generalize (connect_kwargs user password account warehouse database schema_name).
  intros kwargs. unfold snowflake_connect, emit, lift, ret, bind.
  destruct (env_connect E kwargs) as [[]|e]; reflexivity.
Qed.

Lemma get_last_published_at_trace E conf :
  Forall is_db_event (get_last_published_at E conf).1.
Proof.
  unfold get_last_published_at, snowflake_connect.
  repeat (apply bind_trace_Forall; [|intros]);
    try (apply Forall_nil; done).
  - repeat constructor.
  - rewrite max_published_at_eq. repeat constructor.
  - destruct (negb _); [apply Forall_nil; done|].
    apply bind_trace_Forall; [|intros]; apply Forall_nil; done.
Qed.

Lemma get_last_published_at_None E conf v :
  (get_last_published_at E conf).2 = Ok v -> v = PNone.
Proof.
  unfold get_last_published_at.
  repeat (match goal with
          | |- context [dict_getitem ?d ?k] =>
              destruct (dict_getitem d k);
              [rewrite bind_lift_Ok | by rewrite bind_lift_Raise]
          end).
  rewrite bind_snd. destruct (snowflake_connect E _).2; [|done].
  rewrite bind_snd, max_published_at_eq. cbn. congruence.
Qed.

(** ** The whole run *)

Lemma query_window_end E state lpa qs qe :
  query_window E state lpa = Ok (qs, qe) ->
  qe = strftime (env_now E) TS_FORMAT.
Proof.
  unfold query_window.
  destruct (datetime_sub (env_now E) INIT_DELTA) as [safety|e]; [|done]. cbn.
  destruct (py_min _) as [m|e]; [|done]. cbn. congruence.
Qed.

Lemma api_params_lookup qs qe ps :
  api_params qs qe ps !! "from" = Some qs /\
  api_params qs qe ps !! "to" = Some (PStr qe) /\
  api_params qs qe ps !! "page" = Some (PStr "1") /\
  api_params qs qe ps !! "language" = Some (PStr "en") /\
  api_params qs qe ps !! "sortBy" = Some (PStr "publishedAt") /\
  api_params qs qe ps !! "pageSize" = Some (PStr ps) /\
  dom (api_params qs qe ps)
    = {[ "from"; "to"; "page"; "language"; "sortBy"; "pageSize" ]}.
Proof.
  unfold api_params, dict_literal. cbn [foldl fst snd].
  repeat split; by simplify_map_eq.
Qed.

Lemma try_except_Ok {A} (t : list event) (a : A) c h :
  try_except (t, Ok a) c h = (t, Ok a).
Proof. reflexivity. Qed.

(** A run whose lookup, window and configuration reads succeed is the loop
    over the topics followed by the final checkpoint, or by the wrapped
    error. *)
Lemma update_connected E (conf : config) state t0 qs qe ps key topic_list :
  get_last_published_at E conf = (t0, Ok PNone) ->
  query_window E state PNone = Ok (qs, qe) ->
  conf !! "PAGE_SIZE" = Some ps ->
  conf !! "NEWS_API_KEY" = Some key ->
  conf !! "TOPIC" = Some topic_list ->
  update E conf state =
    match sync_topics E (api_headers key) (api_params qs qe ps) state
            (split "," topic_list) conf with
    | (t, Ok _) =>
        (t0 ++ t ++ [EvLog Fine (fine_message E (PStr qe));
                     EvYield (Checkpoint {[ "to_ts" := PStr qe ]})], Ok tt)
    | (t, Raise e) =>
        (t0 ++ t, Raise (if is_Exception e then wrapped_error E e else e))
    end.
Proof.
  intros Hl Hw Hp Hk Ht. unfold update. rewrite Hl. unfold bind at 1.
  rewrite Hw, bind_lift_Ok, (dict_getitem_Some _ _ _ Hp), bind_lift_Ok,
    (dict_getitem_Some _ _ _ Hk), bind_lift_Ok, (dict_getitem_Some _ _ _ Ht),
    bind_lift_Ok.
  destruct (topic_loop_spec E (api_headers key) state conf (api_params qs qe ps)
              (split "," topic_list) 0 (api_params qs qe ps) (fun _ => eq_refl))
    as (traces & _ & _ & _ & Hout).
  fold (sync_topics E (api_headers key) (api_params qs qe ps) state
          (split "," topic_list) conf) in Hout.
  destruct (sync_topics E (api_headers key) (api_params qs qe ps) state
              (split "," topic_list) conf) as [t [p'|e]]; cbn [snd] in Hout.
  - destruct Hout as (_ & _ & Hto).
    destruct (api_params_lookup qs qe ps) as (_ & Hto' & _). rewrite Hto' in Hto.
    unfold bind at 2. rewrite (dict_getitem_Some _ _ _ Hto), bind_lift_Ok.
    unfold log_fine, emit, ret, bind, try_except, yield, emit.
    unfold dict_literal. cbn [foldl fst snd]. rewrite insert_empty.
    unfold fine_message. by rewrite <- !app_assoc.
  - unfold bind at 2. unfold try_except, raise, bind.
    destruct (is_Exception e); by rewrite ?app_nil_r.
Qed.

(** A run either stops before the loop over the topics, having yielded
    nothing and requested nothing, or reaches it with the window resolved
    and the three configuration entries read. *)
Lemma update_cases E (conf : config) state :
  (ops (update E conf state).1 = [] /\ gets (update E conf state).1 = [] /\
   exists e, (update E conf state).2 = Raise e) \/
  (exists t0 qs ps key topic_list,
     get_last_published_at E conf = (t0, Ok PNone) /\
     query_window E state PNone = Ok (qs, strftime (env_now E) TS_FORMAT) /\
     conf !! "PAGE_SIZE" = Some ps /\
     conf !! "NEWS_API_KEY" = Some key /\
     conf !! "TOPIC" = Some topic_list).
Proof.
  pose proof (get_last_published_at_trace E conf) as Htr.
  pose proof (get_last_published_at_None E conf) as Hnone.
  destruct (get_last_published_at E conf) as [t0 [v|e]] eqn:Hl; cbn [fst snd] in *.
  2:{ left. unfold update. rewrite Hl. cbn [bind fst snd].
      destruct (db_events_silent _ Htr) as [Ho Hg]. eauto. }
  rewrite (Hnone v eq_refl) in *. clear Hnone.
  destruct (db_events_silent _ Htr) as [Ho Hg].
  assert (forall e, update E conf state = (t0, Raise e) ->
            ops (update E conf state).1 = [] /\
            gets (update E conf state).1 = [] /\
            exists e, (update E conf state).2 = Raise e) as Hstop.
  { intros e ->. eauto. }
  destruct (query_window E state PNone) as [[qs qe]|e] eqn:Hw.
  2:{ left. apply (Hstop e). unfold update. rewrite Hl. unfold bind at 1.
      rewrite Hw, bind_lift_Raise. by rewrite app_nil_r. }
  pose proof (query_window_end _ _ _ _ _ Hw) as ->.
  destruct (conf !! "PAGE_SIZE") as [ps|] eqn:Hp.
  2:{ left. eapply Hstop. unfold update. rewrite Hl. unfold bind at 1.
      rewrite Hw, bind_lift_Ok, (dict_getitem_None _ _ Hp), bind_lift_Raise.
      by rewrite app_nil_r. }
  destruct (conf !! "NEWS_API_KEY") as [key|] eqn:Hk.
  2:{ left. eapply Hstop. unfold update. rewrite Hl. unfold bind at 1.
      rewrite Hw, bind_lift_Ok, (dict_getitem_Some _ _ _ Hp), bind_lift_Ok,
        (dict_getitem_None _ _ Hk), bind_lift_Raise.
      by rewrite app_nil_r. }
  destruct (conf !! "TOPIC") as [topic_list|] eqn:Ht.
  2:{ left. eapply Hstop. unfold update. rewrite Hl. unfold bind at 1.
      rewrite Hw, bind_lift_Ok, (dict_getitem_Some _ _ _ Hp), bind_lift_Ok,
        (dict_getitem_Some _ _ _ Hk), bind_lift_Ok,
        (dict_getitem_None _ _ Ht), bind_lift_Raise.
      cbn [try_except is_Exception exn_class raise bind fst snd].
      by rewrite !app_nil_r. }
  right. eauto 10.
Qed.

(** C9: once the connection is open, [get_last_published_at] returns [None]
    whatever the table holds: the value [execute] returns is a cursor (or
    [None]), subscripting it raises a [TypeError], the bare [except]
    swallows it and [result] stays [None]. *)
Theorem get_last_published_at_returns_None E (conf : config)
    user password account warehouse database schema_name :
  conf !! "SNOWFLAKE_USER" = Some user ->
  conf !! "SNOWFLAKE_PASSWORD" = Some password ->
  conf !! "SNOWFLAKE_ACCOUNT" = Some account ->
  conf !! "SNOWFLAKE_WAREHOUSE" = Some warehouse ->
  conf !! "SNOWFLAKE_DATABASE" = Some database ->
  conf !! "SNOWFLAKE_SCHEMA" = Some schema_name ->
  env_connect E
    (connect_kwargs user password account warehouse database schema_name) = Ok tt ->
  get_last_published_at E conf =
    ([EvConnect
        (connect_kwargs user password account warehouse database schema_name);
      EvExecute (sql_query E)], Ok PNone) /\
  (forall o, env_execute E (sql_query E) = Ok o ->
     exists e, sf_getitem o 0 = Raise e /\ exn_class e = TypeError) /\
  max_published_at E = ([EvExecute (sql_query E)], Ok DbNone).
Proof.
  intros H1 H2 H3 H4 H5 H6 Hc.
  rewrite (get_last_published_at_connected E conf _ _ _ _ _ _ H1 H2 H3 H4 H5 H6).
  cbn zeta. rewrite Hc. split; [done|]. split; [|apply max_published_at_eq].
  intros [rows|] _; eexists; (split; [reflexivity|done]).
Qed.

Lemma get_last_published_at_returns_None_witness :
  get_last_published_at sample_env sample_conf =
    ([EvConnect (connect_kwargs "user" "secret" "acct" "wh" "db" "public");
      EvExecute "select max(published_at) from article"], Ok PNone).
Proof.
  apply (get_last_published_at_returns_None sample_env sample_conf
           "user" "secret" "acct" "wh" "db" "public"); reflexivity.
Defined.

(** C5, the failing input: the six settings are there and the warehouse
    refuses the connection.  The lookup raises the error of [connect] and
    the run ends with it, where the policy asks for a null candidate and a
    run that goes on. *)
Lemma connectivity_failure_aborts_run :
  get_last_published_at outage_env sample_conf =
    ([EvConnect (connect_kwargs "user" "secret" "acct" "wh" "db" "public")],
     Raise connection_refused) /\
  update outage_env sample_conf sample_state =
    ([EvConnect (connect_kwargs "user" "secret" "acct" "wh" "db" "public")],
     Raise connection_refused).
Proof. split; reflexivity. Qed.

(** C5: here the code departs from the policy.  The connection is opened
    before the [try] of the lookup, and [update] calls the lookup before
    its own [try]: when opening the connection raises, whatever the error,
    the lookup raises it without having sent the query, and the run ends
    with that same error, unwrapped, having requested and yielded
    nothing. *)
Theorem connection_failure_ends_the_run E (conf : config) (state : dict)
    user password account warehouse database schema_name (e : exn) :
  conf !! "SNOWFLAKE_USER" = Some user ->
  conf !! "SNOWFLAKE_PASSWORD" = Some password ->
  conf !! "SNOWFLAKE_ACCOUNT" = Some account ->
  conf !! "SNOWFLAKE_WAREHOUSE" = Some warehouse ->
  conf !! "SNOWFLAKE_DATABASE" = Some database ->
  conf !! "SNOWFLAKE_SCHEMA" = Some schema_name ->
  env_connect E
    (connect_kwargs user password account warehouse database schema_name)
    = Raise e ->
  get_last_published_at E conf
    = ([EvConnect
          (connect_kwargs user password account warehouse database schema_name)],
       Raise e) /\
  update E conf state
    = ([EvConnect
          (connect_kwargs user password account warehouse database schema_name)],
       Raise e).
Proof.
  intros H1 H2 H3 H4 H5 H6 Hc.
  pose proof (get_last_published_at_connected E conf _ _ _ _ _ _
                H1 H2 H3 H4 H5 H6) as Hl. cbn zeta in Hl.
  rewrite Hc in Hl. split; [done|]. unfold update. by rewrite Hl.
Qed.

Lemma connection_failure_ends_the_run_witness :
  get_last_published_at outage_env sample_conf
    = ([EvConnect (connect_kwargs "user" "secret" "acct" "wh" "db" "public")],
       Raise connection_refused) /\
  update outage_env sample_conf sample_state
    = ([EvConnect (connect_kwargs "user" "secret" "acct" "wh" "db" "public")],
       Raise connection_refused).
Proof.
  apply (connection_failure_ends_the_run outage_env sample_conf sample_state
           "user" "secret" "acct" "wh" "db" "public" connection_refused);
    reflexivity.
Defined.

(** C6: a run that completes ends with the final checkpoint, whose state is
    the one-entry mapping from [to_ts] to [query_end]; nothing of the input
    state is carried over. *)
Theorem final_checkpoint_replaces_state E (conf : config) (state : dict) :
  (update E conf state).2 = Ok tt ->
  exists earlier new_state,
    ops (update E conf state).1 = earlier ++ [Checkpoint new_state] /\
    new_state = {[ "to_ts" := PStr (strftime (env_now E) TS_FORMAT) ]} /\
    dom new_state = {[ "to_ts" ]}.
Proof.
  intros Hok.
  destruct (update_cases E conf state) as [(_ & _ & e & He)|Hrun]; [congruence|].
  destruct Hrun as (t0 & qs & ps & key & topic_list & Hl & Hw & Hp & Hk & Ht).
  rewrite (update_connected E conf state _ _ _ _ _ _ Hl Hw Hp Hk Ht) in Hok |- *.
  destruct (sync_topics E (api_headers key) _ state (split "," topic_list) conf)
    as [t [p'|e]]; [|done].
  cbn [fst]. exists (ops t0 ++ ops t), {[ "to_ts" := PStr (strftime (env_now E) TS_FORMAT) ]}.
  split; [|split; [done|apply dom_singleton_L]].
  rewrite !ops_app. cbn. by rewrite app_assoc.
Qed.

Lemma final_checkpoint_replaces_state_witness :
  exists earlier new_state,
    ops (update sample_env sample_conf sample_state).1
      = earlier ++ [Checkpoint new_state] /\
    new_state = {[ "to_ts" := PStr "2024-01-10T12:00:00" ]} /\
    dom new_state = {[ "to_ts" ]}.
Proof.
  apply (final_checkpoint_replaces_state sample_env sample_conf sample_state).
  vm_compute. reflexivity.
Defined.

(** ** What a run emits *)

Lemma ops_concat (traces : list (list event)) :
  ops (concat traces) = concat (map ops traces).
Proof.
  induction traces as [|t traces IH]; [done|]. cbn. by rewrite ops_app, IH.
Qed.

Lemma gets_concat (traces : list (list event)) :
  gets (concat traces) = concat (map gets traces).
Proof.
  induction traces as [|t traces IH]; [done|]. cbn. by rewrite gets_app, IH.
Qed.

Lemma base_record_dom topic article data :
  base_record topic article = Ok data ->
  dom data = base_keys /\ data !! "topic" = Some (PStr topic) /\
  data !! "content" = match getitem_str article "content" with
                      | Ok v => Some v
                      | Raise _ => None
                      end.
Proof.
  unfold base_record.
  repeat (match goal with
          | |- context [res_bind ?r _] => destruct r; cbn [res_bind]; [|done]
          end).
  intros [= <-]. unfold dict_literal. cbn [foldl fst snd].
  repeat split; by simplify_map_eq.
Qed.

Lemma try_enrich_lookup_other E k j conf (data : dict) key :
  key ∉ enrichment_keys ->
  (try_enrich E k j conf data).1 !! key = data !! key.
Proof.
  intros Hk. unfold try_enrich.
  destruct (tl_request E k j conf data).2; [|done].
  by apply assign_lookup_other.
Qed.

Lemma sync_items_ops E k headers params state topic conf :
  Forall (emitted_op E conf state)
    (ops (sync_items E k headers params state topic conf).1).
Proof.
  destruct (sync_items_spec E k headers params state topic conf) as [_ H].
  destruct (fetch_articles E k headers params).2 as [articles|e].
  - destruct H as (records & Hrec & H).
    assert (Forall (emitted_op E conf state) (map (Upsert "article") records)) as Hup.
    { apply Forall_fmap, Forall_lookup. intros j d Hj.
      destruct (Hrec j d Hj) as (article & _ & Hr). right. eauto 10. }
    destruct (sync_items E k headers params state topic conf).2;
      destruct H as [_ ->]; [|done].
    apply Forall_app. split; [done|]. constructor; [by left|constructor].
  - destruct H as [_ ->]. constructor.
Qed.

Lemma sync_topics_ops E headers params state topics conf :
  Forall (emitted_op E conf state)
    (ops (sync_topics E headers params state topics conf).1).
Proof.
  destruct (topic_loop_spec E headers state conf params topics 0 params
              (fun _ => eq_refl)) as (traces & Ht & _ & Htr & _).
  unfold sync_topics. rewrite Ht, ops_concat.
  apply Forall_concat, Forall_fmap, Forall_lookup. intros b tr Hb.
  destruct (Htr b tr Hb) as (topic & _ & -> & _). apply sync_items_ops.
Qed.

Lemma update_ops E (conf : config) state :
  Forall (fun o => emitted_op E conf state o \/
                   o = Checkpoint {[ "to_ts" := PStr (strftime (env_now E) TS_FORMAT) ]})
    (ops (update E conf state).1).
Proof.
  destruct (update_cases E conf state) as [(-> & _)|Hrun]; [constructor|].
  destruct Hrun as (t0 & qs & ps & key & topic_list & Hl & Hw & Hp & Hk & Ht).
  rewrite (update_connected E conf state _ _ _ _ _ _ Hl Hw Hp Hk Ht).
  pose proof (sync_topics_ops E (api_headers key)
                (api_params qs (strftime (env_now E) TS_FORMAT) ps) state
                (split "," topic_list) conf) as Hloop.
  pose proof (get_last_published_at_trace E conf) as Hdb.
  rewrite Hl in Hdb. apply db_events_silent in Hdb as [Ho _].
  destruct (sync_topics E (api_headers key) _ state (split "," topic_list) conf)
    as [t [p'|e]]; cbn [fst] in *; rewrite !ops_app, Ho; cbn [app].
  - apply Forall_app. split.
    + eapply Forall_impl; [exact Hloop|]. by left.
    + cbn. constructor; [by right|constructor].
  - eapply Forall_impl; [exact Hloop|]. by left.
Qed.

Lemma record_of_keys E k topic conf j article d :
  record_of E k topic conf j article d ->
  exists n : nat,
    (n <= length enrichment_keys)%nat /\
    dom d = base_keys ∪ list_to_set (take n enrichment_keys) /\
    d !! "topic" = Some (PStr topic).
Proof.
  intros (data & Hb & ->).
  destruct (base_record_dom _ _ _ Hb) as (Hdom & Htopic & _).
  destruct (try_enrich_spec E k j conf data) as (n & Hn & Hd & _).
  exists n. rewrite Hd, Hdom. split; [done|]. split; [done|].
  rewrite try_enrich_lookup_other; [done|]. vm_compute. set_solver.
Qed.

(** C10: every upsert of a run targets [article] and its record holds the
    seven base content fields and [topic]; the schema declares one table,
    [article], keyed by [(source, published_at)], whose columns are the
    seven base fields and the ten enrichment fields, [topic] not among
    them. *)
Theorem upserts_and_schema E (conf : config) (state : dict) :
  Forall (fun o => match o with
                   | Upsert tb d =>
                       tb = "article" /\ base_keys ⊆ dom d /\ is_Some (d !! "topic")
                   | Checkpoint _ => True
                   end)
    (ops (update E conf state).1) /\
  exists td,
    schema conf = [td] /\
    table td = "article" /\
    primary_key td = ["source"; "published_at"] /\
    (columns td).*1 =
      ["source"; "published_at"; "author"; "title"; "description"; "content";
       "url"; "blue"; "red"; "p0"; "p1"; "p2"; "p3"; "p4"; "p5"; "p6"; "p7"] /\
    "topic" ∉ (columns td).*1.
Proof.
  split.
  - eapply Forall_impl; [apply update_ops|]. intros o [[->|H]| ->]; try done.
    destruct H as (d & k & topic & j & article & -> & Hr).
    destruct (record_of_keys _ _ _ _ _ _ _ Hr) as (n & _ & Hd & Ht).
    split; [done|]. rewrite Hd, Ht. split; [set_solver|eauto].
  - eexists. split; [reflexivity|]. cbn. repeat split. set_solver.
Qed.

(** ** The loop over the topics, topic by topic *)

(** [str.split] gives at least one part. *)
Lemma split_not_nil sep s : split sep s <> [].
Proof.
  destruct s as [|c s]; cbn; [done|].
  destruct (Ascii.eqb c sep); [done|]. by destruct (split sep s).
Qed.

Lemma checkpoints_app (t1 t2 : list event) :
  checkpoints (t1 ++ t2) = checkpoints t1 ++ checkpoints t2.
Proof. unfold checkpoints. by rewrite ops_app, List.filter_app. Qed.

Lemma sync_topics_spec E headers params state topics conf :
  exists m : nat,
    (m <= length topics)%nat /\
    (sync_topics E headers params state topics conf).1
      = concat (imap (fun b topic => (topic_run E headers params state conf b topic).1)
                  (take m topics)) /\
    (forall b topic, topics !! b = Some topic -> (S b < m)%nat ->
       (topic_run E headers params state conf b topic).2 = Ok tt) /\
    match (sync_topics E headers params state topics conf).2 with
    | Ok p' =>
        m = length topics /\
        (forall b topic, topics !! b = Some topic ->
           (topic_run E headers params state conf b topic).2 = Ok tt)
    | Raise e =>
        exists b topic,
          m = S b /\ topics !! b = Some topic /\
          (topic_run E headers params state conf b topic).2 = Raise e
    end.
Proof.
  destruct (topic_loop_spec E headers state conf params topics 0 params
              (fun _ => eq_refl)) as (traces & Ht & Hlen & Htr & Hout).
  fold (sync_topics E headers params state topics conf) in Ht, Hout.
  exists (length traces). split; [done|]. split; [|split].
  - rewrite Ht. f_equal. apply list_eq. intros b.
    rewrite list_lookup_imap. destruct (traces !! b) as [tr|] eqn:Hb.
    + destruct (Htr b tr Hb) as (topic & Htopic & -> & _).
      rewrite lookup_take_lt by (by eapply lookup_lt_Some).
      by rewrite Htopic.
    + apply lookup_ge_None in Hb. by rewrite lookup_take_ge.
  - intros b topic Htopic Hb.
    destruct (lookup_lt_is_Some_2 traces b) as [tr Htr']; [lia|].
    destruct (Htr b tr Htr') as (topic' & Htopic' & _ & Hok).
    assert (topic' = topic) as -> by congruence. by apply Hok.
  - destruct (sync_topics E headers params state topics conf).2 as [p'|e].
    + destruct Hout as (Hl & Hall & _). split; [done|]. exact Hall.
    + exact Hout.
Qed.

Lemma concat_imap_singleton {A B} (g : nat -> A -> B) (l : list A) :
  concat (imap (fun b x => [g b x]) l) = imap g l.
Proof.
  revert g. induction l as [|x l IH]; intros g; [done|].
  rewrite !imap_cons. cbn. f_equal. apply (IH (g ∘ S)).
Qed.

Lemma topic_run_gets E headers params state conf b topic :
  gets (topic_run E headers params state conf b topic).1
    = [topic_request headers params topic].
Proof. unfold topic_run. by destruct (sync_items_spec E b headers
         (<["q":=PStr topic]> params) state topic conf) as [-> _]. Qed.

(** The requests of the loop: one for each topic it reaches, in order. *)
Lemma topic_runs_gets E headers params state conf (l : list string) :
  gets (concat (imap (fun b topic => (topic_run E headers params state conf b topic).1) l))
    = topic_request headers params <$> l.
Proof.
  rewrite gets_concat. change (map gets ?x) with (gets <$> x).
  rewrite fmap_imap.
  rewrite (imap_ext _ (fun _ topic => [topic_request headers params topic])).
  - rewrite concat_imap_singleton.
    apply (imap_const (topic_request headers params)).
  - intros b topic _. apply topic_run_gets.
Qed.

Lemma topic_run_Ok_ops E headers params state conf b topic :
  (topic_run E headers params state conf b topic).2 = Ok tt ->
  exists records,
    ops (topic_run E headers params state conf b topic).1
      = map (Upsert "article") records ++ [Checkpoint state].
Proof.
  unfold topic_run.
  destruct (sync_items_spec E b headers (<["q":=PStr topic]> params)
              state topic conf) as [_ H].
  intros Hok. rewrite Hok in H.
  destruct (fetch_articles E b headers _).2 as [articles|e].
  - destruct H as (records & _ & _ & ->). eauto.
  - by destruct H.
Qed.

Lemma upserts_no_checkpoint (records : list dict) :
  List.filter is_checkpoint (map (Upsert "article") records) = [].
Proof. induction records; [done|]. by cbn. Qed.

(** The checkpoints of topics that all complete: one each, of the input
    state. *)
Lemma completed_checkpoints (state : dict) (f : nat -> string -> gen unit)
    (l : list string) :
  (forall b topic, l !! b = Some topic ->
     exists records,
       ops (f b topic).1 = map (Upsert "article") records ++ [Checkpoint state]) ->
  checkpoints (concat (imap (fun b topic => (f b topic).1) l))
    = repeat (Checkpoint state) (length l).
Proof.
  revert f. induction l as [|topic l IH]; intros f Hf; [done|].
  rewrite imap_cons. cbn [concat]. rewrite checkpoints_app. cbn [length repeat].
  destruct (Hf 0%nat topic eq_refl) as (records & Hr).
  unfold checkpoints at 1. rewrite Hr, List.filter_app, upserts_no_checkpoint.
  cbn. f_equal. apply (IH (f ∘ S)). intros b t Hb. by apply (Hf (S b)).
Qed.

Lemma completed_blocks (state : dict) (f : nat -> string -> gen unit)
    (l : list string) :
  (forall b topic, l !! b = Some topic ->
     exists records,
       ops (f b topic).1 = map (Upsert "article") records ++ [Checkpoint state]) ->
  exists blocks : list (list dict),
    length blocks = length l /\
    ops (concat (imap (fun b topic => (f b topic).1) l))
      = concat (map (fun records =>
                       map (Upsert "article") records ++ [Checkpoint state]) blocks).
Proof.
  revert f. induction l as [|topic l IH]; intros f Hf.
  - by exists [].
  - destruct (Hf 0%nat topic eq_refl) as (records & Hr).
    destruct (IH (f ∘ S)) as (blocks & Hlen & Hops).
    { intros b t Hb. by apply (Hf (S b)). }
    exists (records :: blocks). split; [cbn; lia|].
    rewrite imap_cons. cbn [concat map]. rewrite ops_app, Hr. f_equal. exact Hops.
Qed.

(** C7: a call of [sync_items] that completes has yielded its upserts and
    then one checkpoint carrying the state it was given; [update] gives it
    its own input state, so a run that completes has yielded, topic after
    topic, the upserts of the topic followed by a checkpoint of the
    unchanged input state, before the final checkpoint. *)
Theorem intermediate_checkpoint_carries_input_state E (conf : config) (state : dict) :
  (forall k headers params topic,
     (sync_items E k headers params state topic conf).2 = Ok tt ->
     exists records,
       ops (sync_items E k headers params state topic conf).1
         = map (Upsert "article") records ++ [Checkpoint state]) /\
  ((update E conf state).2 = Ok tt ->
   exists blocks : list (list dict),
     length blocks = length (split "," (default "" (conf !! "TOPIC"))) /\
     ops (update E conf state).1
       = concat (map (fun records =>
                        map (Upsert "article") records ++ [Checkpoint state]) blocks)
         ++ [Checkpoint {[ "to_ts" := PStr (strftime (env_now E) TS_FORMAT) ]}]).
Proof.
  split.
  - intros k headers params topic Hok.
    destruct (sync_items_spec E k headers params state topic conf) as [_ H].
    rewrite Hok in H. destruct (fetch_articles E k headers params).2.
    + destruct H as (records & _ & _ & ->). eauto.
    + by destruct H.
  - intros Hok.
    destruct (update_cases E conf state) as [(_ & _ & e & He)|Hrun]; [congruence|].
    destruct Hrun as (t0 & qs & ps & key & topic_list & Hl & Hw & Hp & Hk & Ht).
    rewrite Ht. cbn [default].
    rewrite (update_connected E conf state _ _ _ _ _ _ Hl Hw Hp Hk Ht) in Hok |- *.
    pose proof (get_last_published_at_trace E conf) as Hdb.
    rewrite Hl in Hdb. apply db_events_silent in Hdb as [Ho _].
    destruct (sync_topics_spec E (api_headers key)
                (api_params qs (strftime (env_now E) TS_FORMAT) ps) state
                (split "," topic_list) conf) as (m & _ & Hloop & _ & Hout).
    destruct (sync_topics E (api_headers key) _ state (split "," topic_list) conf)
      as [t [p'|e]]; [|done].
    cbn [fst snd] in *. destruct Hout as [-> Hall].
    rewrite take_ge in Hloop by done.
    destruct (completed_blocks state
                (topic_run E (api_headers key)
                   (api_params qs (strftime (env_now E) TS_FORMAT) ps) state conf)
                (split "," topic_list)) as (blocks & Hlen & Hops).
    { intros b topic Hb. apply topic_run_Ok_ops. by apply Hall. }
    exists blocks. split; [done|].
    rewrite !ops_app, Ho, Hloop, Hops. done.
Qed.



(** C4, as stated, fails: when the source cannot be reached for the second
    topic, the checkpoint that closed the first topic has already been
    yielded. *)
Lemma checkpoint_precedes_source_failure :
  (update second_topic_down_env sample_conf sample_state).2
    = Raise (wrapped_error second_topic_down_env timed_out) /\
  checkpoints (update second_topic_down_env sample_conf sample_state).1
    = [Checkpoint sample_state].
Proof. split; vm_compute; reflexivity. Qed.

(** C4, amended: when the [k]-th source request of a run fails (the request
    raises, the body is not JSON, or the decoded body has no iterable
    [articles]; the status code is not looked at), [update] ends with one
    [RuntimeError] whose message holds the message and the trace of the
    failure; no final checkpoint is yielded: the checkpoints of the run are
    the [k] intermediate ones of the topics completed before, each carrying
    the input state, so none when the first request fails. *)
Theorem source_failure_is_fatal E (conf : config) (state : dict)
    (k : nat) (request : string * dict * dict) (e0 : exn) :
  gets (update E conf state).1 !! k = Some request ->
  (fetch_articles E k request.1.2 request.2).2 = Raise e0 ->
  is_Exception e0 = true ->
  (update E conf state).2 = Raise (wrapped_error E e0) /\
  exn_class (wrapped_error E e0) = RuntimeError /\
  exn_str (wrapped_error E e0)
    = "Error Message: " +:+ exn_str e0 +:+ nl +:+ "Stack Trace:" +:+ nl
      +:+ env_format_exc E e0 /\
  checkpoints (update E conf state).1 = repeat (Checkpoint state) k /\
  length (gets (update E conf state).1) = S k.
Proof.
  intros Hreq Hfetch Hexc.
  destruct (update_cases E conf state) as [(_ & Hg & _)|Hrun].
  { by rewrite Hg in Hreq. }
  destruct Hrun as (t0 & qs & ps & key & topic_list & Hl & Hw & Hp & Hk & Ht).
  rewrite (update_connected E conf state _ _ _ _ _ _ Hl Hw Hp Hk Ht) in Hreq |- *.
  pose proof (get_last_published_at_trace E conf) as Hdb.
  rewrite Hl in Hdb. apply db_events_silent in Hdb as [Ho0 Hg0].
  set (params := api_params qs (strftime (env_now E) TS_FORMAT) ps) in *.
  set (headers := api_headers key) in *.
  set (topics := split "," topic_list) in *.
  destruct (sync_topics_spec E headers params state topics conf)
    as (m & Hm & Hloop & Hpre & Hout).
  assert (gets (sync_topics E headers params state topics conf).1
          = topic_request headers params <$> take m topics)
    as Hgets by (by rewrite Hloop, topic_runs_gets).
  assert (exists topic, topics !! k = Some topic /\ (k < m)%nat /\
                        request = topic_request headers params topic)
    as (topic & Htopic & Hkm & ->).
  { destruct (sync_topics E headers params state topics conf) as [t [p'|e]];
      cbn [fst snd] in *; rewrite ?gets_app, Hg0, Hgets in Hreq;
      cbn [app gets omap] in Hreq; rewrite ?app_nil_r in Hreq;
      apply list_lookup_fmap_Some in Hreq as (topic & -> & Hreq);
      apply lookup_take_Some in Hreq as [? ?]; eauto. }
  cbn [topic_request fst snd] in Hfetch.
  assert ((topic_run E headers params state conf k topic).2 = Raise e0 /\
          ops (topic_run E headers params state conf k topic).1 = [])
    as [Hfail Hnone].
  { unfold topic_run.
    destruct (sync_items_spec E k headers (<["q":=PStr topic]> params)
                state topic conf) as [_ H].
    by rewrite Hfetch in H. }
  destruct (sync_topics E headers params state topics conf) as [t [p'|e]];
    cbn [fst snd] in *.
  { destruct Hout as [_ Hall]. rewrite (Hall k topic Htopic) in Hfail. done. }
  destruct Hout as (b & topic' & -> & Htopic' & Hfail').
  assert (b = k) as ->.
  { destruct (decide (b = k)) as [|Hne]; [done|].
    rewrite (Hpre k topic Htopic) in Hfail by lia. done. }
  assert (topic' = topic) as -> by congruence.
  assert (e = e0) as -> by congruence.
  rewrite Hexc. split; [done|]. split; [done|]. split; [done|].
  rewrite checkpoints_app, gets_app, Hg0, Hgets. cbn [app]. rewrite length_fmap.
  rewrite length_take_le by done. split; [|done].
  unfold checkpoints at 1. rewrite Ho0. cbn [List.filter app].
  rewrite Hloop, (take_S_r _ _ _ Htopic), imap_app, concat_app, checkpoints_app.
  rewrite (completed_checkpoints state (topic_run E headers params state conf)).
  - rewrite length_take_le by lia. cbn [imap concat].
    rewrite app_nil_r, Nat.add_0_r. unfold checkpoints.
    rewrite Hnone. cbn. by rewrite app_nil_r.
  - intros b t' Hb. apply lookup_take_Some in Hb as [Hb Hlt].
    apply topic_run_Ok_ops, Hpre; [done|lia].
Qed.

Lemma source_failure_is_fatal_witness :
  (update second_topic_down_env sample_conf sample_state).2
    = Raise (wrapped_error second_topic_down_env timed_out) /\
  exn_class (wrapped_error second_topic_down_env timed_out) = RuntimeError /\
  exn_str (wrapped_error second_topic_down_env timed_out)
    = "Error Message: " +:+ exn_str timed_out +:+ nl +:+ "Stack Trace:" +:+ nl
      +:+ env_format_exc second_topic_down_env timed_out /\
  checkpoints (update second_topic_down_env sample_conf sample_state).1
    = repeat (Checkpoint sample_state) 1 /\
  length (gets (update second_topic_down_env sample_conf sample_state).1) = 2%nat.
Proof.
  apply (source_failure_is_fatal second_topic_down_env sample_conf sample_state 1
           (topic_request (api_headers "news-key")
              (api_params (PStr "2024-01-08T12:00:00") "2024-01-10T12:00:00" "100")
              "chips")
           timed_out); vm_compute; reflexivity.
Defined.

(** ** Failures of the Enrichment Stage *)

Lemma getitem_str_exc v key e :
  getitem_str v key = Raise e -> is_Exception e = true.
Proof.
  destruct v; cbn; try (by intros [= <-]).
  destruct (assoc key d); [done|]. by intros [= <-].
Qed.

Lemma getitem_int_exc v i e :
  getitem_int v i = Raise e -> is_Exception e = true.
Proof.
  destruct v; cbn; try (by intros [= <-]).
  - destruct (String.get i s); [done|]. by intros [= <-].
  - destruct (l !! i); [done|]. by intros [= <-].
Qed.

Lemma raise_for_status_exc r e :
  raise_for_status r = Raise e -> is_Exception e = true.
Proof.
  unfold raise_for_status.
  destruct (_ && _); [by intros [= <-]|].
  destruct (_ && _); [by intros [= <-]|done].
Qed.

Lemma raise_for_status_Ok r :
  raise_for_status r = Ok tt <-> (status_code r < 400 \/ 600 <= status_code r).
Proof.
  unfold raise_for_status.
  destruct (400 <=? status_code r) eqn:H1; destruct (status_code r <? 500) eqn:H2;
    destruct (500 <=? status_code r) eqn:H3; destruct (status_code r <? 600) eqn:H4;
    cbn; split; try done; lia.
Qed.

Lemma tl_request_outcome E k j conf data :
  match (tl_request E k j conf data).2 with
  | Ok tl_data => request_succeeds E k j conf data tl_data
  | Raise e =>
      (forall tl_data, ~ request_succeeds E k j conf data tl_data) /\
      ((forall headers body e', env_post E k j TL_URL headers body = Raise e' ->
                                is_Exception e' = true) ->
       is_Exception e = true)
  end.
Proof.
  unfold tl_request, request_succeeds, dict_getitem.
  destruct (conf !! "TABULA_KEY") as [tl_key|] eqn:Hkey.
  2:{ rewrite bind_lift_Raise. cbn [snd]. split; [|done].
      intros tl (? & ? & ? & ? & ? & ? & _). done. }
  rewrite bind_lift_Ok.
  destruct (dict_get data "content") as [| | | |content| |] eqn:Hc;
    cbn [py_strip py_type_name];
    try (unfold no_attribute; rewrite bind_lift_Raise; cbn [snd]; split; [|done];
         intros tl (? & ? & ? & ? & ? & ? & ? & _); done).
  rewrite bind_lift_Ok.
  destruct (String.eqb (strip content) "") eqn:Hblank.
  { apply String.eqb_eq in Hblank. cbn. split; [|done].
    intros tl (? & c & ? & ? & ? & ? & [= <-] & Hne & _). done. }
  apply String.eqb_neq in Hblank.
  change (ret tt) with (lift (Ok tt)). rewrite bind_lift_Ok.
  unfold requests_post. rewrite !bind_snd. cbn [emit snd].
  rewrite lift_snd.
  destruct (env_post E k j TL_URL _ _) as [r|e] eqn:Hpost.
  2:{ split; [|by eauto].
      intros tl (? & c & ? & ? & ? & [= <-] & [= <-] & _ & Hp & _). congruence. }
  rewrite bind_snd, lift_snd.
  destruct (raise_for_status r) as [[]|e] eqn:Hst.
  2:{ split; [|intros _; by eapply raise_for_status_exc].
      intros tl (? & c & r' & ? & ? & [= <-] & [= <-] & _ & Hp & Hs & _).
      assert (r' = r) as -> by congruence.
      apply raise_for_status_Ok in Hs. congruence. }
  apply raise_for_status_Ok in Hst. rewrite lift_snd. unfold response_json.
  destruct (json_body r) as [js|msg] eqn:Hjs; cbn [res_bind].
  2:{ split; [|done].
      intros tl (? & c & r' & ? & ? & [= <-] & [= <-] & _ & Hp & _ & Hj & _).
      assert (r' = r) as -> by congruence. congruence. }
  destruct (getitem_str js "data") as [d|e] eqn:Hd; cbn [res_bind].
  2:{ split; [|intros _; by eapply getitem_str_exc].
      intros tl (? & c & r' & js' & ? & [= <-] & [= <-] & _ & Hp & _ & Hj & Hd' & _).
      assert (r' = r) as -> by congruence.
      assert (js' = js) as -> by congruence. congruence. }
  destruct (getitem_str d "document") as [tl_data|e] eqn:Hdoc.
  - eauto 15.
  - split; [|intros _; by eapply getitem_str_exc].
    intros tl (? & c & r' & js' & d' & [= <-] & [= <-] & _ & Hp & _ & Hj & Hd' & Hdoc').
    assert (r' = r) as -> by congruence.
    assert (js' = js) as -> by congruence.
    assert (d' = d) as -> by congruence. congruence.
Qed.


Lemma p_value_exc i tl_data e :
  p_value i tl_data = Raise e -> is_Exception e = true.
Proof.
  unfold p_value. destruct (getitem_str tl_data "p_values") eqn:H; cbn.
  - apply getitem_int_exc.
  - intros [= <-]. by eapply getitem_str_exc.
Qed.

Lemma assign_exc tl_data (data : dict) e :
  (assign enrichment_assignments tl_data data).2 = Raise e ->
  is_Exception e = true.
Proof.
  assert (Forall (fun target => forall e, target.2 tl_data = Raise e ->
                                          is_Exception e = true)
            enrichment_assignments) as H.
  { repeat constructor; cbn; intros e';
      first [apply getitem_str_exc | apply p_value_exc]. }
  revert data. induction H as [|[key rhs] rest Hrhs _ IH]; intros data; cbn.
  - done.
  - cbn in Hrhs. destruct (rhs tl_data) as [v|err] eqn:Hv.
    + apply IH.
    + intros [= <-]. by apply Hrhs.
Qed.

Lemma try_enrich_exc E k j conf data e :
  raises_exceptions_only E k ->
  (try_enrich E k j conf data).2 = Raise e -> is_Exception e = true.
Proof.
  intros Hpost. unfold try_enrich.
  pose proof (tl_request_outcome E k j conf data) as H.
  destruct (tl_request E k j conf data).2 as [tl_data|err].
  - apply assign_exc.
  - intros [= <-]. apply H. apply Hpost.
Qed.

Lemma enrich_total E k j conf data :
  raises_exceptions_only E k ->
  (enrich E k j conf data).2 = Ok (try_enrich E k j conf data).1 /\
  warnings (enrich E k j conf data).1
    = match (try_enrich E k j conf data).2 with
      | Ok _ => []
      | Raise err => [tl_warning E err]
      end.
Proof.
  intros Hpost. rewrite enrich_eq.
  destruct (posts_silent _ (tl_request_trace E k j conf data)) as (_ & _ & Hw).
  pose proof (try_enrich_exc E k j conf data) as Hexc.
  destruct (try_enrich E k j conf data).2 as [|err]; cbn [fst snd]; [done|].
  rewrite (Hexc err Hpost eq_refl). cbn [fst snd].
  by rewrite warnings_app, Hw.
Qed.

Lemma article_loop_total E k topic conf articles i :
  (forall j a, articles !! j = Some a ->
     (sync_article E k topic conf (i + j) a).2 = Ok tt) ->
  (for_loop i articles tt (fun j a _ => sync_article E k topic conf j a)).2 = Ok tt.
Proof.
  revert i. induction articles as [|a rest IH]; intros i H; [done|].
  cbn [for_loop]. rewrite bind_snd.
  pose proof (H 0%nat a eq_refl) as H0. rewrite Nat.add_0_r in H0. rewrite H0.
  apply IH. intros j a' Hj. replace (S i + j)%nat with (i + S j)%nat by lia.
  by apply H.
Qed.

Lemma sync_article_total E k topic conf j article data :
  raises_exceptions_only E k ->
  base_record topic article = Ok data ->
  (sync_article E k topic conf j article).2 = Ok tt.
Proof.
  intros Hpost Hb. unfold sync_article. rewrite Hb, bind_lift_Ok, bind_snd.
  destruct (enrich_total E k j conf data Hpost) as [-> _]. done.
Qed.

(** ** The assignments, field by field *)

Lemma assign_prefix targets tl_data (data : dict) :
  NoDup targets.*1 ->
  exists n : nat,
    (n <= length targets)%nat /\
    dom (assign targets tl_data data).1
      = dom data ∪ list_to_set (take n targets.*1) /\
    (forall i key rhs, (i < n)%nat -> targets !! i = Some (key, rhs) ->
       exists v, rhs tl_data = Ok v /\
                 (assign targets tl_data data).1 !! key = Some v) /\
    (forall key, key ∉ take n targets.*1 ->
       (assign targets tl_data data).1 !! key = data !! key) /\
    match (assign targets tl_data data).2 with
    | Ok _ => n = length targets
    | Raise err =>
        exists key rhs, targets !! n = Some (key, rhs) /\ rhs tl_data = Raise err
    end.
Proof.
  revert data. induction targets as [|[key rhs] rest IH]; intros data Hnd.
  - exists 0%nat. cbn. split; [lia|]. split; [set_solver|].
    split; [intros; lia|]. done.
  - apply NoDup_cons in Hnd as [Hkey Hnd]. cbn [assign].
    destruct (rhs tl_data) as [v|err] eqn:Hv.
    + destruct (IH (<[key:=v]> data) Hnd) as (n & Hn & Hd & Hw & Ho & Hr).
      exists (S n). split; [cbn; lia|]. split; [|split; [|split]].
      * rewrite Hd, dom_insert_L. cbn. set_solver.
      * intros [|i] key' rhs' Hi Hl.
        -- injection Hl as <- <-. exists v. split; [done|].
           rewrite Ho; [by rewrite lookup_insert_eq|].
           intros Hin. apply Hkey. by eapply subseteq_take.
        -- apply (Hw i); [lia|done].
      * intros key' Hk. cbn in Hk. apply not_elem_of_cons in Hk as [Hne Hk].
        rewrite Ho by done. by rewrite lookup_insert_ne.
      * destruct (assign rest tl_data (<[key:=v]> data)).2; [cbn; lia|done].
    + exists 0%nat. cbn. split; [lia|]. split; [set_solver|].
      split; [intros; lia|]. split; [done|]. eauto.
Qed.

Lemma assignment_read (i : nat) (key : string) :
  enrichment_fields !! i = Some key ->
  enrichment_assignments !! i = Some (key, enrichment_read i).
Proof.
  do 10 (destruct i as [|i]; [by intros [= <-]|]). done.
Qed.

Lemma assign_fields tl_data (data : dict) :
  exists n : nat,
    (n <= 10)%nat /\
    first_fields_written n tl_data data
      (assign enrichment_assignments tl_data data).1 /\
    match (assign enrichment_assignments tl_data data).2 with
    | Ok _ => n = 10%nat
    | Raise err => (n < 10)%nat /\ enrichment_read n tl_data = Raise err
    end.
Proof.
  destruct (assign_prefix enrichment_assignments tl_data data)
    as (n & Hn & Hd & Hw & Ho & Hr).
  { apply (bool_decide_unpack _). by vm_compute. }
  change (enrichment_assignments.*1) with enrichment_fields in *.
  change (length enrichment_assignments) with 10%nat in *.
  exists n. split; [done|]. split; [split; [done|split; [|done]]|].
  - intros i key Hi Hkey. apply (Hw i key (enrichment_read i) Hi).
    by apply assignment_read.
  - destruct (assign enrichment_assignments tl_data data).2 as [|err]; [done|].
    destruct Hr as (key & rhs & Hl & Hraise).
    assert (n < 10)%nat as Hlt.
    { apply lookup_lt_Some in Hl. exact Hl. }
    split; [done|].
    destruct (lookup_lt_is_Some_2 enrichment_fields n Hlt) as [key' Hkey'].
    rewrite (assignment_read n key' Hkey') in Hl. by injection Hl as <- <-.
Qed.

(** The record of an article, field by field. *)
Lemma try_enrich_record E k j conf (data : dict) :
  enriched_record E k j conf data (try_enrich E k j conf data).1.
Proof.
  unfold try_enrich, enriched_record.
  pose proof (tl_request_outcome E k j conf data) as Hreq.
  destruct (tl_request E k j conf data).2 as [tl_data|err].
  - right. destruct (assign_fields tl_data data) as (n & Hn & Hw & Hr).
    exists tl_data, n. split; [done|]. split; [done|]. split; [done|].
    intros Hlt. destruct (assign enrichment_assignments tl_data data).2 as [|err].
    + lia.
    + destruct Hr as [_ Hr]. eauto.
  - left. by destruct Hreq as [Hreq _].
Qed.

Lemma record_of_enriched E k topic conf j article d :
  record_of E k topic conf j article d ->
  exists data,
    base_record topic article = Ok data /\ dom data = base_keys /\
    enriched_record E k j conf data d.
Proof.
  intros (data & Hb & ->). exists data. split; [done|].
  split; [by destruct (base_record_dom _ _ _ Hb)|]. apply try_enrich_record.
Qed.

(** C3, as stated, fails: with a [p_values] of three elements the first
    record of the run is upserted with [blue], [red], [p0], [p1] and [p2]
    and without [p3] to [p7]. *)
Lemma partial_enrichment_is_emitted :
  exists d,
    ops (update short_vector_env sample_conf sample_state).1 !! 0%nat
      = Some (Upsert "article" d) /\
    is_Some (d !! "blue") /\ is_Some (d !! "red") /\ is_Some (d !! "p2") /\
    d !! "p3" = None /\ d !! "p7" = None.
Proof.
  eexists. split; [vm_compute; reflexivity|].
  repeat split; try (vm_compute; eauto; fail).
Qed.

(** C3, amended: the enrichment fields of an emitted record are the
    fields that come before the first read that fails, in the order
    [blue, red, p0, ..., p7] of the assignments, each holding what was
    read.  The record of the [j]-th article of a topic is its base record
    when the request to the service does not succeed; when it does, it is
    the base record with [blue], [red], [p0], ... written up to the first
    of the reads [blue], [red], [p_values[0]], ..., [p_values[7]] that
    raises, all ten when none does; nothing is taken back.  So it is for
    the records of every call of [sync_items], article by article, and for
    every upsert of a run. *)
Theorem enrichment_fields_form_a_prefix E (conf : config) (state : dict) :
  (forall k headers params topic articles,
     (fetch_articles E k headers params).2 = Ok articles ->
     exists records : list dict,
       ops (sync_items E k headers params state topic conf).1
         = map (Upsert "article") records
           ++ match (sync_items E k headers params state topic conf).2 with
              | Ok _ => [Checkpoint state]
              | Raise _ => []
              end /\
       forall j d, records !! j = Some d ->
         exists article data,
           articles !! j = Some article /\
           base_record topic article = Ok data /\
           dom data = base_keys /\
           enriched_record E k j conf data d) /\
  Forall (fun o => match o with
                   | Upsert _ d =>
                       exists k topic j article data,
                         base_record topic article = Ok data /\
                         dom data = base_keys /\
                         enriched_record E k j conf data d
                   | Checkpoint _ => True
                   end)
    (ops (update E conf state).1).
Proof.
  split.
  - intros k headers params topic articles Hfetch.
    destruct (sync_items_spec E k headers params state topic conf) as [_ H].
    rewrite Hfetch in H. destruct H as (records & Hrec & H).
    exists records. split.
    + destruct (sync_items E k headers params state topic conf).2;
        destruct H as [_ ->]; [done|by rewrite app_nil_r].
    + intros j d Hj. destruct (Hrec j d Hj) as (article & Ha & Hr).
      destruct (record_of_enriched _ _ _ _ _ _ _ Hr) as (data & Hb & Hd & He).
      eauto 10.
  - eapply Forall_impl; [apply update_ops|]. intros o [[->|H]| ->]; try done.
    destruct H as (d & k & topic & j & article & -> & Hr).
    destruct (record_of_enriched _ _ _ _ _ _ _ Hr) as (data & Hb & Hd & He).
    eauto 10.
Qed.

(** ** A batch of articles *)









(** ** The query window *)

Lemma string_leb_refl s : String.leb s s = true.
Proof. by destruct (String.leb_total s s). Qed.



Lemma string_not_ltb_leb a b : String.ltb a b = false -> String.leb b a = true.
Proof.
  unfold String.ltb, String.leb. rewrite (String.compare_antisym a b).
  by destruct (String.compare b a).
Qed.


Lemma string_app_nil_r s : s +:+ "" = s.
Proof.
  induction s as [|c s IH]; [done|].
  change (String c s +:+ "") with (String c (s +:+ "")). by rewrite IH.
Qed.

Lemma strftime_TS_FORMAT t :
  strftime t TS_FORMAT =
    let '(y, m, d) := ord2ymd (dt_ordinal t) in
    let s := dt_second t in
    pretty y +:+ "-" +:+ zfill 2 m +:+ "-" +:+ zfill 2 d +:+ "T"
    +:+ zfill 2 (s / 3600) +:+ ":" +:+ zfill 2 (s mod 3600 / 60) +:+ ":"
    +:+ zfill 2 (s mod 60).
Proof.
  unfold strftime, TS_FORMAT. cbn [strftime_from]. unfold directive.
  destruct (ord2ymd (dt_ordinal t)) as [[y m] d]. cbn.
  rewrite string_app_nil_r. reflexivity.
Qed.

Lemma strftime_TS_FORMAT_not_empty t : strftime t TS_FORMAT <> "".
Proof.
  rewrite strftime_TS_FORMAT. destruct (ord2ymd (dt_ordinal t)) as [[y m] d].
  cbn zeta. by destruct (pretty y).
Qed.


(** The requests of a run are those of [update] for the window it resolved
    with the lookup's [None]. *)
Lemma update_requests E (conf : config) state request :
  request ∈ gets (update E conf state).1 ->
  exists qs ps key topic,
    query_window E state PNone = Ok (qs, strftime (env_now E) TS_FORMAT) /\
    conf !! "PAGE_SIZE" = Some ps /\
    conf !! "NEWS_API_KEY" = Some key /\
    request = topic_request (api_headers key)
                (api_params qs (strftime (env_now E) TS_FORMAT) ps) topic.
Proof.
  intros Hreq.
  destruct (update_cases E conf state) as [(_ & Hg & _)|Hrun].
  { rewrite Hg in Hreq. by apply elem_of_nil in Hreq. }
  destruct Hrun as (t0 & qs & ps & key & topic_list & Hl & Hw & Hp & Hk & Ht).
  rewrite (update_connected E conf state _ _ _ _ _ _ Hl Hw Hp Hk Ht) in Hreq.
  pose proof (get_last_published_at_trace E conf) as Hdb.
  rewrite Hl in Hdb. apply db_events_silent in Hdb as [_ Hg0].
  destruct (sync_topics_spec E (api_headers key)
              (api_params qs (strftime (env_now E) TS_FORMAT) ps) state
              (split "," topic_list) conf) as (m & _ & Hloop & _).
  assert (request ∈ gets (sync_topics E (api_headers key)
                            (api_params qs (strftime (env_now E) TS_FORMAT) ps)
                            state (split "," topic_list) conf).1) as Hin.
  { destruct (sync_topics E (api_headers key) _ state (split "," topic_list) conf)
      as [t [p'|e]]; cbn [fst] in *; rewrite ?gets_app, Hg0 in Hreq;
      cbn [app gets omap] in Hreq; by rewrite ?app_nil_r in Hreq. }
  rewrite Hloop, topic_runs_gets in Hin.
  apply list_elem_of_fmap in Hin as (topic & -> & _). eauto 10.
Qed.



(** * Further properties *)

(** ** [camel] *)

Lemma lower_char_not_upper c : is_upper (lower_char c) = false.
Proof. destruct c as [[] [] [] [] [] [] [] []]; reflexivity. Qed.

Lemma lower_char_underscore c :
  Ascii.eqb "_" (lower_char c) = Ascii.eqb "_" c.
Proof. destruct c as [[] [] [] [] [] [] [] []]; reflexivity. Qed.

Lemma upper_char_underscore c :
  Ascii.eqb "_" (upper_char c) = Ascii.eqb "_" c.
Proof. destruct c as [[] [] [] [] [] [] [] []]; reflexivity. Qed.

Lemma lower_upper_char c : is_lower c = true -> lower_char (upper_char c) = c.
Proof. destruct c as [[] [] [] [] [] [] [] []]; (reflexivity || discriminate). Qed.

Lemma lower_char_lower c : is_lower c = true -> lower_char c = c.
Proof. destruct c as [[] [] [] [] [] [] [] []]; (reflexivity || discriminate). Qed.

Lemma lower_char_upper_char c : lower_char (upper_char c) = lower_char c.
Proof. destruct c as [[] [] [] [] [] [] [] []]; reflexivity. Qed.

Lemma lower_char_idemp c : lower_char (lower_char c) = lower_char c.
Proof. destruct c as [[] [] [] [] [] [] [] []]; reflexivity. Qed.

Lemma is_lower_cased c : is_lower c = true -> is_cased c = true.
Proof. unfold is_cased. intros ->. apply orb_true_r. Qed.

Lemma string_app_cons c (a b : string) : String c a +:+ b = String c (a +:+ b).
Proof. reflexivity. Qed.

Lemma string_app_nil_l (b : string) : EmptyString +:+ b = b.
Proof. reflexivity. Qed.

Lemma string_length_app (a b : string) :
  String.length (a +:+ b) = (String.length a + String.length b)%nat.
Proof.
  induction a as [|x a IH]; [done|].
  rewrite string_app_cons. cbn [String.length]. by rewrite IH.
Qed.

Lemma chars_app (a b : string) :
  list_ascii_of_string (a +:+ b)
    = list_ascii_of_string a ++ list_ascii_of_string b.
Proof.
  induction a as [|x a IH]; [done|].
  rewrite string_app_cons. cbn [list_ascii_of_string app]. by rewrite IH.
Qed.

Lemma str_from_1 c s : str_from 1 (String c s) = s.
Proof.
  unfold str_from.
  replace (String.length (String c s) - 1)%nat with (String.length s)
    by (cbn [String.length]; lia).
  cbn [String.substring].
  induction s as [|x s IH]; [done|]. cbn [String.length String.substring].
  by rewrite IH.
Qed.

Lemma title_from_length b s : String.length (title_from b s) = String.length s.
Proof. revert b. induction s as [|c s IH]; intros b; [done|]. cbn. by rewrite IH. Qed.

Lemma title_from_underscores b s :
  List.filter (Ascii.eqb "_") (list_ascii_of_string (title_from b s))
    = List.filter (Ascii.eqb "_") (list_ascii_of_string s).
Proof.
  revert b. induction s as [|c s IH]; intros b; [done|].
  cbn [title_from list_ascii_of_string List.filter]. rewrite IH.
  destruct b; rewrite ?lower_char_underscore, ?upper_char_underscore;
    (destruct (Ascii.eqb "_" c) eqn:Hc; [|done]);
    by apply Ascii.eqb_eq in Hc as <-.
Qed.

(** The parts of a split hold no separator, and joining them with the
    separator gives the text back. *)
Lemma split_parts sep s :
  Forall (fun part => List.filter (Ascii.eqb sep) (list_ascii_of_string part) = [])
    (split sep s).
Proof.
  induction s as [|c s IH]; cbn.
  - by repeat constructor.
  - destruct (Ascii.eqb c sep) eqn:Hc.
    + by constructor.
    + pose proof (split_not_nil sep s) as Hne.
      destruct (split sep s) as [|h t]; [done|].
      inversion IH as [|? ? Hh Ht]; subst. constructor; [|done].
      cbn [list_ascii_of_string List.filter]. by rewrite Ascii.eqb_sym, Hc.
Qed.

Lemma join_split sep s :
  String.concat (String sep EmptyString) (split sep s) = s.
Proof.
  induction s as [|c s IH]; [done|]. cbn [split].
  destruct (Ascii.eqb c sep) eqn:Hc.
  - apply Ascii.eqb_eq in Hc as ->.
    pose proof (split_not_nil sep s) as Hne.
    destruct (split sep s) as [|h t]; [done|].
    cbn [String.concat] in *. by rewrite IH.
  - pose proof (split_not_nil sep s) as Hne.
    destruct (split sep s) as [|h t]; [done|].
    destruct t as [|h' t]; cbn [String.concat] in *.
    + by rewrite IH.
    + rewrite string_app_cons. by rewrite IH.
Qed.

Lemma split_length sep s :
  length (split sep s) = S (count_char sep s).
Proof.
  unfold count_char. induction s as [|c s IH]; [done|]. cbn [split].
  cbn [list_ascii_of_string List.filter]. rewrite (Ascii.eqb_sym sep c).
  destruct (Ascii.eqb c sep); cbn [length]; [by rewrite IH|].
  pose proof (split_not_nil sep s). destruct (split sep s); [done|]. exact IH.
Qed.

Lemma split_total_length sep s :
  (length (concat (map list_ascii_of_string (split sep s))) + count_char sep s
   = String.length s)%nat.
Proof.
  unfold count_char. induction s as [|c s IH]; [done|]. cbn [split].
  cbn [list_ascii_of_string List.filter String.length]. rewrite (Ascii.eqb_sym sep c).
  destruct (Ascii.eqb c sep); cbn [length map concat app list_ascii_of_string].
  - lia.
  - pose proof (split_not_nil sep s). destruct (split sep s) as [|h t]; [done|].
    cbn [map concat list_ascii_of_string] in *. cbn [app length]. lia.
Qed.

(** Splitting a text that was joined: the parts come back when none of
    them holds the separator. *)
Lemma split_word sep w :
  List.filter (Ascii.eqb sep) (list_ascii_of_string w) = [] -> split sep w = [w].
Proof.
  induction w as [|c w IH]; [done|]. cbn. rewrite (Ascii.eqb_sym sep c).
  destruct (Ascii.eqb c sep); [done|]. intros H. by rewrite (IH H).
Qed.

Lemma split_app_sep sep w rest :
  List.filter (Ascii.eqb sep) (list_ascii_of_string w) = [] ->
  split sep (w +:+ String sep rest) = w :: split sep rest.
Proof.
  induction w as [|c w IH]; intros Hw.
  - rewrite string_app_nil_l. cbn [split]. by rewrite Ascii.eqb_refl.
  - cbn [list_ascii_of_string List.filter] in Hw.
    rewrite (Ascii.eqb_sym sep c) in Hw.
    destruct (Ascii.eqb c sep) eqn:Hc; [done|].
    rewrite string_app_cons. cbn [split]. by rewrite Hc, (IH Hw).
Qed.

Lemma split_join sep w ws :
  Forall (fun part => List.filter (Ascii.eqb sep) (list_ascii_of_string part) = [])
    (w :: ws) ->
  split sep (String.concat (String sep EmptyString) (w :: ws)) = w :: ws.
Proof.
  revert w. induction ws as [|w' ws IH]; intros w Hall.
  - cbn [String.concat]. apply split_word. by inversion Hall.
  - inversion Hall as [|? ? Hw Hrest]; subst. cbn [String.concat].
    rewrite string_app_cons, string_app_nil_l.
    rewrite (split_app_sep _ _ _ Hw). f_equal. by apply IH.
Qed.

Lemma concat_empty_sep (x : string) (l : list string) :
  String.concat "" (x :: l) = x +:+ String.concat "" l.
Proof.
  destruct l as [|y l]; cbn [String.concat].
  - by rewrite string_app_nil_r.
  - by rewrite string_app_nil_l.
Qed.

Lemma chars_concat (l : list string) :
  list_ascii_of_string (String.concat "" l)
    = concat (map list_ascii_of_string l).
Proof.
  induction l as [|x l IH]; [done|].
  rewrite concat_empty_sep, chars_app, IH. done.
Qed.

Lemma chars_length (s : string) :
  length (list_ascii_of_string s) = String.length s.
Proof. induction s as [|c s IH]; [done|]. cbn. by rewrite IH. Qed.

Lemma string_of_chars_inj (s t : string) :
  list_ascii_of_string s = list_ascii_of_string t -> s = t.
Proof.
  intros H. rewrite <- (string_of_list_ascii_of_string s),
    <- (string_of_list_ascii_of_string t). by rewrite H.
Qed.

(** What [camel] joins: as long as the title without its underscores, and
    free of underscores. *)
Lemma reassembled_length (title : string) :
  (String.length (String.concat "" (map py_title (split "_" title)))
   + count_char "_" title = String.length title)%nat.
Proof.
  rewrite <- (split_total_length "_" title), <- chars_length, chars_concat.
  f_equal. generalize (split "_" title). intros l.
  induction l as [|x l IH]; [done|]. cbn [map concat].
  rewrite !length_app, IH, !chars_length. unfold py_title.
  by rewrite title_from_length.
Qed.

Lemma reassembled_underscores (title : string) :
  List.filter (Ascii.eqb "_")
    (list_ascii_of_string (String.concat "" (map py_title (split "_" title)))) = [].
Proof.
  rewrite chars_concat. pose proof (split_parts "_" title) as H.
  induction H as [|x l Hx _ IH]; [done|]. cbn [map concat].
  rewrite List.filter_app, IH, app_nil_r. unfold py_title.
  by rewrite title_from_underscores.
Qed.

Lemma count_char_full c (s : string) :
  count_char c s = String.length s <-> forallb (Ascii.eqb c) (list_ascii_of_string s) = true.
Proof.
  unfold count_char. induction s as [|x s IH]; [done|].
  cbn [list_ascii_of_string List.filter forallb String.length].
  destruct (Ascii.eqb c x); cbn [length andb].
  - rewrite <- IH. split; lia.
  - split; [|done]. intros H.
    pose proof (List.filter_length_le (Ascii.eqb c) (list_ascii_of_string s)) as Hle.
    rewrite chars_length in Hle. lia.
Qed.

Lemma camel_eq (title : string) :
  camel title =
    match String.concat "" (map py_title (split "_" title)) with
    | String c rest => Ok (String (lower_char c) rest)
    | EmptyString => Raise (mk_exn IndexError "string index out of range")
    end.
Proof.
  unfold camel. cbn zeta.
  destruct (String.concat "" (map py_title (split "_" title))) as [|c rest]; [done|].
  unfold str_getitem. cbn [String.get res_bind py_lower].
  by rewrite str_from_1.
Qed.

(** X1: on an ASCII title, [camel] raises [IndexError] exactly when the
    title holds nothing but underscores (the empty title among them): the
    parts are then all empty and there is no first character to lower.  On
    every other title it returns a text that is not empty. *)
Theorem camel_fails_on_underscores (title : string) :
  ascii_text title = true ->
  if only_underscores title
  then camel title = Raise (mk_exn IndexError "string index out of range")
  else exists r, camel title = Ok r /\ r <> "".
Proof.
  intros _. rewrite camel_eq.
  pose proof (reassembled_length title) as Hlen.
  pose proof (count_char_full "_" title) as Hfull. fold (only_underscores title) in Hfull.
  destruct (String.concat "" (map py_title (split "_" title))) as [|c rest];
    cbn [String.length] in Hlen.
  - destruct (only_underscores title); [done|].
    destruct Hfull as [Hfull _]. by specialize (Hfull ltac:(lia)).
  - destruct (only_underscores title); [|by eauto].
    destruct Hfull as [_ Hfull]. specialize (Hfull eq_refl). lia.
Qed.

Lemma camel_fails_on_underscores_witness :
  exists r, camel "published_at" = Ok r /\ r <> "".
Proof. apply (camel_fails_on_underscores "published_at"). reflexivity. Defined.

(** X2: when [camel] returns, on an ASCII title, the result has the length
    of the title less its underscores, holds no underscore, and does not
    start with a capital letter. *)
Theorem camel_shape (title r : string) :
  ascii_text title = true ->
  camel title = Ok r ->
  (String.length r + count_char "_" title = String.length title)%nat /\
  count_char "_" r = 0%nat /\
  exists c rest, r = String c rest /\ is_upper c = false.
Proof.
  intros _. rewrite camel_eq.
  pose proof (reassembled_length title) as Hlen.
  pose proof (reassembled_underscores title) as Hnone.
  destruct (String.concat "" (map py_title (split "_" title))) as [|c rest]; [done|].
  intros [= <-]. split; [exact Hlen|]. split.
  - unfold count_char. cbn [list_ascii_of_string List.filter] in *.
    rewrite lower_char_underscore. destruct (Ascii.eqb "_" c); [done|].
    by rewrite Hnone.
  - exists (lower_char c), rest. split; [done|apply lower_char_not_upper].
Qed.

Lemma camel_shape_witness :
  (String.length "publishedAt" + count_char "_" "published_at"
   = String.length "published_at")%nat /\
  count_char "_" "publishedAt" = 0%nat /\
  exists c rest, "publishedAt" = String c rest /\ is_upper c = false.
Proof. apply (camel_shape "published_at" "publishedAt"); reflexivity. Defined.

Lemma cased_not_underscore c : is_cased c = true -> Ascii.eqb "_" c = false.
Proof. destruct c as [[] [] [] [] [] [] [] []]; (reflexivity || discriminate). Qed.

Lemma title_after_cased (s : string) :
  letters_only s = true -> title_from true s = py_lower s.
Proof.
  unfold letters_only. induction s as [|c s IH]; [done|].
  cbn [list_ascii_of_string forallb title_from py_lower].
  intros [Hc Hs]%andb_true_iff. by rewrite Hc, (IH Hs).
Qed.

Lemma lowercase_letters (s : string) :
  lowercase_word s = true -> letters_only s = true.
Proof.
  unfold lowercase_word, letters_only. induction s as [|c s IH]; [done|].
  cbn [list_ascii_of_string forallb].
  intros [Hc Hs]%andb_true_iff. by rewrite (is_lower_cased _ Hc), (IH Hs).
Qed.

Lemma py_lower_lowercase (s : string) : lowercase_word s = true -> py_lower s = s.
Proof.
  unfold lowercase_word. induction s as [|c s IH]; [done|].
  cbn [list_ascii_of_string forallb py_lower].
  intros [Hc Hs]%andb_true_iff. by rewrite (lower_char_lower _ Hc), (IH Hs).
Qed.

Lemma letters_no_underscore (s : string) :
  letters_only s = true ->
  List.filter (Ascii.eqb "_") (list_ascii_of_string s) = [].
Proof.
  unfold letters_only. induction s as [|c s IH]; [done|].
  cbn [list_ascii_of_string forallb List.filter].
  intros [Hc Hs]%andb_true_iff. by rewrite (cased_not_underscore _ Hc), (IH Hs).
Qed.

Lemma py_title_lowercase (s : string) :
  lowercase_word s = true -> py_title s = capitalize s.
Proof.
  intros Hs. destruct s as [|c s]; [done|].
  unfold py_title. cbn [title_from capitalize].
  unfold lowercase_word in Hs. cbn [list_ascii_of_string forallb] in Hs.
  apply andb_true_iff in Hs as [Hc Hs].
  rewrite (is_lower_cased _ Hc), (title_after_cased s), (py_lower_lowercase s);
    auto using lowercase_letters.
Qed.

(** X3: snake case to camel case.  For words in lower-case ASCII letters,
    the first of them not empty, [camel] of the words joined by underscores
    is the first word followed by the others capitalised. *)
Theorem camel_snake_case (w : string) (ws : list string) :
  w <> "" ->
  forallb lowercase_word (w :: ws) = true ->
  camel (String.concat "_" (w :: ws))
    = Ok (w +:+ String.concat "" (map capitalize ws)).
Proof.
  intros Hw Hall'. pose proof (proj1 (forallb_forall _ _) Hall') as Hall.
  rewrite camel_eq, split_join.
  2:{ apply List.Forall_forall. intros x Hx.
      apply letters_no_underscore, lowercase_letters.
      by apply Hall. }
  assert (map py_title (w :: ws) = map capitalize (w :: ws)) as ->.
  { apply map_ext_in. intros x Hx. apply py_title_lowercase. by apply Hall. }
  cbn [map]. rewrite concat_empty_sep.
  destruct w as [|c w]; [done|]. cbn [capitalize]. rewrite string_app_cons.
  rewrite lower_upper_char; [done|].
  specialize (Hall (String c w) (or_introl eq_refl)).
  unfold lowercase_word in Hall. cbn [list_ascii_of_string forallb] in Hall.
  by apply andb_true_iff in Hall as [? _].
Qed.

Lemma camel_snake_case_witness :
  camel "last_published_at" = Ok "lastPublishedAt".
Proof.
  apply (camel_snake_case "last" ["published"; "at"]); [discriminate|reflexivity].
Defined.

(** X4: a title of ASCII letters only, without underscore, comes back in
    lower case: capitals inside a word are lost, so a name that is already
    in camel case is not kept. *)
Theorem camel_lowers_letters (w : string) :
  w <> "" ->
  letters_only w = true ->
  camel w = Ok (py_lower w).
Proof.
  intros Hw Hl. rewrite camel_eq, (split_word _ _ (letters_no_underscore _ Hl)).
  cbn [map String.concat]. destruct w as [|c w]; [done|].
  unfold py_title. cbn [title_from py_lower].
  unfold letters_only in Hl. cbn [list_ascii_of_string forallb] in Hl.
  apply andb_true_iff in Hl as [Hc Hl].
  by rewrite Hc, lower_char_upper_char, title_after_cased.
Qed.

Lemma camel_lowers_letters_witness : camel "publishedAt" = Ok "publishedat".
Proof. apply (camel_lowers_letters "publishedAt"); [discriminate|reflexivity]. Defined.

(** ** Runs that stop before the first request *)

Lemma posts_app (t1 t2 : list event) : posts (t1 ++ t2) = posts t1 ++ posts t2.
Proof. apply omap_app. Qed.

(** The run as a function of what it reads before the loop over the topics:
    the window and the three entries of the configuration. *)
Lemma update_stops E (conf : config) state t0 :
  get_last_published_at E conf = (t0, Ok PNone) ->
  update E conf state =
    match query_window E state PNone with
    | Raise e => (t0, Raise e)
    | Ok (qs, qe) =>
        match conf !! "PAGE_SIZE", conf !! "NEWS_API_KEY", conf !! "TOPIC" with
        | None, _, _ => (t0, Raise (key_error "PAGE_SIZE"))
        | Some _, None, _ => (t0, Raise (key_error "NEWS_API_KEY"))
        | Some _, Some _, None => (t0, Raise (wrapped_error E (key_error "TOPIC")))
        | Some ps, Some key, Some topic_list =>
            match sync_topics E (api_headers key) (api_params qs qe ps) state
                    (split "," topic_list) conf with
            | (t, Ok _) =>
                (t0 ++ t ++ [EvLog Fine (fine_message E (PStr qe));
                             EvYield (Checkpoint {[ "to_ts" := PStr qe ]})], Ok tt)
            | (t, Raise e) =>
                (t0 ++ t, Raise (if is_Exception e then wrapped_error E e else e))
            end
        end
    end.
Proof.
  intros Hl.
  destruct (query_window E state PNone) as [[qs qe]|e] eqn:Hw.
  2:{ unfold update. rewrite Hl. unfold bind at 1.
      rewrite Hw, bind_lift_Raise. by rewrite app_nil_r. }
  destruct (conf !! "PAGE_SIZE") as [ps|] eqn:Hp.
  2:{ unfold update. rewrite Hl. unfold bind at 1.
      rewrite Hw, bind_lift_Ok, (dict_getitem_None _ _ Hp), bind_lift_Raise.
      by rewrite app_nil_r. }
  destruct (conf !! "NEWS_API_KEY") as [key|] eqn:Hk.
  2:{ unfold update. rewrite Hl. unfold bind at 1.
      rewrite Hw, bind_lift_Ok, (dict_getitem_Some _ _ _ Hp), bind_lift_Ok,
        (dict_getitem_None _ _ Hk), bind_lift_Raise.
      by rewrite app_nil_r. }
  destruct (conf !! "TOPIC") as [topic_list|] eqn:Ht.
  2:{ unfold update. rewrite Hl. unfold bind at 1.
      rewrite Hw, bind_lift_Ok, (dict_getitem_Some _ _ _ Hp), bind_lift_Ok,
        (dict_getitem_Some _ _ _ Hk), bind_lift_Ok,
        (dict_getitem_None _ _ Ht), bind_lift_Raise.
      cbn [try_except is_Exception exn_class raise bind fst snd].
      by rewrite !app_nil_r. }
  by apply update_connected.
Qed.

(** X5: when one of the six [SNOWFLAKE_*] entries is missing, the lookup
    raises the [KeyError] of the first missing one, in the order user,
    password, account, warehouse, database, schema, before it tries to
    connect; [update] ends with that same error, not wrapped, and the run
    has done nothing at all. *)
Theorem missing_snowflake_key E (conf : config) (state : dict)
    (i : nat) (key : string) :
  snowflake_keys !! i = Some key ->
  conf !! key = None ->
  Forall (fun earlier => is_Some (conf !! earlier)) (take i snowflake_keys) ->
  get_last_published_at E conf = ([], Raise (key_error key)) /\
  update E conf state = ([], Raise (key_error key)).
Proof.
  intros Hi Hmissing Hall.
  pose proof (proj1 (Forall_forall _ _) Hall) as Hearlier.
  assert (get_last_published_at E conf = ([], Raise (key_error key))) as Hl.
  { unfold get_last_published_at.
    destruct i as [|[|[|[|[|[|i]]]]]]; cbn in Hi; try discriminate;
      injection Hi as <-.
    all: repeat match goal with
           | |- context [dict_getitem _ ?k] =>
               let v := fresh "v" in
               let H := fresh "H" in
               destruct (Hearlier k) as [v H];
                 [solve [cbn [take snowflake_keys];
                         repeat first [apply list_elem_of_here
                                      |apply list_elem_of_further]]|];
               rewrite (dict_getitem_Some _ _ _ H), bind_lift_Ok
           end.
    all: by rewrite (dict_getitem_None _ _ Hmissing), bind_lift_Raise. }
  split; [done|]. unfold update. by rewrite Hl.
Qed.

Lemma missing_snowflake_key_witness :
  get_last_published_at sample_env (delete "SNOWFLAKE_ACCOUNT" sample_conf)
    = ([], Raise (key_error "SNOWFLAKE_ACCOUNT")) /\
  update sample_env (delete "SNOWFLAKE_ACCOUNT" sample_conf) sample_state
    = ([], Raise (key_error "SNOWFLAKE_ACCOUNT")).
Proof.
  apply (missing_snowflake_key sample_env (delete "SNOWFLAKE_ACCOUNT" sample_conf)
           sample_state 2 "SNOWFLAKE_ACCOUNT").
  - reflexivity.
  - vm_compute. reflexivity.
  - cbn [take snowflake_keys].
    repeat (apply List.Forall_cons; [by eexists|]). apply List.Forall_nil.
Defined.

(** X6: with the lookup done and the window computed, a missing [PAGE_SIZE]
    or [NEWS_API_KEY] ends the run with the bare [KeyError] of that entry
    ([PAGE_SIZE] is read first), and a missing [TOPIC], which is read inside
    the [try], with the [RuntimeError] that wraps its [KeyError]; in the
    three cases the source is not asked anything and nothing is yielded. *)
Theorem missing_request_setting E (conf : config) (state : dict) lpa window :
  (get_last_published_at E conf).2 = Ok lpa ->
  query_window E state PNone = Ok window ->
  (conf !! "PAGE_SIZE" = None ->
   (update E conf state).2 = Raise (key_error "PAGE_SIZE")) /\
  (is_Some (conf !! "PAGE_SIZE") -> conf !! "NEWS_API_KEY" = None ->
   (update E conf state).2 = Raise (key_error "NEWS_API_KEY")) /\
  (is_Some (conf !! "PAGE_SIZE") -> is_Some (conf !! "NEWS_API_KEY") ->
   conf !! "TOPIC" = None ->
   (update E conf state).2 = Raise (wrapped_error E (key_error "TOPIC")) /\
   exn_class (wrapped_error E (key_error "TOPIC")) = RuntimeError) /\
  (conf !! "PAGE_SIZE" = None \/ conf !! "NEWS_API_KEY" = None \/
   conf !! "TOPIC" = None ->
   gets (update E conf state).1 = [] /\ ops (update E conf state).1 = []).
Proof.
  intros Hl Hw.
  pose proof (get_last_published_at_trace E conf) as Htr.
  destruct (get_last_published_at E conf) as [t0 r] eqn:Hrun. cbn [fst snd] in *.
  subst r. pose proof (get_last_published_at_None E conf lpa) as Hnone.
  rewrite Hrun in Hnone. specialize (Hnone eq_refl) as ->.
  destruct (db_events_silent _ Htr) as [Ho Hg].
  rewrite (update_stops E conf state t0 Hrun), Hw. destruct window as [qs qe].
  destruct (conf !! "PAGE_SIZE"), (conf !! "NEWS_API_KEY"), (conf !! "TOPIC");
    repeat split; intros;
    repeat match goal with
      | H : is_Some None |- _ => by destruct H as [? [=]]
      | H : _ \/ _ |- _ => destruct H
      end; done.
Qed.

Lemma missing_request_setting_witness :
  (update sample_env (delete "TOPIC" sample_conf) sample_state).2
    = Raise (wrapped_error sample_env (key_error "TOPIC")) /\
  exn_class (wrapped_error sample_env (key_error "TOPIC")) = RuntimeError.
Proof.
  apply (missing_request_setting sample_env (delete "TOPIC" sample_conf)
           sample_state PNone
           (PStr "2024-01-08T12:00:00", "2024-01-10T12:00:00"));
    try (vm_compute; reflexivity); by eexists.
Defined.

(** ** The prior state's [to_ts] *)

Lemma safety_truthy t : py_truthy (PStr (strftime t TS_FORMAT)) = true.
Proof.
  cbn [py_truthy]. pose proof (strftime_TS_FORMAT_not_empty t) as H.
  apply negb_true_iff. by apply String.eqb_neq.
Qed.

(** X7: a [to_ts] that is true without being a string (a number, a list, an
    object) makes [min] compare the fallback text with it: the run ends
    with that [TypeError], not wrapped, before any request and with nothing
    yielded. *)
Theorem to_ts_of_another_type E (conf : config) (state : dict) lpa safety_time :
  (get_last_published_at E conf).2 = Ok lpa ->
  datetime_sub (env_now E) INIT_DELTA = Ok safety_time ->
  py_truthy (dict_get state "to_ts") = true ->
  py_type_name (dict_get state "to_ts") <> "str" ->
  (update E conf state).2
    = Raise (not_supported "<" (PStr (strftime safety_time TS_FORMAT))
               (dict_get state "to_ts")) /\
  exn_class (not_supported "<" (PStr (strftime safety_time TS_FORMAT))
               (dict_get state "to_ts")) = TypeError /\
  gets (update E conf state).1 = [] /\
  ops (update E conf state).1 = [].
Proof.
  intros Hl Hsafety Htrue Hty.
  pose proof (get_last_published_at_trace E conf) as Htr.
  destruct (get_last_published_at E conf) as [t0 r] eqn:Hrun. cbn [fst snd] in *.
  subst r. pose proof (get_last_published_at_None E conf lpa) as Hnone.
  rewrite Hrun in Hnone. specialize (Hnone eq_refl) as ->.
  destruct (db_events_silent _ Htr) as [Ho Hg].
  rewrite (update_stops E conf state t0 Hrun).
  assert (query_window E state PNone
          = Raise (not_supported "<" (PStr (strftime safety_time TS_FORMAT))
                     (dict_get state "to_ts"))) as ->.
  { unfold query_window. rewrite Hsafety. cbn [res_bind List.filter].
    rewrite Htrue, safety_truthy. cbn [py_truthy py_min min_from].
    destruct (dict_get state "to_ts"); try done. }
  done.
Qed.

Lemma to_ts_of_another_type_witness :
  let state : dict := {[ "to_ts" := PInt 1704787200 ]} in
  let safety := strftime (mk_datetime 2024 1 8 12 0 0) TS_FORMAT in
  (update sample_env sample_conf state).2
    = Raise (not_supported "<" (PStr safety) (dict_get state "to_ts")) /\
  exn_class (not_supported "<" (PStr safety) (dict_get state "to_ts"))
    = TypeError /\
  gets (update sample_env sample_conf state).1 = [] /\
  ops (update sample_env sample_conf state).1 = [].
Proof.
  apply (to_ts_of_another_type sample_env sample_conf
           {[ "to_ts" := PInt 1704787200 ]} PNone (mk_datetime 2024 1 8 12 0 0)).
  - vm_compute. reflexivity.
  - vm_compute. reflexivity.
  - vm_compute. reflexivity.
  - vm_compute. discriminate.
Defined.

(** X8: a [to_ts] that is false ([None], the empty text, zero, an empty
    list or object) or absent is dropped by [filter(None, ...)]: the window
    starts at the fallback, two days before the start of the run, and
    every request of the run asks from there. *)
Theorem falsy_to_ts_is_ignored E (conf : config) (state : dict) safety_time :
  datetime_sub (env_now E) INIT_DELTA = Ok safety_time ->
  py_truthy (dict_get state "to_ts") = false ->
  query_window E state PNone
    = Ok (PStr (strftime safety_time TS_FORMAT), strftime (env_now E) TS_FORMAT) /\
  Forall (fun request =>
            request.2 !! "from" = Some (PStr (strftime safety_time TS_FORMAT)))
    (gets (update E conf state).1).
Proof.
  intros Hsafety Hfalse.
  assert (query_window E state PNone
          = Ok (PStr (strftime safety_time TS_FORMAT),
                strftime (env_now E) TS_FORMAT)) as Hw.
  { unfold query_window. rewrite Hsafety. cbn [res_bind List.filter].
    by rewrite Hfalse, safety_truthy. }
  split; [done|]. apply Forall_forall. intros request Hreq.
  destruct (update_requests E conf state request Hreq)
    as (qs & ps & key & topic & Hw' & _ & _ & ->).
  rewrite Hw in Hw'. injection Hw' as <-.
  destruct (api_params_lookup (PStr (strftime safety_time TS_FORMAT))
              (strftime (env_now E) TS_FORMAT) ps) as (Hf & _).
  unfold topic_request. cbn [snd]. by rewrite lookup_insert_ne.
Qed.

Lemma falsy_to_ts_is_ignored_witness :
  query_window sample_env {[ "to_ts" := PStr "" ]} PNone
    = Ok (PStr "2024-01-08T12:00:00", "2024-01-10T12:00:00") /\
  Forall (fun request => request.2 !! "from" = Some (PStr "2024-01-08T12:00:00"))
    (gets (update sample_env sample_conf {[ "to_ts" := PStr "" ]}).1).
Proof.
  apply (falsy_to_ts_is_ignored sample_env sample_conf {[ "to_ts" := PStr "" ]}
           (mk_datetime 2024 1 8 12 0 0)); vm_compute; reflexivity.
Defined.

(** ** What a run does *)

Lemma lstrip_head (s : string) :
  lstrip s = EmptyString \/
  exists c s', lstrip s = String c s' /\ py_isspace c = false.
Proof.
  induction s as [|c s IH]; [by left|]. cbn [lstrip].
  destruct (py_isspace c) eqn:Hc; [exact IH|]. right. eauto.
Qed.

Lemma rstrip_head c (s : string) :
  py_isspace c = false -> exists r, rstrip (String c s) = String c r.
Proof. intros Hc. cbn [rstrip]. rewrite Hc. destruct (rstrip s); eauto. Qed.

Lemma rstrip_idemp (s : string) : rstrip (rstrip s) = rstrip s.
Proof.
  induction s as [|c s IH]; [done|]. cbn [rstrip].
  destruct (rstrip s) as [|x r] eqn:Hr.
  - destruct (py_isspace c) eqn:Hc; [done|]. cbn [rstrip]. by rewrite Hc.
  - cbn [rstrip] in *. by rewrite IH.
Qed.

Lemma strip_idemp (s : string) : strip (strip s) = strip s.
Proof.
  unfold strip. destruct (lstrip_head s) as [->|(c & s' & -> & Hc)]; [done|].
  destruct (rstrip_head c s' Hc) as [r Hr]. rewrite Hr.
  cbn [lstrip]. rewrite Hc, <- Hr. apply rstrip_idemp.
Qed.

Lemma try_except_trace_Forall {A} (P : event -> Prop) (body : gen A) catches handler :
  Forall P body.1 -> (forall e, Forall P (handler e).1) ->
  Forall P (try_except body catches handler).1.
Proof.
  intros Hb Hh. destruct body as [t [a|e]]; [done|]. cbn [try_except].
  destruct (catches e); [|done]. specialize (Hh e).
  destruct (handler e) as [t' r]. apply Forall_app. by split.
Qed.

Lemma for_loop_trace_Forall {A St} (P : event -> Prop) (items : list A)
    (body : nat -> A -> St -> gen St) :
  (forall j x s, Forall P (body j x s).1) ->
  forall i s, Forall P (for_loop i items s body).1.
Proof.
  intros Hbody. induction items as [|x items IH]; intros i s; [constructor|].
  cbn [for_loop]. apply bind_trace_Forall; [apply Hbody|]. intros s'. apply IH.
Qed.

(** The [try] of one article asks the enrichment service at most once, and
    only about a text that is left after trimming. *)
Lemma tl_request_events E k j conf data :
  (tl_request E k j conf data).1 = [] \/
  exists tl_key content,
    conf !! "TABULA_KEY" = Some tl_key /\
    dict_get data "content" = PStr content /\
    strip content <> "" /\
    (tl_request E k j conf data).1
      = [EvPost TL_URL (tl_headers tl_key) (tl_body (strip content))].
Proof.
  unfold tl_request.
  destruct (conf !! "TABULA_KEY") as [tl_key|] eqn:Hkey.
  2:{ left. by rewrite (dict_getitem_None _ _ Hkey), bind_lift_Raise. }
  rewrite (dict_getitem_Some _ _ _ Hkey), bind_lift_Ok.
  destruct (dict_get data "content") as [| | | |content| |] eqn:Hcontent;
    try (left; cbn [py_strip]; unfold no_attribute; by rewrite bind_lift_Raise).
  cbn [py_strip]. rewrite bind_lift_Ok.
  destruct (String.eqb (strip content) "") eqn:Hblank.
  { left. reflexivity. }
  right. exists tl_key, content. apply String.eqb_neq in Hblank.
  split; [done|]. split; [done|]. split; [done|].
  rewrite !bind_fst. unfold ret, requests_post, emit. cbn [fst snd app].
  rewrite ?bind_fst, ?bind_snd. cbn [fst snd app lift].
  destruct (env_post E k j TL_URL _ _) as [r|e]; [|done].
  rewrite bind_fst. cbn [lift fst snd].
  by destruct (raise_for_status r).
Qed.

Lemma tl_request_run_events E k j conf data :
  Forall (run_event E conf) (tl_request E k j conf data).1.
Proof.
  destruct (tl_request_events E k j conf data)
    as [->|(tl_key & content & Hkey & _ & Hne & ->)]; [constructor|].
  constructor; [|constructor]. exists tl_key, (strip content).
  repeat split; try done. apply strip_idemp.
Qed.

(** Whatever holds of the events of the lookup, of a source request, of
    the enrichment of an article, of a yield and of the message that
    reports the new state holds of every event of a run. *)
Lemma update_trace_Forall E (conf : config) (state : dict) (P : event -> Prop) :
  (forall ev, is_db_event ev -> P ev) ->
  (forall headers params, P (EvGet BASE_API_URL headers params)) ->
  (forall k j data, Forall P (enrich E k j conf data).1) ->
  (forall o, P (EvYield o)) ->
  P (EvLog Fine (fine_message E (PStr (strftime (env_now E) TS_FORMAT)))) ->
  Forall P (update E conf state).1.
Proof.
  intros Hdb Hget Henrich Hyield Hfine.
  assert (forall k headers params topic,
            Forall P (sync_items E k headers params state topic conf).1) as Hitems.
  { intros k headers params topic. unfold sync_items.
    apply bind_trace_Forall.
    { rewrite fetch_articles_fst. constructor; [apply Hget|constructor]. }
    intros articles. apply bind_trace_Forall.
    - apply for_loop_trace_Forall. intros j article _. unfold sync_article.
      apply bind_trace_Forall; [constructor|]. intros data.
      apply bind_trace_Forall; [apply Henrich|]. intros data'.
      constructor; [apply Hyield|constructor].
    - intros _. constructor; [apply Hyield|constructor]. }
  assert (forall headers params topics,
            Forall P (sync_topics E headers params state topics conf).1) as Htopics.
  { intros headers params topics. unfold sync_topics.
    apply for_loop_trace_Forall. intros k topic p. unfold topic_body.
    apply bind_trace_Forall; [apply Hitems|]. intros _. constructor. }
  pose proof (get_last_published_at_trace E conf) as Htr.
  pose proof (get_last_published_at_None E conf) as Hnone.
  destruct (get_last_published_at E conf) as [t0 [v|e]] eqn:Hl; cbn [fst snd] in *.
  2:{ unfold update. rewrite Hl. cbn [bind fst]. eapply Forall_impl; eauto. }
  rewrite (Hnone v eq_refl) in Hl. clear Hnone.
  assert (Forall P t0) as H0 by (eapply Forall_impl; eauto).
  rewrite (update_stops E conf state t0 Hl).
  destruct (query_window E state PNone) as [[qs qe]|e] eqn:Hw; [|done].
  pose proof (query_window_end _ _ _ _ _ Hw) as ->.
  destruct (conf !! "PAGE_SIZE") as [ps|]; [|done].
  destruct (conf !! "NEWS_API_KEY") as [key|]; [|done].
  destruct (conf !! "TOPIC") as [topic_list|]; [|done].
  specialize (Htopics (api_headers key)
                (api_params qs (strftime (env_now E) TS_FORMAT) ps)
                (split "," topic_list)).
  destruct (sync_topics E (api_headers key) _ state (split "," topic_list) conf)
    as [t [p'|e]]; cbn [fst] in *.
  - apply Forall_app. split; [done|]. apply Forall_app. split; [done|].
    constructor; [done|]. constructor; [apply Hyield|constructor].
  - apply Forall_app. by split.
Qed.

Lemma enrich_run_events E k j conf data :
  Forall (run_event E conf) (enrich E k j conf data).1.
Proof.
  rewrite enrich_eq. cbn zeta.
  pose proof (tl_request_run_events E k j conf data) as Ht.
  destruct (try_enrich E k j conf data).2 as [|err]; [done|].
  destruct (is_Exception err) eqn:Herr; [|done].
  apply Forall_app. split; [done|]. constructor; [|constructor].
  exists err. by split.
Qed.

(** X9: everything a run does.  It talks to the warehouse, asks the source
    at [BASE_API_URL], asks the enrichment service at [TL_URL] (with the
    configured [TABULA_KEY] as [Auth], accepting JSON, about a text that is
    not empty and has no whitespace at either end), logs the warning of an
    exception caught while enriching, logs the new state, and yields;
    nothing else.  Without a [TABULA_KEY] it never asks the enrichment
    service. *)
Theorem run_events E (conf : config) (state : dict) :
  Forall (run_event E conf) (update E conf state).1 /\
  (conf !! "TABULA_KEY" = None -> posts (update E conf state).1 = []).
Proof.
  assert (Forall (run_event E conf) (update E conf state).1) as Hrun.
  { apply update_trace_Forall; try done.
    - by intros [].
    - intros k j data. apply enrich_run_events. }
  split; [done|]. intros Hkey.
  induction Hrun as [|ev t Hev _ IH]; [done|].
  destruct ev; cbn [posts omap] in *; try done.
  destruct Hev as (tl_key & _ & Hsome & _). congruence.
Qed.

Lemma warnings_Forall (P : string -> Prop) (t : list event) :
  Forall (fun ev => match ev with EvLog Warning m => P m | _ => True end) t ->
  Forall P (warnings t).
Proof.
  induction 1 as [|ev t Hev _ IH]; [constructor|].
  destruct ev as [| | | |[] m|]; cbn [warnings omap] in *; try done.
  by constructor.
Qed.

Lemma enrich_without_key E k j (conf : config) (data : dict) :
  conf !! "TABULA_KEY" = None ->
  try_enrich E k j conf data = (data, Raise (key_error "TABULA_KEY")) /\
  enrich E k j conf data
    = ([EvLog Warning (tl_warning E (key_error "TABULA_KEY"))], Ok data).
Proof.
  intros Hkey.
  assert (tl_request E k j conf data = ([], Raise (key_error "TABULA_KEY"))) as Ht.
  { unfold tl_request. by rewrite (dict_getitem_None _ _ Hkey), bind_lift_Raise. }
  assert (try_enrich E k j conf data = (data, Raise (key_error "TABULA_KEY"))) as Hd.
  { unfold try_enrich. by rewrite Ht. }
  split; [done|]. rewrite enrich_eq. cbn zeta. by rewrite Hd, Ht.
Qed.

(** X10: a configuration without [TABULA_KEY] does not stop a run.  The
    enrichment of every article ends at once with the [KeyError] of that
    entry, which is caught: one warning is logged and the record goes on
    unchanged.  So every record upserted has exactly the eight base
    fields, and the warnings of the run are all that same one. *)
Theorem missing_tabula_key E (conf : config) (state : dict) :
  conf !! "TABULA_KEY" = None ->
  (forall k j data,
     enrich E k j conf data
       = ([EvLog Warning (tl_warning E (key_error "TABULA_KEY"))], Ok data)) /\
  Forall (fun o => match o with
                   | Upsert _ d => dom d = base_keys
                   | Checkpoint _ => True
                   end)
    (ops (update E conf state).1) /\
  Forall (fun m => m = tl_warning E (key_error "TABULA_KEY"))
    (warnings (update E conf state).1).
Proof.
  intros Hkey. split; [|split].
  - intros k j data. by apply enrich_without_key.
  - eapply Forall_impl; [apply update_ops|]. intros o [[->|H]| ->]; try done.
    destruct H as (d & k & topic & j & article & -> & data & Hb & ->).
    destruct (enrich_without_key E k j conf data Hkey) as [-> _].
    by destruct (base_record_dom _ _ _ Hb) as [Hdom _].
  - apply warnings_Forall, update_trace_Forall; try done.
    + by intros [].
    + intros k j data.
      destruct (enrich_without_key E k j conf data Hkey) as [_ ->].
      by repeat constructor.
Qed.

Lemma missing_tabula_key_witness :
  let conf := delete "TABULA_KEY" sample_conf in
  (forall k j data,
     enrich sample_env k j conf data
       = ([EvLog Warning (tl_warning sample_env (key_error "TABULA_KEY"))],
          Ok data)) /\
  Forall (fun o => match o with
                   | Upsert _ d => dom d = base_keys
                   | Checkpoint _ => True
                   end)
    (ops (update sample_env conf sample_state).1) /\
  Forall (fun m => m = tl_warning sample_env (key_error "TABULA_KEY"))
    (warnings (update sample_env conf sample_state).1).
Proof.
  apply (missing_tabula_key sample_env (delete "TABULA_KEY" sample_conf)
           sample_state).
  vm_compute. reflexivity.
Defined.

(** ** The records of a topic *)

Lemma base_record_fields topic article data :
  base_record topic article = Ok data -> base_fields_of topic article data.
Proof.
  unfold base_record, base_fields_of, copies.
  destruct (getitem_str article "source") as [source|]; [|done]. cbn [res_bind].
  destruct (getitem_str source "name") as [source_name|] eqn:Hname; [|done].
  cbn [res_bind].
  destruct (getitem_str article "publishedAt") as [published_at|]; [|done].
  cbn [res_bind].
  destruct (getitem_str article "author") as [author|]; [|done]. cbn [res_bind].
  destruct (getitem_str article "title") as [title|]; [|done]. cbn [res_bind].
  destruct (getitem_str article "description") as [description|]; [|done].
  cbn [res_bind].
  destruct (getitem_str article "content") as [content|]; [|done]. cbn [res_bind].
  destruct (getitem_str article "url") as [article_url|]; [|done]. cbn [res_bind].
  intros [= <-]. unfold dict_literal. cbn [foldl fst snd].
  split; [by simplify_map_eq|]. split.
  { exists source. split; [done|]. exists source_name. split; [done|].
    by simplify_map_eq. }
  repeat split; (eexists; split; [reflexivity|by simplify_map_eq]).
Qed.

Lemma record_of_fields E k topic conf j article d :
  record_of E k topic conf j article d -> base_fields_of topic article d.
Proof.
  intros (data & Hb & ->). pose proof (base_record_fields _ _ _ Hb) as H.
  unfold base_fields_of, copies in *.
  rewrite !(try_enrich_lookup_other E k j conf data);
    [exact H|vm_compute; set_solver..].
Qed.

(** X11: the records of a topic follow its articles.  When the source
    answers with a list of articles, [sync_items] upserts one record per
    article, in the order of the list: as many records as articles, then
    the checkpoint, when it completes, and strictly fewer records than
    articles, without the checkpoint, when it stops; the record of an
    article holds the topic and the article's [source.name],
    [publishedAt], [author], [title], [description], [content] and [url],
    which the enrichment never overwrites. *)
Theorem records_follow_the_articles E k headers params state topic conf articles :
  (fetch_articles E k headers params).2 = Ok articles ->
  exists records : list dict,
    ops (sync_items E k headers params state topic conf).1
      = map (Upsert "article") records
        ++ match (sync_items E k headers params state topic conf).2 with
           | Ok _ => [Checkpoint state]
           | Raise _ => []
           end /\
    match (sync_items E k headers params state topic conf).2 with
    | Ok _ => length records = length articles
    | Raise _ => (length records < length articles)%nat
    end /\
    forall j d, records !! j = Some d ->
      exists article, articles !! j = Some article /\
                      base_fields_of topic article d.
Proof.
  intros Hfetch.
  destruct (sync_items_spec E k headers params state topic conf) as [_ H].
  rewrite Hfetch in H. destruct H as (records & Hrec & H).
  exists records.
  assert (forall j d, records !! j = Some d ->
            exists article, articles !! j = Some article /\
                            base_fields_of topic article d) as Hfields.
  { intros j d Hj. destruct (Hrec j d Hj) as (article & Ha & Hr).
    exists article. split; [done|]. by eapply record_of_fields. }
  destruct (sync_items E k headers params state topic conf).2 as [[]|e];
    destruct H as [Hlen ->].
  - done.
  - by rewrite app_nil_r.
Qed.

Lemma records_follow_the_articles_witness :
  exists records : list dict,
    ops (sync_items sample_env 0 (api_headers "news-key") ∅ sample_state "ai"
           sample_conf).1
      = map (Upsert "article") records
        ++ match (sync_items sample_env 0 (api_headers "news-key") ∅
                    sample_state "ai" sample_conf).2 with
           | Ok _ => [Checkpoint sample_state]
           | Raise _ => []
           end /\
    match (sync_items sample_env 0 (api_headers "news-key") ∅ sample_state "ai"
             sample_conf).2 with
    | Ok _ => length records = 3%nat
    | Raise _ => (length records < 3)%nat
    end /\
    forall j d, records !! j = Some d ->
      exists article,
        [sample_article "bbc" "2024-01-09T01:00:00Z" "first text";
         sample_article "cnn" "2024-01-09T02:00:00Z" "   ";
         sample_article "npr" "2024-01-09T03:00:00Z" "third text"] !! j
          = Some article /\
        base_fields_of "ai" article d.
Proof.
  apply (records_follow_the_articles sample_env 0 (api_headers "news-key") ∅
           sample_state "ai" sample_conf
           [sample_article "bbc" "2024-01-09T01:00:00Z" "first text";
            sample_article "cnn" "2024-01-09T02:00:00Z" "   ";
            sample_article "npr" "2024-01-09T03:00:00Z" "third text"]).
  reflexivity.
Defined.

Lemma for_loop_posts_le {A St} (items : list A) (body : nat -> A -> St -> gen St) :
  (forall j x s, (length (posts (body j x s).1) <= 1)%nat) ->
  forall i s, (length (posts (for_loop i items s body).1) <= length items)%nat.
Proof.
  intros Hbody. induction items as [|x items IH]; intros i s; [done|].
  cbn [for_loop length]. rewrite bind_fst, posts_app, length_app.
  specialize (Hbody i x s). destruct (body i x s).2 as [s'|e].
  - specialize (IH (S i) s'). lia.
  - cbn. lia.
Qed.

Lemma enrich_posts_le E k j conf data :
  (length (posts (enrich E k j conf data).1) <= 1)%nat.
Proof.
  rewrite enrich_eq. cbn zeta.
  assert (length (posts (tl_request E k j conf data).1) <= 1)%nat as Ht.
  { destruct (tl_request_events E k j conf data)
      as [->|(tl_key & content & _ & _ & _ & ->)]; cbn; lia. }
  destruct (try_enrich E k j conf data).2 as [|err]; [done|].
  destruct (is_Exception err); [|done].
  cbn [fst]. rewrite posts_app, length_app.
  change (posts [EvLog Warning (tl_warning E err)]) with (@nil (string * dict * pyval)).
  cbn [length]. lia.
Qed.

Lemma posts_nil : posts [] = [].
Proof. reflexivity. Qed.

Lemma posts_yield o : posts (yield o).1 = [].
Proof. reflexivity. Qed.

Lemma sync_article_posts_le E k topic conf j article :
  (length (posts (sync_article E k topic conf j article).1) <= 1)%nat.
Proof.
  unfold sync_article. rewrite bind_fst, posts_app. cbn [lift fst snd].
  rewrite posts_nil. cbn [app].
  destruct (base_record topic article) as [data|]; [|cbn; lia].
  rewrite bind_fst, posts_app, length_app.
  pose proof (enrich_posts_le E k j conf data) as He.
  destruct (enrich E k j conf data).2 as [data'|];
    rewrite ?posts_yield, ?posts_nil; cbn [length]; lia.
Qed.

(** X12: [sync_items] asks the enrichment service at most once per article
    of the source's answer, and not at all when the source's answer is
    missing or cannot be read. *)
Theorem one_enrichment_request_per_article E k headers params state topic conf :
  match (fetch_articles E k headers params).2 with
  | Ok articles =>
      (length (posts (sync_items E k headers params state topic conf).1)
       <= length articles)%nat
  | Raise _ => posts (sync_items E k headers params state topic conf).1 = []
  end.
Proof.
  unfold sync_items. rewrite bind_fst, posts_app, fetch_articles_fst.
  change (posts [EvGet BASE_API_URL headers params])
    with (@nil (string * dict * pyval)).
  cbn [app].
  destruct (fetch_articles E k headers params).2 as [articles|e]; [|done].
  rewrite bind_fst.
  pose proof (for_loop_posts_le articles
                (fun j article (_ : unit) => sync_article E k topic conf j article)
                (fun j x _ => sync_article_posts_le E k topic conf j x)
                0%nat tt) as Hloop.
  rewrite posts_app, length_app.
  destruct (for_loop 0 articles tt _).2;
    rewrite ?posts_yield, ?posts_nil; cbn [length]; lia.
Qed.

(** ** Runs that stop in the middle *)

Lemma bind_assoc {A B C} (m : gen A) (f : A -> gen B) (g : B -> gen C) :
  bind (bind m f) g = bind m (fun a => bind (f a) g).
Proof.
  destruct m as [t [a|e]]; [|done]. cbn [bind].
  destruct (f a) as [t' [b|e']]; cbn [bind]; [|done].
  destruct (g b) as [t'' r]. by rewrite app_assoc.
Qed.

Lemma for_loop_app {A St} (l1 l2 : list A) (body : nat -> A -> St -> gen St) :
  forall i s,
    for_loop i (l1 ++ l2) s body
    = bind (for_loop i l1 s body)
        (fun s' => for_loop (i + length l1) l2 s' body).
Proof.
  induction l1 as [|x l1 IH]; intros i s.
  - cbn [app for_loop length]. rewrite Nat.add_0_r. unfold ret. cbn [bind].
    by destruct (for_loop i l2 s body).
  - cbn [app for_loop length]. rewrite bind_assoc.
    assert (forall s', for_loop (S i) (l1 ++ l2) s' body
                       = bind (for_loop (S i) l1 s' body)
                           (fun s'' => for_loop (i + S (length l1)) l2 s'' body)) as H.
    { intros s'. rewrite IH. by rewrite Nat.add_succ_r. }
    destruct (body i x s) as [t [s'|e]]; cbn [bind]; [|done].
    by rewrite H.
Qed.

Lemma getitem_base_record_exc topic article e :
  base_record topic article = Raise e -> is_Exception e = true.
Proof.
  unfold base_record.
  repeat match goal with
         | |- context [res_bind (getitem_str ?v ?key) _] =>
             let H := fresh "H" in
             destruct (getitem_str v key) eqn:H;
             [cbn [res_bind]
             |cbn [res_bind]; intros [= <-]; by eapply getitem_str_exc]
         end.
  done.
Qed.

(** The loop over the articles stops at the first one it cannot read. *)
Lemma article_loop_stops E k topic conf (before : list pyval) article after e :
  (forall i a, before !! i = Some a ->
     (sync_article E k topic conf i a).2 = Ok tt) ->
  base_record topic article = Raise e ->
  (for_loop 0 (before ++ article :: after) tt
     (fun j a _ => sync_article E k topic conf j a)).2 = Raise e /\
  exists records : list dict,
    length records = length before /\
    ops (for_loop 0 (before ++ article :: after) tt
           (fun j a _ => sync_article E k topic conf j a)).1
      = map (Upsert "article") records.
Proof.
  intros Hbefore Hbad. rewrite for_loop_app.
  pose proof (article_loop_total E k topic conf before 0 Hbefore) as Hok.
  destruct (article_loop_spec E k topic conf before 0)
    as (_ & records & Hops & _ & Hlen).
  rewrite Hok in Hlen. rewrite bind_fst, bind_snd, Hok, ops_app, Hops.
  cbn [for_loop]. rewrite bind_fst, bind_snd.
  assert (sync_article E k topic conf (0 + length before) article = ([], Raise e))
    as ->.
  { unfold sync_article. by rewrite Hbad, bind_lift_Raise. }
  cbn [fst snd]. split; [done|]. exists records. split; [done|].
  cbn [ops omap app]. by rewrite app_nil_r.
Qed.

(** X13: an article that cannot be read stops the topic.  When the [j]-th
    article of the source's answer lacks one of the fields the record is
    built from, and the ones before it are well formed, [sync_items]
    raises the error of that subscript: exactly [j] records have been
    upserted, the articles that follow are not looked at, and the topic's
    checkpoint is not yielded. *)
Theorem malformed_article_is_fatal E k headers params state topic conf
    (articles : list pyval) (j : nat) article e :
  raises_exceptions_only E k ->
  (fetch_articles E k headers params).2 = Ok articles ->
  articles !! j = Some article ->
  base_record topic article = Raise e ->
  (forall i a, (i < j)%nat -> articles !! i = Some a ->
     exists data, base_record topic a = Ok data) ->
  (sync_items E k headers params state topic conf).2 = Raise e /\
  is_Exception e = true /\
  exists records : list dict,
    length records = j /\
    ops (sync_items E k headers params state topic conf).1
      = map (Upsert "article") records.
Proof.
  intros Hpost Hfetch Hj Hbad Hbefore.
  destruct (article_loop_stops E k topic conf (take j articles) article
              (drop (S j) articles) e) as (Hfail & records & Hlen & Hops);
    [|done|].
  { intros i a Hi. apply lookup_take_Some in Hi as [Ha Hlt].
    destruct (Hbefore i a Hlt Ha) as [data Hd].
    by eapply sync_article_total. }
  rewrite (take_drop_middle _ _ _ Hj) in Hfail, Hops.
  split; [|split; [by eapply getitem_base_record_exc|]].
  - unfold sync_items. by rewrite bind_snd, Hfetch, bind_snd, Hfail.
  - exists records. split.
    { rewrite Hlen, length_take_le; [done|]. apply lookup_lt_Some in Hj. lia. }
    unfold sync_items. rewrite bind_fst, ops_app, fetch_articles_fst, Hfetch.
    rewrite bind_fst, ops_app, Hops, Hfail. cbn [ops omap app].
    by rewrite app_nil_r.
Qed.

Lemma malformed_article_is_fatal_witness :
  (sync_items malformed_env 0 (api_headers "news-key") ∅ sample_state "ai"
     sample_conf).2 = Raise (key_error "source") /\
  is_Exception (key_error "source") = true /\
  exists records : list dict,
    length records = 1%nat /\
    ops (sync_items malformed_env 0 (api_headers "news-key") ∅ sample_state "ai"
           sample_conf).1
      = map (Upsert "article") records.
Proof.
  apply (malformed_article_is_fatal malformed_env 0 (api_headers "news-key") ∅
           sample_state "ai" sample_conf
           [sample_article "bbc" "2024-01-09T01:00:00Z" "first text";
            PDict [("title", PStr "A title")]]
           1 (PDict [("title", PStr "A title")]) (key_error "source")).
  - intros j headers body e. discriminate.
  - reflexivity.
  - reflexivity.
  - reflexivity.
  - intros [|i] a Hi Ha; [|lia]. cbn in Ha. simplify_eq. eexists. reflexivity.
Defined.

Lemma enrich_no_fine E k j conf data :
  Forall (fun ev => match ev with EvLog Fine _ => False | _ => True end)
    (enrich E k j conf data).1.
Proof.
  rewrite enrich_eq. cbn zeta.
  assert (Forall (fun ev => match ev with EvLog Fine _ => False | _ => True end)
            (tl_request E k j conf data).1) as Hposts.
  { eapply Forall_impl; [apply tl_request_trace|]. by intros [| | | |[]|]. }
  destruct (try_enrich E k j conf data).2 as [|err]; [exact Hposts|].
  destruct (is_Exception err); [|exact Hposts].
  apply Forall_app. split; [exact Hposts|]. by repeat constructor.
Qed.

(** The [k]-th request of a run is the request of its [k]-th topic, and
    when [sync_items] raises for that topic the run ends there: with the
    wrapped error if the exception is an [Exception], with the exception
    itself if it is not. *)
Lemma run_fails_at_topic E (conf : config) (state : dict)
    (k : nat) (request : string * dict * dict) :
  gets (update E conf state).1 !! k = Some request ->
  exists topic,
    request.1.1 = BASE_API_URL /\
    forall e0,
      (sync_items E k request.1.2 request.2 state topic conf).2 = Raise e0 ->
      (update E conf state).2
        = Raise (if is_Exception e0 then wrapped_error E e0 else e0) /\
      length (gets (update E conf state).1) = S k /\
      fine_logs (update E conf state).1 = [].
Proof.
  intros Hreq.
  destruct (update_cases E conf state) as [(_ & Hg & _)|Hrun].
  { by rewrite Hg in Hreq. }
  destruct Hrun as (t0 & qs & ps & key & topic_list & Hl & Hw & Hp & Hk & Ht).
  rewrite (update_connected E conf state _ _ _ _ _ _ Hl Hw Hp Hk Ht) in Hreq |- *.
  pose proof (get_last_published_at_trace E conf) as Hdb.
  rewrite Hl in Hdb. cbn [fst] in Hdb.
  assert (fine_logs t0 = []) as Hf0.
  { clear -Hdb. induction Hdb as [|ev t Hev _ IH]; [done|]. by destruct ev. }
  apply db_events_silent in Hdb as [Ho0 Hg0].
  set (params := api_params qs (strftime (env_now E) TS_FORMAT) ps) in *.
  set (headers := api_headers key) in *.
  set (topics := split "," topic_list) in *.
  destruct (sync_topics_spec E headers params state topics conf)
    as (m & Hm & Hloop & Hpre & Hout).
  assert (gets (sync_topics E headers params state topics conf).1
          = topic_request headers params <$> take m topics)
    as Hgets by (by rewrite Hloop, topic_runs_gets).
  assert (Forall (fun ev => match ev with EvLog Fine _ => False | _ => True end)
            (sync_topics E headers params state topics conf).1) as Hnofine.
  { unfold sync_topics. apply for_loop_trace_Forall. intros b topic p.
    unfold topic_body. apply bind_trace_Forall; [|intros; constructor].
    unfold sync_items. apply bind_trace_Forall.
    { rewrite fetch_articles_fst. by repeat constructor. }
    intros articles. apply bind_trace_Forall; [|intros; by repeat constructor].
    apply for_loop_trace_Forall. intros j article _. unfold sync_article.
    apply bind_trace_Forall; [constructor|]. intros data.
    apply bind_trace_Forall; [|intros; by repeat constructor].
    apply enrich_no_fine. }
  assert (exists topic, topics !! k = Some topic /\ (k < m)%nat /\
                        request = topic_request headers params topic)
    as (topic & Htopic & Hkm & ->).
  { destruct (sync_topics E headers params state topics conf) as [t [p'|e]];
      cbn [fst snd] in *; rewrite ?gets_app, Hg0, Hgets in Hreq;
      cbn [app gets omap] in Hreq; rewrite ?app_nil_r in Hreq;
      apply list_lookup_fmap_Some in Hreq as (topic & -> & Hreq);
      apply lookup_take_Some in Hreq as [? ?]; eauto. }
  exists topic. split; [done|]. cbn [topic_request fst snd].
  intros e0 Hfail. fold (topic_run E headers params state conf k topic) in Hfail.
  destruct (sync_topics E headers params state topics conf) as [t [p'|e]];
    cbn [fst snd] in *.
  { destruct Hout as [_ Hall]. rewrite (Hall k topic Htopic) in Hfail. done. }
  destruct Hout as (b & topic' & -> & Htopic' & Hfail').
  assert (b = k) as ->.
  { destruct (decide (b = k)) as [|Hne]; [done|].
    rewrite (Hpre k topic Htopic) in Hfail by lia. done. }
  assert (topic' = topic) as -> by congruence.
  assert (e = e0) as -> by congruence.
  split; [done|]. split.
  - rewrite gets_app, Hg0, Hgets. cbn [app]. rewrite length_fmap.
    by rewrite length_take_le.
  - unfold fine_logs in *. rewrite omap_app, Hf0. cbn [app].
    clear -Hnofine. induction Hnofine as [|ev t' Hev _ IH]; [done|].
    by destruct ev as [| | | |[]|].
Qed.

(** X14: what is not an [Exception] is not wrapped.  When the source
    request of the [k]-th topic raises something that [except Exception]
    does not catch (a [KeyboardInterrupt], a [SystemExit]), [update] ends
    with that very exception instead of the [RuntimeError]; the run has
    made [k + 1] requests and has not logged a new state. *)
Theorem base_exception_is_not_wrapped E (conf : config) (state : dict)
    (k : nat) (request : string * dict * dict) (e0 : exn) :
  gets (update E conf state).1 !! k = Some request ->
  env_get E k request.1.1 request.1.2 request.2 = Raise e0 ->
  is_Exception e0 = false ->
  (update E conf state).2 = Raise e0 /\
  length (gets (update E conf state).1) = S k /\
  fine_logs (update E conf state).1 = [].
Proof.
  intros Hreq Hget Hbase.
  destruct (run_fails_at_topic E conf state k request Hreq)
    as (topic & Hurl & Hfail).
  rewrite Hurl in Hget.
  destruct (Hfail e0) as (Hres & Hlen & Hfine).
  { unfold sync_items, fetch_articles, requests_get.
    rewrite !bind_snd. cbn [emit snd lift]. by rewrite Hget. }
  by rewrite Hbase in Hres.
Qed.

Lemma base_exception_is_not_wrapped_witness :
  (update interrupted_env sample_conf sample_state).2 = Raise interrupted /\
  length (gets (update interrupted_env sample_conf sample_state).1) = 2%nat /\
  fine_logs (update interrupted_env sample_conf sample_state).1 = [].
Proof.
  apply (base_exception_is_not_wrapped interrupted_env sample_conf sample_state 1
           (topic_request (api_headers "news-key")
              (api_params (PStr "2024-01-08T12:00:00") "2024-01-10T12:00:00" "100")
              "chips")
           interrupted); vm_compute; reflexivity.
Defined.

(** X15: the status of the source's answer is not looked at, and an error
    document is not read.  When the answer to the [k]-th request decodes to
    an object without [articles] (as the error documents of the source do,
    whatever their status, code and message), [.get("articles")] is [None]
    and the [for] raises a [TypeError]: the run ends with the
    [RuntimeError] that wraps "'NoneType' object is not iterable", after
    [k + 1] requests. *)
Theorem error_document_is_not_read E (conf : config) (state : dict)
    (k : nat) (request : string * dict * dict) (r : response)
    (document : list (string * pyval)) :
  gets (update E conf state).1 !! k = Some request ->
  env_get E k request.1.1 request.1.2 request.2 = Ok r ->
  json_body r = inl (PDict document) ->
  assoc "articles" document = None ->
  (update E conf state).2 = Raise (wrapped_error E none_not_iterable) /\
  exn_str (wrapped_error E none_not_iterable)
    = "Error Message: 'NoneType' object is not iterable" +:+ nl
      +:+ "Stack Trace:" +:+ nl +:+ env_format_exc E none_not_iterable /\
  length (gets (update E conf state).1) = S k.
Proof.
  intros Hreq Hget Hbody Hnone.
  destruct (run_fails_at_topic E conf state k request Hreq)
    as (topic & Hurl & Hfail).
  rewrite Hurl in Hget.
  destruct (Hfail none_not_iterable) as (Hres & Hlen & _).
  { unfold sync_items, fetch_articles, requests_get.
    rewrite !bind_snd. cbn [emit snd lift]. rewrite Hget. cbn [snd].
    unfold response_json. rewrite Hbody. cbn [res_bind py_get].
    by rewrite Hnone. }
  done.
Qed.

Lemma error_document_is_not_read_witness :
  (update refused_env sample_conf sample_state).2
    = Raise (wrapped_error refused_env none_not_iterable) /\
  exn_str (wrapped_error refused_env none_not_iterable)
    = "Error Message: 'NoneType' object is not iterable" +:+ nl
      +:+ "Stack Trace:" +:+ nl +:+ env_format_exc refused_env none_not_iterable /\
  length (gets (update refused_env sample_conf sample_state).1) = 1%nat.
Proof.
  apply (error_document_is_not_read refused_env sample_conf sample_state 0
           (topic_request (api_headers "news-key")
              (api_params (PStr "2024-01-08T12:00:00") "2024-01-10T12:00:00" "100")
              "ai")
           {| status_code := 401; reason := "Unauthorized";
              url := "https://newsapi.org/v2/everything";
              json_body :=
                inl (PDict [("status", PStr "error");
                            ("code", PStr "apiKeyInvalid");
                            ("message", PStr "Your API key is invalid.")]) |}
           [("status", PStr "error"); ("code", PStr "apiKeyInvalid");
            ("message", PStr "Your API key is invalid.")]);
    vm_compute; reflexivity.
Defined.

(** ** Records and the schema, requests and the configuration *)

Lemma list_to_set_take (n : nat) (l : list string) :
  list_to_set (C := gset string) (take n l) ⊆ list_to_set l.
Proof.
  rewrite <- (take_drop n l) at 2. rewrite list_to_set_app_L. set_solver.
Qed.

(** X16: the records fit the schema, but for [topic].  The schema declares
    one table whose column names are distinct and include its primary key;
    every upsert of a run goes to that table, holds a value for each
    column of the primary key, and has no key outside the declared columns
    other than [topic]. *)
Theorem upserts_fit_the_schema E (conf : config) (state : dict) :
  exists td,
    schema conf = [td] /\
    NoDup (columns td).*1 /\
    primary_key td ⊆ (columns td).*1 /\
    Forall (fun o => match o with
                     | Upsert tb d =>
                         tb = table td /\
                         dom d ⊆ list_to_set (columns td).*1 ∪ {[ "topic" ]} /\
                         Forall (fun key => is_Some (d !! key)) (primary_key td)
                     | Checkpoint _ => True
                     end)
      (ops (update E conf state).1).
Proof.
  eexists. split; [reflexivity|]. cbn [columns primary_key table].
  split; [apply (bool_decide_unpack _); by vm_compute|].
  split; [cbn; set_solver|].
  eapply Forall_impl; [apply update_ops|]. intros o [[->|H]| ->]; try done.
  destruct H as (d & k & topic & j & article & -> & Hr).
  destruct (record_of_keys _ _ _ _ _ _ _ Hr) as (n & _ & Hd & _).
  split; [done|]. split.
  - rewrite Hd. pose proof (list_to_set_take n enrichment_keys) as Hsub.
    assert (base_keys ∪ list_to_set enrichment_keys
            ⊆ list_to_set
                [ ("source", "STRING"); ("published_at", "UTC_DATETIME");
                  ("author", "STRING"); ("title", "STRING");
                  ("description", "STRING"); ("content", "STRING");
                  ("url", "STRING"); ("blue", "FLOAT"); ("red", "FLOAT");
                  ("p0", "FLOAT"); ("p1", "FLOAT"); ("p2", "FLOAT");
                  ("p3", "FLOAT"); ("p4", "FLOAT"); ("p5", "FLOAT");
                  ("p6", "FLOAT"); ("p7", "FLOAT") ].*1 ∪ ({[ "topic" ]} : gset string))
      as Hall by (apply (bool_decide_unpack _); by vm_compute).
    set_solver.
  - assert (base_keys ⊆ dom d) as Hbase by (rewrite Hd; set_solver).
    repeat constructor; apply elem_of_dom, Hbase; set_solver.
Qed.

(** X17: the requests of a run that completes spell out [TOPIC].  The
    values of [q], in the order of the requests, joined by commas, are the
    configured text: there is one request more than there are commas (one
    request with an empty [q] for an empty [TOPIC]), no [q] holds a comma,
    and nothing is trimmed, skipped or merged. *)
Theorem requests_spell_out_TOPIC E (conf : config) (state : dict) :
  (update E conf state).2 = Ok tt ->
  exists (topic_list : string) (topics : list string),
    conf !! "TOPIC" = Some topic_list /\
    String.concat "," topics = topic_list /\
    length topics = S (count_char "," topic_list) /\
    Forall (fun topic => count_char "," topic = 0%nat) topics /\
    (fun request : string * dict * dict => request.2 !! "q")
      <$> gets (update E conf state).1
    = (fun topic => Some (PStr topic)) <$> topics.
Proof.
  intros Hok.
  destruct (update_cases E conf state) as [(_ & _ & e & He)|Hrun]; [congruence|].
  destruct Hrun as (t0 & qs & ps & key & topic_list & Hl & Hw & Hp & Hk & Ht).
  exists topic_list, (split "," topic_list).
  split; [done|]. split; [apply join_split|]. split; [apply split_length|].
  split.
  { eapply Forall_impl; [apply split_parts|]. intros part Hpart.
    unfold count_char. by rewrite Hpart. }
  rewrite (update_connected E conf state _ _ _ _ _ _ Hl Hw Hp Hk Ht) in Hok |- *.
  pose proof (get_last_published_at_trace E conf) as Hdb.
  rewrite Hl in Hdb. apply db_events_silent in Hdb as [_ Hg0].
  set (params := api_params qs (strftime (env_now E) TS_FORMAT) ps) in *.
  destruct (sync_topics_spec E (api_headers key) params state
              (split "," topic_list) conf) as (m & Hm & Hloop & _ & Hout).
  assert (gets (sync_topics E (api_headers key) params state
                  (split "," topic_list) conf).1
          = topic_request (api_headers key) params <$> take m (split "," topic_list))
    as Hgets by (by rewrite Hloop, topic_runs_gets).
  destruct (sync_topics E (api_headers key) params state (split "," topic_list) conf)
    as [t [p'|e]]; cbn [fst snd] in *; [|done].
  destruct Hout as [-> _]. rewrite take_ge in Hgets by done.
  rewrite !gets_app, Hg0, Hgets. cbn [app gets omap]. rewrite app_nil_r.
  rewrite <- list_fmap_compose. apply list_fmap_ext. intros i topic _.
  unfold compose, topic_request. cbn [snd]. by rewrite lookup_insert_eq.
Qed.

Lemma requests_spell_out_TOPIC_witness :
  exists (topic_list : string) (topics : list string),
    sample_conf !! "TOPIC" = Some topic_list /\
    String.concat "," topics = topic_list /\
    length topics = S (count_char "," topic_list) /\
    Forall (fun topic => count_char "," topic = 0%nat) topics /\
    (fun request : string * dict * dict => request.2 !! "q")
      <$> gets (update sample_env sample_conf sample_state).1
    = (fun topic => Some (PStr topic)) <$> topics.
Proof.
  apply (requests_spell_out_TOPIC sample_env sample_conf sample_state).
  vm_compute. reflexivity.
Defined.

(** ** What the run does not look at *)

Lemma for_loop_ext {A St} (items : list A) (body body' : nat -> A -> St -> gen St) :
  (forall j x s, body j x s = body' j x s) ->
  forall i s, for_loop i items s body = for_loop i items s body'.
Proof.
  intros Hext. induction items as [|x items IH]; intros i s; [done|].
  cbn [for_loop]. rewrite Hext. destruct (body' i x s) as [t [s'|e]]; [|done].
  cbn [bind]. by rewrite IH.
Qed.

Lemma fetch_articles_same_answer E get k headers params :
  same_answer (env_get E k BASE_API_URL headers params)
    (get k BASE_API_URL headers params) ->
  fetch_articles (with_get E get) k headers params
    = fetch_articles E k headers params.
Proof.
  intros Hsame. unfold fetch_articles, requests_get, response_json.
  cbn [with_get env_get].
  destruct (env_get E k BASE_API_URL headers params) as [r|e],
    (get k BASE_API_URL headers params) as [r'|e']; cbn in Hsame; try done.
  - unfold emit, lift. cbn [bind]. by rewrite Hsame.
  - by subst.
Qed.

Lemma sync_topics_same_answer E get headers params state topics conf :
  (forall k u h p, same_answer (env_get E k u h p) (get k u h p)) ->
  sync_topics (with_get E get) headers params state topics conf
    = sync_topics E headers params state topics conf.
Proof.
  intros Hsame. unfold sync_topics. apply for_loop_ext. intros k topic p.
  unfold topic_body, sync_items. by rewrite fetch_articles_same_answer.
Qed.

(** X18: the status of the source's answers does not matter.  Two worlds
    whose source answers differ only in the status code, the reason and
    the address of the responses (same decoded body, or same decoding
    error, or same exception) give the same run: same events, same
    outcome. *)
Theorem status_is_not_inspected E get (conf : config) (state : dict) :
  (forall k u h p, same_answer (env_get E k u h p) (get k u h p)) ->
  update (with_get E get) conf state = update E conf state.
Proof.
  intros Hsame.
  pose proof (get_last_published_at_None E conf) as Hnone.
  destruct (get_last_published_at E conf) as [t0 [v|e]] eqn:Hl; cbn [snd] in Hnone.
  2:{ unfold update.
      change (get_last_published_at (with_get E get) conf)
        with (get_last_published_at E conf).
      by rewrite Hl. }
  rewrite (Hnone v eq_refl) in Hl.
  rewrite (update_stops E conf state t0 Hl),
    (update_stops (with_get E get) conf state t0 Hl).
  change (query_window (with_get E get) state PNone)
    with (query_window E state PNone).
  destruct (query_window E state PNone) as [[qs qe]|e]; [|done].
  destruct (conf !! "PAGE_SIZE") as [ps|]; [|done].
  destruct (conf !! "NEWS_API_KEY") as [key|]; [|done].
  destruct (conf !! "TOPIC") as [topic_list|]; [|done].
  by rewrite sync_topics_same_answer.
Qed.

Lemma status_is_not_inspected_witness :
  update
    (with_get sample_env
       (fun _ _ _ _ =>
          Ok {| status_code := 500; reason := "Internal Server Error";
                url := "https://newsapi.org/v2/everything";
                json_body := inl sample_articles |}))
    sample_conf sample_state
  = update sample_env sample_conf sample_state.
Proof.
  apply (status_is_not_inspected sample_env).
  intros k u h p. reflexivity.
Defined.

(** ** Warnings and records *)

(** A property of traces that holds of the empty trace, is kept by
    concatenation and holds of the pieces of a run holds of the run. *)
Lemma bind_trace_closed {A B} (P : list event -> Prop) (m : gen A) (k : A -> gen B) :
  P [] -> (forall a b, P a -> P b -> P (a ++ b)) ->
  P m.1 -> (forall a, P (k a).1) -> P (bind m k).1.
Proof.
  intros Hnil Happ Hm Hk. rewrite bind_fst. apply Happ; [done|].
  destruct m.2; [apply Hk|done].
Qed.

Lemma for_loop_trace_closed {A St} (P : list event -> Prop) (items : list A)
    (body : nat -> A -> St -> gen St) :
  P [] -> (forall a b, P a -> P b -> P (a ++ b)) ->
  (forall j x s, P (body j x s).1) ->
  forall i s, P (for_loop i items s body).1.
Proof.
  intros Hnil Happ Hbody. induction items as [|x items IH]; intros i s; [done|].
  cbn [for_loop]. apply bind_trace_closed; auto.
Qed.

Lemma update_trace_closed E (conf : config) (state : dict)
    (P : list event -> Prop) :
  P [] -> (forall a b, P a -> P b -> P (a ++ b)) ->
  (forall ev, is_db_event ev -> P [ev]) ->
  (forall headers params, P [EvGet BASE_API_URL headers params]) ->
  (forall k topic j article, P (sync_article E k topic conf j article).1) ->
  (forall s, P [EvYield (Checkpoint s)]) ->
  (forall m, P [EvLog Fine m]) ->
  P (update E conf state).1.
Proof.
  intros Hnil Happ Hdb Hget Harticle Hyield Hfine.
  assert (forall k headers params topic,
            P (sync_items E k headers params state topic conf).1) as Hitems.
  { intros k headers params topic. unfold sync_items.
    apply bind_trace_closed; auto.
    { rewrite fetch_articles_fst. apply Hget. }
    intros articles. apply bind_trace_closed; auto.
    - apply for_loop_trace_closed; auto.
    - intros _. apply Hyield. }
  assert (forall headers params topics,
            P (sync_topics E headers params state topics conf).1) as Htopics.
  { intros headers params topics. unfold sync_topics.
    apply for_loop_trace_closed; auto. intros k topic p. unfold topic_body.
    apply bind_trace_closed; auto. }
  pose proof (get_last_published_at_trace E conf) as Htr.
  pose proof (get_last_published_at_None E conf) as Hnone.
  assert (P (get_last_published_at E conf).1) as H0.
  { induction Htr as [|ev t Hev _ IH]; [done|].
    change (ev :: t) with ([ev] ++ t). apply Happ; auto. }
  destruct (get_last_published_at E conf) as [t0 [v|e]] eqn:Hl; cbn [fst snd] in *.
  2:{ unfold update. rewrite Hl. by cbn [bind fst]. }
  rewrite (Hnone v eq_refl) in Hl. clear Hnone.
  rewrite (update_stops E conf state t0 Hl).
  destruct (query_window E state PNone) as [[qs qe]|e] eqn:Hw; [|done].
  destruct (conf !! "PAGE_SIZE") as [ps|]; [|done].
  destruct (conf !! "NEWS_API_KEY") as [key|]; [|done].
  destruct (conf !! "TOPIC") as [topic_list|]; [|done].
  specialize (Htopics (api_headers key) (api_params qs qe ps) (split "," topic_list)).
  destruct (sync_topics E (api_headers key) _ state (split "," topic_list) conf)
    as [t [p'|e]]; cbn [fst] in *.
  - apply Happ; [done|]. apply Happ; [done|].
    change [EvLog Fine (fine_message E (PStr qe));
            EvYield (Checkpoint {[ "to_ts" := PStr qe ]})]
      with ([EvLog Fine (fine_message E (PStr qe))]
            ++ [EvYield (Checkpoint {[ "to_ts" := PStr qe ]})]).
    apply Happ; auto.
  - by apply Happ.
Qed.

Lemma try_enrich_complete E k j conf (data : dict) :
  "p7" ∉ dom data ->
  match (try_enrich E k j conf data).2 with
  | Ok _ => "p7" ∈ dom (try_enrich E k j conf data).1
  | Raise _ => "p7" ∉ dom (try_enrich E k j conf data).1
  end.
Proof.
  intros Hdata. destruct (try_enrich_spec E k j conf data) as (n & Hn & Hdom & Hout).
  rewrite Hdom. destruct (try_enrich E k j conf data).2.
  - subst n. rewrite take_ge by done. vm_compute enrichment_keys. set_solver.
  - assert (take n enrichment_keys ⊆ take 9 enrichment_keys) as Hsub.
    { intros x Hx. apply list_elem_of_lookup in Hx as [i Hi].
      apply lookup_take_Some in Hi as [Hi Hlt].
      apply list_elem_of_lookup. exists i. apply lookup_take_Some.
      split; [done|]. cbn in Hout. lia. }
    vm_compute in Hsub. vm_compute (take n enrichment_keys) in *.
    intros [|Hin%elem_of_list_to_set]%elem_of_union; [done|].
    apply Hsub in Hin. set_solver.
Qed.

(** X19: warnings and incomplete records go together.  In a run whose
    enrichment requests fail with exceptions only, as many warnings are
    logged as records are upserted without [p7]: each article whose
    enrichment stops before the last assignment is upserted incomplete and
    leaves one warning, and no other warning is logged. *)
Theorem warnings_count_incomplete_records E (conf : config) (state : dict) :
  (forall k, raises_exceptions_only E k) ->
  length (warnings (update E conf state).1)
  = length (List.filter lacks_enrichment (ops (update E conf state).1)).
Proof.
  intros Hpost.
  apply (update_trace_closed E conf state
           (fun t => length (warnings t)
                     = length (List.filter lacks_enrichment (ops t)))).
  - done.
  - intros a b Ha Hb.
    by rewrite warnings_app, ops_app, List.filter_app, !length_app, Ha, Hb.
  - by intros [].
  - done.
  - intros k topic j article. unfold sync_article.
    rewrite bind_fst. cbn [lift fst snd app].
    destruct (base_record topic article) as [data|] eqn:Hb; [|done].
    rewrite bind_fst, warnings_app, ops_app, List.filter_app, !length_app.
    destruct (enrich_total E k j conf data (Hpost k)) as [Hok Hw].
    destruct (enrich_silent E k j conf data) as [Hops _].
    rewrite Hok, Hw, Hops. cbn [yield emit fst warnings ops omap List.filter app].
    destruct (base_record_dom _ _ _ Hb) as [Hdom _].
    assert ("p7" ∉ dom data) as Hp7 by (rewrite Hdom; vm_compute; set_solver).
    pose proof (try_enrich_complete E k j conf data Hp7) as Hc.
    remember (try_enrich E k j conf data).1 as d eqn:Hd. clear Hd.
    destruct (try_enrich E k j conf data).2; cbn.
    + by rewrite bool_decide_eq_false_2 by (intros ?; done).
    + by rewrite bool_decide_eq_true_2.
  - done.
  - done.
Qed.

Lemma warnings_count_incomplete_records_witness :
  length (warnings (update sample_env sample_conf sample_state).1)
  = length (List.filter lacks_enrichment
              (ops (update sample_env sample_conf sample_state).1)).
Proof.
  apply (warnings_count_incomplete_records sample_env sample_conf sample_state).
  intros k j headers body e. discriminate.
Defined.

(** X20: an interruption of an enrichment request is not caught.  When the
    request for an article raises something that is not an [Exception],
    the [except Exception] of [sync_items] lets it through: no warning is
    logged, the article is not upserted, and the loop ends with that
    exception. *)
Theorem interrupted_enrichment_is_not_caught E k j (conf : config)
    (topic : string) (article : pyval) (data : dict)
    (tl_key content : string) (e0 : exn) :
  base_record topic article = Ok data ->
  conf !! "TABULA_KEY" = Some tl_key ->
  dict_get data "content" = PStr content ->
  strip content <> "" ->
  env_post E k j TL_URL (tl_headers tl_key) (tl_body (strip content)) = Raise e0 ->
  is_Exception e0 = false ->
  sync_article E k topic conf j article
    = ([EvPost TL_URL (tl_headers tl_key) (tl_body (strip content))], Raise e0).
Proof.
  intros Hb Hkey Hcontent Hne Hpost Hbase.
  destruct (tl_request_events E k j conf data)
    as [Hnil|(tl_key' & content' & Hkey' & Hcontent' & _ & Htrace)].
  { exfalso. revert Hnil. unfold tl_request.
    rewrite (dict_getitem_Some _ _ _ Hkey), bind_lift_Ok, Hcontent.
    cbn [py_strip]. rewrite bind_lift_Ok.
    apply String.eqb_neq in Hne. rewrite Hne.
    by rewrite !bind_fst. }
  assert (tl_key' = tl_key) as -> by congruence.
  assert (content' = content) as -> by congruence.
  assert ((tl_request E k j conf data).2 = Raise e0) as Hres.
  { unfold tl_request.
    rewrite (dict_getitem_Some _ _ _ Hkey), bind_lift_Ok, Hcontent.
    cbn [py_strip]. rewrite bind_lift_Ok.
    apply String.eqb_neq in Hne. rewrite Hne.
    unfold ret. rewrite !bind_snd. cbn [snd].
    unfold requests_post, emit. rewrite !bind_snd. cbn [snd lift].
    fold (tl_headers tl_key). fold (tl_body (strip content)).
    by rewrite Hpost. }
  unfold sync_article. rewrite Hb, bind_lift_Ok, enrich_eq. cbn zeta.
  unfold try_enrich. rewrite Hres, Htrace. cbn [fst snd]. by rewrite Hbase.
Qed.

Lemma interrupted_enrichment_is_not_caught_witness :
  sync_article interrupted_post_env 0 "ai" sample_conf 0
    (sample_article "bbc" "2024-01-09T01:00:00Z" " first text ")
  = ([EvPost TL_URL (tl_headers "tl-key") (tl_body (strip " first text "))],
     Raise interrupted).
Proof.
  eapply (interrupted_enrichment_is_not_caught interrupted_post_env 0 0
            sample_conf "ai" _ _ "tl-key" " first text " interrupted);
    try reflexivity.
  vm_compute. discriminate.
Defined.

(** ** Timestamps as times *)

Lemma all_from_spec (f : Z -> bool) (count : nat) :
  forall start, all_from f start count = true ->
  forall z, start <= z < start + Z.of_nat count -> f z = true.
Proof.
  induction count as [|count IH]; intros start Hall z Hz; [lia|].
  cbn [all_from] in Hall. apply andb_true_iff in Hall as [Hstart Hall].
  destruct (decide (z = start)) as [->|Hne]; [done|].
  apply (IH (start + 1) Hall). lia.
Qed.

Lemma string_compare_refl (s : string) : String.compare s s = Eq.
Proof.
  pose proof (String.compare_antisym s s) as H.
  by destruct (String.compare s s).
Qed.

Lemma string_compare_trans_Lt (a b c : string) :
  String.compare a b = Lt -> String.compare b c = Lt -> String.compare a c = Lt.
Proof.
  revert b c. induction a as [|x a IH]; intros [|y b] [|z c]; cbn; try done.
  unfold Ascii.compare.
  destruct (N.compare_spec (N_of_ascii x) (N_of_ascii y)) as [Hxy|Hxy|Hxy];
    destruct (N.compare_spec (N_of_ascii y) (N_of_ascii z)) as [Hyz|Hyz|Hyz];
    destruct (N.compare_spec (N_of_ascii x) (N_of_ascii z)) as [Hxz|Hxz|Hxz];
    try done; try lia.
  apply IH.
Qed.

(** Two texts that start with fields of the same length compare as the
    fields do, and as what follows when the fields are the same. *)
Lemma compare_app_fields (a b x y : string) :
  String.length a = String.length b ->
  String.compare (a +:+ x) (b +:+ y)
  = match String.compare a b with
    | Eq => String.compare x y
    | c => c
    end.
Proof.
  revert b. induction a as [|c a IH]; intros [|c' b] Hlen; try done.
  rewrite !string_app_cons. cbn [String.compare String.length] in *.
  destruct (Ascii.compare c c'); try done. apply IH. lia.
Qed.

(** A chain of steps in order is in order. *)
Lemma chain_Lt {A} (cmp : A -> A -> comparison) (g : Z -> A) (lo hi : Z) :
  (forall x y z, cmp x y = Lt -> cmp y z = Lt -> cmp x z = Lt) ->
  (forall z, lo <= z -> z + 1 < hi -> cmp (g z) (g (z + 1)) = Lt) ->
  forall a b, lo <= a -> a < b -> b < hi -> cmp (g a) (g b) = Lt.
Proof.
  intros Htrans Hstep a b Ha Hab Hb.
  replace b with (a + 1 + Z.of_nat (Z.to_nat (b - a - 1))) in * by lia.
  generalize dependent (Z.to_nat (b - a - 1)). intros n.
  induction n as [|n IH]; intros _ Hb.
  - rewrite Z.add_0_r in *. apply Hstep; lia.
  - eapply Htrans; [apply IH; lia|].
    replace (a + 1 + Z.of_nat (S n)) with (a + 1 + Z.of_nat n + 1) by lia.
    apply Hstep; lia.
Qed.

(** The two-digit fields, padded. *)
Lemma fields_of_2 : all_from (field_ok (zfill 2) 2 100) 0 (Z.to_nat 100) = true.
Proof. vm_compute. reflexivity. Qed.

(** The years of four digits, as they are. *)
Lemma years_of_4 :
  all_from (field_ok (pretty : Z -> string) 4 10000) 1000 (Z.to_nat 9000) = true.
Proof. vm_compute. reflexivity. Qed.

Lemma print_fields (print : Z -> string) (w : nat) (lo top : Z) :
  all_from (field_ok print w top) lo (Z.to_nat (top - lo)) = true ->
  forall a b, lo <= a < top -> lo <= b < top ->
    String.length (print a) = w /\
    String.compare (print a) (print b) = Z.compare a b.
Proof.
  intros Hall a b Ha Hb.
  assert (forall z, lo <= z < top -> field_ok print w top z = true) as Hok.
  { intros z Hz. apply (all_from_spec _ _ _ Hall). lia. }
  assert (forall z, lo <= z -> z + 1 < top ->
            String.compare (print z) (print (z + 1)) = Lt) as Hstep.
  { intros z Hz Hz'. specialize (Hok z ltac:(lia)). unfold field_ok in Hok.
    apply andb_true_iff in Hok as [_ Hok]. apply orb_true_iff in Hok as [Hok|Hok].
    - apply Z.leb_le in Hok. lia.
    - unfold String.ltb in Hok. by destruct (String.compare _ _). }
  split.
  { specialize (Hok a Ha). unfold field_ok in Hok.
    apply andb_true_iff in Hok as [Hok _]. by apply Nat.eqb_eq in Hok. }
  destruct (Z.compare_spec a b) as [->|Hlt|Hgt].
  - apply string_compare_refl.
  - apply (chain_Lt String.compare print lo top string_compare_trans_Lt Hstep);
      lia.
  - rewrite String.compare_antisym.
    rewrite (chain_Lt String.compare print lo top string_compare_trans_Lt
               Hstep b a); [done|lia..].
Qed.

(** *** The calendar *)

Lemma date_compare_trans_Lt (a b c : Z * Z * Z) :
  date_compare a b = Lt -> date_compare b c = Lt -> date_compare a c = Lt.
Proof.
  destruct a as [[y m] d], b as [[y' m'] d'], c as [[y'' m''] d'']. cbn.
  destruct (Z.compare_spec y y'), (Z.compare_spec y' y''), (Z.compare_spec y y'');
    try done; try lia;
    destruct (Z.compare_spec m m'), (Z.compare_spec m' m''),
      (Z.compare_spec m m''); try done; try lia;
    destruct (Z.compare_spec d d'), (Z.compare_spec d' d''),
      (Z.compare_spec d d''); try done; lia.
Qed.

Lemma date_compare_antisym (a b : Z * Z * Z) :
  date_compare a b = CompOpp (date_compare b a).
Proof.
  destruct a as [[y m] d], b as [[y' m'] d']. cbn.
  rewrite (Z.compare_antisym y' y), (Z.compare_antisym m' m),
    (Z.compare_antisym d' d).
  by destruct (y' ?= y), (m' ?= m), (d' ?= d).
Qed.

Lemma date_compare_refl (a : Z * Z * Z) : date_compare a a = Eq.
Proof. destruct a as [[y m] d]. cbn. by rewrite !Z.compare_refl. Qed.

Lemma dates_increase_spec (count : nat) :
  forall previous n, dates_increase previous n count = true ->
  (forall z, n <= z < n + Z.of_nat count -> date_in_range (ord2ymd z) = true) /\
  (forall z, n <= z -> z + 1 < n + Z.of_nat count ->
     date_compare (ord2ymd z) (ord2ymd (z + 1)) = Lt).
Proof.
  induction count as [|count IH]; intros previous n Hall; [split; intros; lia|].
  cbn [dates_increase] in Hall. cbn zeta in Hall.
  apply andb_true_iff in Hall as [Hhere Hall].
  apply andb_true_iff in Hhere as [Hrange _].
  destruct (IH _ _ Hall) as [Hranges Hsteps]. split.
  - intros z Hz. destruct (decide (z = n)) as [->|Hne]; [done|].
    apply Hranges. lia.
  - intros z Hz Hz'. destruct (decide (z = n)) as [->|Hne]; [|apply Hsteps; lia].
    destruct count as [|count]; [lia|].
    cbn [dates_increase] in Hall. cbn zeta in Hall.
    apply andb_true_iff in Hall as [Hnext _].
    apply andb_true_iff in Hnext as [_ Hnext].
    by destruct (date_compare (ord2ymd n) (ord2ymd (n + 1))).
Qed.

(** The days of the first four hundred years, one by one. *)
Lemma first_cycle : dates_increase (0, 12, 31) 1 (Z.to_nat 146097) = true.
Proof. vm_compute. reflexivity. Qed.

(** The calendar repeats every four hundred years. *)
Lemma ord2ymd_period (n : Z) :
  ord2ymd (n + DI400Y)
  = let '(y, m, d) := ord2ymd n in (y + 400, m, d).
Proof.
  unfold ord2ymd. cbn zeta.
  replace (n + DI400Y - 1) with (n - 1 + 1 * DI400Y) by lia.
  rewrite Z.div_add, Z.mod_add by done.
  set (r := (n - 1) mod DI400Y).
  set (q := (n - 1) / DI400Y).
  destruct ((_ =? 4) || (_ =? 4)).
  - f_equal. f_equal. lia.
  - destruct (_ <? _); f_equal; f_equal; lia.
Qed.

Lemma ord2ymd_shift (q : nat) (n : Z) :
  ord2ymd (n + Z.of_nat q * DI400Y)
  = let '(y, m, d) := ord2ymd n in (y + 400 * Z.of_nat q, m, d).
Proof.
  induction q as [|q IH].
  - rewrite Z.add_0_r. destruct (ord2ymd n) as [[y m] d]. f_equal. f_equal. lia.
  - replace (n + Z.of_nat (S q) * DI400Y) with (n + Z.of_nat q * DI400Y + DI400Y)
      by lia.
    rewrite ord2ymd_period, IH. destruct (ord2ymd n) as [[y m] d].
    f_equal. f_equal. lia.
Qed.

(** A day number as a day of the first cycle and a number of cycles. *)
Lemma day_of_cycle (n : Z) :
  1 <= n ->
  exists (q : nat) (r : Z), 1 <= r <= 146097 /\ n = r + Z.of_nat q * DI400Y.
Proof.
  intros Hn. exists (Z.to_nat ((n - 1) / DI400Y)), ((n - 1) mod DI400Y + 1).
  unfold DI400Y.
  pose proof (Z.mod_pos_bound (n - 1) 146097 ltac:(lia)).
  pose proof (Z.div_pos (n - 1) 146097 ltac:(lia) ltac:(lia)).
  pose proof (Z.div_mod (n - 1) 146097 ltac:(lia)).
  split; lia.
Qed.

Lemma ord2ymd_range (n : Z) :
  1 <= n ->
  1 <= (ord2ymd n).1.1 /\ 1 <= (ord2ymd n).1.2 <= 12 /\ 1 <= (ord2ymd n).2 <= 31.
Proof.
  intros Hn. destruct (day_of_cycle n Hn) as (q & r & Hr & ->).
  destruct (dates_increase_spec _ _ _ first_cycle) as [Hrange _].
  specialize (Hrange r ltac:(lia)). rewrite ord2ymd_shift.
  destruct (ord2ymd r) as [[y m] d]. unfold date_in_range in Hrange. cbn [fst snd].
  repeat (apply andb_true_iff in Hrange as [Hrange ?]). lia.
Qed.

Lemma ord2ymd_step (n : Z) :
  1 <= n -> date_compare (ord2ymd n) (ord2ymd (n + 1)) = Lt.
Proof.
  intros Hn. destruct (day_of_cycle n Hn) as (q & r & Hr & ->).
  destruct (dates_increase_spec _ _ _ first_cycle) as [_ Hstep].
  replace (r + Z.of_nat q * DI400Y + 1) with (r + 1 + Z.of_nat q * DI400Y) by lia.
  destruct (decide (r = 146097)) as [->|Hne].
  - replace (146097 + 1 + Z.of_nat q * DI400Y)
      with (1 + Z.of_nat (S q) * DI400Y) by (unfold DI400Y; lia).
    rewrite !ord2ymd_shift.
    change (ord2ymd 146097) with (400, 12, 31).
    change (ord2ymd 1) with (1, 1, 1). cbn.
    destruct (Z.compare_spec (400 + 400 * Z.of_nat q) (1 + 400 * Z.of_nat (S q)));
      [lia|done|lia].
  - specialize (Hstep r ltac:(lia) ltac:(lia)). rewrite !ord2ymd_shift.
    destruct (ord2ymd r) as [[y m] d], (ord2ymd (r + 1)) as [[y' m'] d'].
    cbn in *.
    destruct (Z.compare_spec y y'), (Z.compare_spec (y + 400 * Z.of_nat q)
                                      (y' + 400 * Z.of_nat q));
      try done; lia.
Qed.

(** The order of the dates is the order of the days. *)
Lemma ord2ymd_compare (a b : Z) :
  1 <= a -> 1 <= b -> date_compare (ord2ymd a) (ord2ymd b) = Z.compare a b.
Proof.
  intros Ha Hb.
  assert (forall x y, 1 <= x -> x < y ->
            date_compare (ord2ymd x) (ord2ymd y) = Lt) as Hlt.
  { intros x y Hx Hxy.
    apply (chain_Lt date_compare ord2ymd 1 (y + 1) date_compare_trans_Lt);
      [|lia..].
    intros z Hz _. by apply ord2ymd_step. }
  destruct (Z.compare_spec a b) as [->|Hab|Hab].
  - apply date_compare_refl.
  - by apply Hlt.
  - rewrite date_compare_antisym, Hlt; [done|lia..].
Qed.

Lemma ord2ymd_year_max (n : Z) :
  1 <= n <= MAXORDINAL -> (ord2ymd n).1.1 <= 9999.
Proof.
  intros Hn. pose proof (ord2ymd_compare n MAXORDINAL ltac:(lia) ltac:(done)) as H.
  change (ord2ymd MAXORDINAL) with (9999, 12, 31) in H.
  destruct (ord2ymd n) as [[y m] d]. cbn in *.
  destruct (Z.compare_spec n MAXORDINAL) as [?|?|?]; [| |unfold MAXORDINAL in *; lia];
    destruct (Z.compare_spec y 9999); try done; lia.
Qed.

(** The order of the seconds of the day is that of hours, minutes and
    seconds. *)
Lemma time_compare (s1 s2 : Z) :
  0 <= s1 < 86400 -> 0 <= s2 < 86400 ->
  match Z.compare (s1 / 3600) (s2 / 3600) with
  | Eq => match Z.compare (s1 mod 3600 / 60) (s2 mod 3600 / 60) with
          | Eq => Z.compare (s1 mod 60) (s2 mod 60)
          | c => c
          end
  | c => c
  end = Z.compare s1 s2.
Proof.
  intros H1 H2.
  destruct (Z.compare_spec (s1 / 3600) (s2 / 3600)),
    (Z.compare_spec (s1 mod 3600 / 60) (s2 mod 3600 / 60)),
    (Z.compare_spec (s1 mod 60) (s2 mod 60)),
    (Z.compare_spec s1 s2); try done;
    exfalso; Z.div_mod_to_equations; lia.
Qed.

(** The order of two timestamps in [TS_FORMAT] is the order of the times
    they stand for, when the years have four digits: the text of a year
    below 1000 is shorter, and comes after that of the year 1000. *)
Lemma strftime_compare (t1 t2 : datetime) :
  valid_datetime t1 = true -> valid_datetime t2 = true ->
  1000 <= dt_year t1 -> 1000 <= dt_year t2 ->
  String.compare (strftime t1 TS_FORMAT) (strftime t2 TS_FORMAT)
  = datetime_compare t1 t2.
Proof.
  unfold valid_datetime, datetime_compare, dt_year. intros H1 H2 Hk1 Hk2.
  repeat (apply andb_true_iff in H1 as [H1 ?]).
  repeat (apply andb_true_iff in H2 as [H2 ?]).
  assert (1 <= dt_ordinal t1 <= MAXORDINAL) as Ho1 by lia.
  assert (1 <= dt_ordinal t2 <= MAXORDINAL) as Ho2 by lia.
  assert (0 <= dt_second t1 < 86400) as Hs1 by lia.
  assert (0 <= dt_second t2 < 86400) as Hs2 by lia.
  rewrite <- (ord2ymd_compare (dt_ordinal t1) (dt_ordinal t2)) by lia.
  rewrite <- (time_compare (dt_second t1) (dt_second t2)) by done.
  rewrite !strftime_TS_FORMAT.
  pose proof (ord2ymd_range (dt_ordinal t1) ltac:(lia)) as (Hy1 & Hm1 & Hd1).
  pose proof (ord2ymd_range (dt_ordinal t2) ltac:(lia)) as (Hy2 & Hm2 & Hd2).
  pose proof (ord2ymd_year_max (dt_ordinal t1) Ho1) as Hy1'.
  pose proof (ord2ymd_year_max (dt_ordinal t2) Ho2) as Hy2'.
  destruct (ord2ymd (dt_ordinal t1)) as [[y1 m1] d1],
    (ord2ymd (dt_ordinal t2)) as [[y2 m2] d2]. cbn [fst snd] in *. cbn zeta.
  set (s1 := dt_second t1) in *. set (s2 := dt_second t2) in *.
  assert (0 <= s1 / 3600 < 100 /\ 0 <= s1 mod 3600 / 60 < 100
          /\ 0 <= s1 mod 60 < 100) as (Ha1 & Hb1 & Hc1)
    by (Z.div_mod_to_equations; lia).
  assert (0 <= s2 / 3600 < 100 /\ 0 <= s2 mod 3600 / 60 < 100
          /\ 0 <= s2 mod 60 < 100) as (Ha2 & Hb2 & Hc2)
    by (Z.div_mod_to_equations; lia).
  pose proof (print_fields pretty 4 1000 10000 years_of_4) as F4.
  pose proof (print_fields (zfill 2) 2 0 100 fields_of_2) as F2.
  destruct (F4 y1 y2 ltac:(lia) ltac:(lia)) as [Ly1 Cy].
  destruct (F4 y2 y1 ltac:(lia) ltac:(lia)) as [Ly2 _].
  destruct (F2 m1 m2 ltac:(lia) ltac:(lia)) as [Lm1 Cm].
  destruct (F2 m2 m1 ltac:(lia) ltac:(lia)) as [Lm2 _].
  destruct (F2 d1 d2 ltac:(lia) ltac:(lia)) as [Ld1 Cd].
  destruct (F2 d2 d1 ltac:(lia) ltac:(lia)) as [Ld2 _].
  destruct (F2 (s1 / 3600) (s2 / 3600) Ha1 Ha2) as [LH1 CH].
  destruct (F2 (s2 / 3600) (s1 / 3600) Ha2 Ha1) as [LH2 _].
  destruct (F2 (s1 mod 3600 / 60) (s2 mod 3600 / 60) Hb1 Hb2) as [LM1 CM].
  destruct (F2 (s2 mod 3600 / 60) (s1 mod 3600 / 60) Hb2 Hb1) as [LM2 _].
  destruct (F2 (s1 mod 60) (s2 mod 60) Hc1 Hc2) as [LS1 CS].
  rewrite compare_app_fields by congruence. rewrite Cy.
  unfold date_compare.
  destruct (y1 ?= y2); [|done..].
  rewrite (compare_app_fields "-" "-") by done.
  change (String.compare "-" "-") with Eq. cbv iota.
  rewrite compare_app_fields by congruence. rewrite Cm.
  destruct (m1 ?= m2); [|done..].
  rewrite (compare_app_fields "-" "-") by done.
  change (String.compare "-" "-") with Eq. cbv iota.
  rewrite compare_app_fields by congruence. rewrite Cd.
  destruct (d1 ?= d2); [|done..].
  rewrite (compare_app_fields "T" "T") by done.
  change (String.compare "T" "T") with Eq. cbv iota.
  rewrite compare_app_fields by congruence. rewrite CH.
  destruct (s1 / 3600 ?= s2 / 3600); [|done..].
  rewrite (compare_app_fields ":" ":") by done.
  change (String.compare ":" ":") with Eq. cbv iota.
  rewrite compare_app_fields by congruence. rewrite CM.
  destruct (s1 mod 3600 / 60 ?= s2 mod 3600 / 60); [|done..].
  rewrite (compare_app_fields ":" ":") by done.
  change (String.compare ":" ":") with Eq. cbv iota.
  exact CS.
Qed.

(** *** The window *)

(** A later day is in no earlier year. *)
Lemma dt_year_mono (t1 t2 : datetime) :
  1 <= dt_ordinal t1 <= dt_ordinal t2 -> dt_year t1 <= dt_year t2.
Proof.
  intros Ho. unfold dt_year.
  pose proof (ord2ymd_compare (dt_ordinal t1) (dt_ordinal t2) ltac:(lia)
                ltac:(lia)) as H.
  destruct (ord2ymd (dt_ordinal t1)) as [[y1 m1] d1],
    (ord2ymd (dt_ordinal t2)) as [[y2 m2] d2]. cbn in *.
  destruct (Z.compare_spec y1 y2); [lia|lia|].
  destruct (Z.compare_spec (dt_ordinal t1) (dt_ordinal t2)); try done; lia.
Qed.

Lemma two_days_before (now : datetime) :
  valid_datetime now = true -> 3 <= dt_ordinal now ->
  datetime_sub now INIT_DELTA = Ok (days_before 2 now) /\
  valid_datetime (days_before 2 now) = true /\
  datetime_compare (days_before 2 now) now = Lt.
Proof.
  unfold valid_datetime. intros Hv Hn.
  repeat (apply andb_true_iff in Hv as [Hv ?]).
  assert (0 <= dt_second now < 86400) as Hs by lia.
  assert (0 <= dt_microsecond now < 1000000) as Hu by lia.
  assert (dt_ordinal now <= MAXORDINAL) as Hmax by lia.
  split; [|split].
  - unfold datetime_sub, INIT_DELTA, days_before.
    cbn [td_days td_seconds td_microseconds]. cbn zeta.
    rewrite !Z.sub_0_r, (Z.div_small (dt_microsecond now)), Z.add_0_r by done.
    rewrite (Z.div_small (dt_second now)), Z.add_0_r by done.
    rewrite (Z.mod_small (dt_second now)), (Z.mod_small (dt_microsecond now))
      by done.
    replace (0 <? dt_ordinal now - 2) with true by lia.
    replace (dt_ordinal now - 2 <=? MAXORDINAL) with true by lia.
    done.
  - unfold days_before. cbn [dt_ordinal dt_second dt_microsecond].
    repeat (apply andb_true_iff; split); lia.
  - unfold datetime_compare, days_before. cbn [dt_ordinal dt_second].
    by rewrite (proj2 (Z.compare_lt_iff _ _)) by lia.
Qed.

Lemma string_leb_ltb_trans (a b c : string) :
  String.leb a b = true -> String.ltb b c = true -> String.ltb a c = true.
Proof.
  unfold String.leb, String.ltb. intros Hab Hbc.
  destruct (String.compare a b) eqn:Hc; [| |done].
  - apply String.compare_eq_iff in Hc as ->. exact Hbc.
  - destruct (String.compare b c) eqn:Hc'; try done.
    by rewrite (string_compare_trans_Lt a b c).
Qed.

(** X21: the window after a run, for years of four digits.  When the
    prior state's [to_ts] is the timestamp a run left (the [query_end] of
    a run at the time [previous]), and neither [previous] nor the day two
    days before [now] are before the year 1000, the window of a run at
    [now] starts at the earlier of that time and two days before [now],
    and ends at [now]: what [min] picks among the texts is the earliest
    time.  So the window starts no later than where the previous one
    ended, and reaches back two days at least. *)
Theorem window_after_a_run E (state : dict) (previous : datetime) :
  valid_datetime (env_now E) = true ->
  3 <= dt_ordinal (env_now E) ->
  1000 <= dt_year (days_before 2 (env_now E)) ->
  valid_datetime previous = true ->
  1000 <= dt_year previous ->
  dict_get state "to_ts" = PStr (strftime previous TS_FORMAT) ->
  let start := earlier previous (days_before 2 (env_now E)) in
  query_window E state PNone
    = Ok (PStr (strftime start TS_FORMAT), strftime (env_now E) TS_FORMAT) /\
  datetime_compare start previous <> Gt /\
  datetime_compare start (days_before 2 (env_now E)) <> Gt /\
  datetime_compare start (env_now E) = Lt.
Proof.
  intros Hnow Hord Hyear Hprev Hyear' Hto start.
  destruct (two_days_before _ Hnow Hord) as (Hsafety & Hvalid & Hbefore).
  assert (query_window E state PNone
          = Ok (PStr (strftime start TS_FORMAT), strftime (env_now E) TS_FORMAT))
    as Hw.
  { unfold query_window. rewrite Hsafety, Hto. cbn [res_bind List.filter].
    rewrite !safety_truthy. cbn [py_truthy py_min min_from py_lt res_bind].
    unfold String.ltb.
    rewrite (strftime_compare _ _ Hvalid Hprev Hyear Hyear').
    unfold start, earlier.
    by destruct (datetime_compare (days_before 2 (env_now E)) previous). }
  split; [exact Hw|].
  assert (forall a b : datetime,
            datetime_compare a b = CompOpp (datetime_compare b a)) as Hanti.
  { intros a b. unfold datetime_compare.
    rewrite (Z.compare_antisym (dt_ordinal b)), (Z.compare_antisym (dt_second b)).
    by destruct (dt_ordinal b ?= dt_ordinal a), (dt_second b ?= dt_second a). }
  assert (forall a : datetime, datetime_compare a a = Eq) as Hrefl.
  { intros a. unfold datetime_compare. by rewrite !Z.compare_refl. }
  assert (datetime_compare (days_before 2 (env_now E)) previous <> Lt ->
          datetime_compare previous (env_now E) = Lt) as Hlate.
  { unfold datetime_compare, days_before. cbn [dt_ordinal dt_second].
    destruct (Z.compare_spec (dt_ordinal (env_now E) - 2) (dt_ordinal previous)),
      (Z.compare_spec (dt_ordinal previous) (dt_ordinal (env_now E)));
      try done; lia. }
  unfold start, earlier.
  destruct (datetime_compare (days_before 2 (env_now E)) previous) eqn:Hc.
  - split; [by rewrite Hrefl|]. split; [by rewrite Hanti, Hc|]. by apply Hlate.
  - split; [by rewrite Hc|]. split; [by rewrite Hrefl|]. exact Hbefore.
  - split; [by rewrite Hrefl|]. split; [by rewrite Hanti, Hc|]. by apply Hlate.
Qed.

Lemma window_after_a_run_witness :
  let state : dict :=
    {[ "to_ts" := PStr (strftime (mk_datetime 2024 1 10 12 0 0) TS_FORMAT) ]} in
  let start :=
    earlier (mk_datetime 2024 1 10 12 0 0) (days_before 2 (env_now later_env)) in
  query_window later_env state PNone
    = Ok (PStr (strftime start TS_FORMAT), strftime (env_now later_env) TS_FORMAT) /\
  datetime_compare start (mk_datetime 2024 1 10 12 0 0) <> Gt /\
  datetime_compare start (days_before 2 (env_now later_env)) <> Gt /\
  datetime_compare start (env_now later_env) = Lt.
Proof.
  apply (window_after_a_run later_env
           {[ "to_ts" := PStr (strftime (mk_datetime 2024 1 10 12 0 0) TS_FORMAT) ]}
           (mk_datetime 2024 1 10 12 0 0)).
  - vm_compute. reflexivity.
  - vm_compute. discriminate.
  - vm_compute. discriminate.
  - vm_compute. reflexivity.
  - vm_compute. discriminate.
  - vm_compute. reflexivity.
Defined.

(** X22: the window is never empty nor inverted, for years of four
    digits.  When the day two days before the run is not before the year
    1000, whatever the prior state, every request of a run asks from a
    [from] that is strictly before its [to] in the order of the texts,
    and no later than two days before the start of the run. *)
Theorem window_is_not_empty E (conf : config) (state : dict) :
  valid_datetime (env_now E) = true ->
  3 <= dt_ordinal (env_now E) ->
  1000 <= dt_year (days_before 2 (env_now E)) ->
  Forall (fun request : string * dict * dict =>
            exists query_start query_end : string,
              request.2 !! "from" = Some (PStr query_start) /\
              request.2 !! "to" = Some (PStr query_end) /\
              String.ltb query_start query_end = true /\
              String.leb query_start
                (strftime (days_before 2 (env_now E)) TS_FORMAT) = true)
    (gets (update E conf state).1).
Proof.
  intros Hnow Hord Hyear.
  destruct (two_days_before _ Hnow Hord) as (Hsafety & Hvalid & Hbefore).
  assert (1000 <= dt_year (env_now E)) as Hyear'.
  { etrans; [exact Hyear|]. apply dt_year_mono. cbn [days_before dt_ordinal].
    lia. }
  assert (String.ltb (strftime (days_before 2 (env_now E)) TS_FORMAT)
            (strftime (env_now E) TS_FORMAT) = true) as Hlt.
  { unfold String.ltb.
    by rewrite (strftime_compare _ _ Hvalid Hnow Hyear Hyear'), Hbefore. }
  apply Forall_forall. intros request Hreq.
  destruct (update_requests E conf state request Hreq)
    as (qs & ps & key & topic & Hw & _ & _ & ->).
  destruct (api_params_lookup qs (strftime (env_now E) TS_FORMAT) ps)
    as (Hfrom & Hto & _).
  assert (exists query_start,
            qs = PStr query_start /\
            String.leb query_start
              (strftime (days_before 2 (env_now E)) TS_FORMAT) = true)
    as (query_start & -> & Hle).
  { revert Hw. unfold query_window. rewrite Hsafety. cbn [res_bind List.filter].
    rewrite safety_truthy. cbn [py_truthy].
    destruct (py_truthy (dict_get state "to_ts")).
    - cbn [py_min min_from].
      destruct (dict_get state "to_ts") as [| | | |s| |]; try done.
      cbn [py_lt res_bind].
      destruct (String.ltb _ s) eqn:Hs; intros [= <-]; eexists; (split; [done|]).
      + apply string_leb_refl.
      + by apply string_not_ltb_leb.
    - cbn [py_min min_from]. intros [= <-]. eexists. split; [done|].
      apply string_leb_refl. }
  exists query_start, (strftime (env_now E) TS_FORMAT).
  unfold topic_request. cbn [snd]. rewrite !lookup_insert_ne by done.
  split; [done|]. split; [done|]. split; [|done].
  by eapply string_leb_ltb_trans.
Qed.

Lemma window_is_not_empty_witness :
  Forall (fun request : string * dict * dict =>
            exists query_start query_end : string,
              request.2 !! "from" = Some (PStr query_start) /\
              request.2 !! "to" = Some (PStr query_end) /\
              String.ltb query_start query_end = true /\
              String.leb query_start
                (strftime (days_before 2 (env_now sample_env)) TS_FORMAT) = true)
    (gets (update sample_env sample_conf sample_state).1).
Proof.
  apply (window_is_not_empty sample_env sample_conf sample_state).
  - vm_compute. reflexivity.
  - vm_compute. discriminate.
  - vm_compute. discriminate.
Defined.
